(** * Bitwise five-card poker evaluator: embedding and verification

    Shallow embedding of [bitwiseEvaluator.ts] (hand classification by
    bit signatures and the hand comparator), followed by theorems about it.

    Numbers.  Every JavaScript number manipulated by the evaluator on a
    five-card hand is an integer of at most 53 significant bits, so the
    double-precision operations are exact and numbers are modelled by [Z].
    The places where the source leaves the integers are written out: the
    bitwise operators go through [ToInt32]; the quotient [value / offset]
    is truncated by [& 15]; the quotient [btRanks / (btRanks & -btRanks)]
    is compared with 31 as a real number; and [position / 5] is taken of
    multiples of five only.  A thrown [TypeError] is the result [None]. *)

From Stdlib Require Import ZArith List Bool String Ascii Lia Permutation Sorted.
Import ListNotations.
Local Open Scope Z_scope.

(** ** JavaScript primitives *)

Module JS.

(** [ToInt32]: reduction modulo 2^32 into the signed range. *)
Definition ToInt32 (x : Z) : Z :=
  let m := x mod 2 ^ 32 in
  if 2 ^ 31 <=? m then m - 2 ^ 32 else m.

(** [a & b], [a | b], [a << b] on numbers holding integers. *)
Definition band (a b : Z) : Z := Z.land (ToInt32 a) (ToInt32 b).
Definition bor (a b : Z) : Z := Z.lor (ToInt32 a) (ToInt32 b).
Definition shl (a b : Z) : Z := ToInt32 (Z.shiftl (ToInt32 a) (b mod 32)).

(** [a % b] keeps the sign of the dividend. *)
Definition rem (a b : Z) : Z := Z.rem a b.

(** [Math.pow(2, e)] for an integer exponent [0 <= e]. *)
Definition pow2 (e : Z) : Z := 2 ^ e.

(** [trunc(a / b)], the integer that [ToInt32] sees of a quotient; a zero
    divisor gives [NaN] (or an infinity), which [ToInt32] maps to 0. *)
Definition quot (a b : Z) : Z := Z.quot a b.

Definition is_digit (c : ascii) : bool :=
  let n := nat_of_ascii c in (48 <=? n)%nat && (n <=? 57)%nat.

(** The white space of [\s] and of [trim] within ASCII. *)
Definition is_space (c : ascii) : bool :=
  let n := nat_of_ascii c in
  (n =? 32)%nat || ((9 <=? n)%nat && (n <=? 13)%nat).

Definition toLowerCase (c : ascii) : ascii :=
  let n := nat_of_ascii c in
  if (65 <=? n)%nat && (n <=? 90)%nat then ascii_of_nat (n + 32) else c.

(** [s.charAt(i)]: the empty string outside the string. *)
Definition charAt (s : list ascii) (i : Z) : option ascii :=
  if i <? 0 then None else nth_error s (Z.to_nat i).

Definition charIs (s : list ascii) (i : Z) (c : ascii) : bool :=
  match charAt s i with
  | Some d => Ascii.eqb d c
  | None => false
  end.

(** [x.toString(2)] for an integer [x]. *)
Fixpoint pos_bits (p : positive) (acc : list ascii) : list ascii :=
  match p with
  | xH => "1"%char :: acc
  | xO q => pos_bits q ("0"%char :: acc)
  | xI q => pos_bits q ("1"%char :: acc)
  end.

Definition toString2 (x : Z) : list ascii :=
  match x with
  | Z0 => ["0"%char]
  | Zpos p => pos_bits p []
  | Zneg p => "-"%char :: pos_bits p []
  end.

(** [s.padStart(n, "0")]. *)
Definition padStart0 (n : nat) (s : list ascii) : list ascii :=
  (repeat "0"%char (n - Datatypes.length s) ++ s)%list.

(** [s.replace(/(\d{4})/g, "$1 ")]: scanning from the left, each run of
    four digits is followed by a blank and the scan resumes after it. *)
Fixpoint group4 (s : list ascii) : list ascii :=
  match s with
  | a :: ((b :: c :: d :: rest) as tl) =>
      if is_digit a && is_digit b && is_digit c && is_digit d
      then a :: b :: c :: d :: " "%char :: group4 rest
      else a :: group4 tl
  | _ => s
  end.

Fixpoint dropWhile (p : ascii -> bool) (s : list ascii) : list ascii :=
  match s with
  | c :: r => if p c then dropWhile p r else s
  | [] => []
  end.

(** [s.replace(/(^\s+|\s+$)/, "")]: without the [g] flag only the first
    match goes, the leading blanks when there are some and else the
    trailing ones. *)
Definition stripOnce (s : list ascii) : list ascii :=
  match s with
  | c :: _ =>
      if is_space c then dropWhile is_space s
      else rev (dropWhile is_space (rev s))
  | [] => []
  end.

(** [s.trim()]. *)
Definition trim (s : list ascii) : list ascii :=
  rev (dropWhile is_space (rev (dropWhile is_space s))).

(** [s.split(" ")]. *)
Fixpoint split_blank (cur : list ascii) (s : list ascii) : list (list ascii) :=
  match s with
  | [] => [rev cur]
  | c :: r =>
      if Ascii.eqb c " "%char then rev cur :: split_blank [] r
      else split_blank (c :: cur) r
  end.

(** A [while] loop with an iteration budget; [None] when it is used up. *)
Fixpoint while {St : Type} (fuel : nat) (cond : St -> bool) (body : St -> St)
    (s : St) : option St :=
  if cond s then
    match fuel with
    | O => None
    | S fuel' => while fuel' cond body (body s)
    end
  else Some s.

(** [a / b == c] on numbers holding integers: the quotient of the reals,
    which a zero divisor turns into an infinity or [NaN]. *)
Definition div_eqb (a b c : Z) : bool := negb (b =? 0) && (a =? c * b).

(** [a[i]] of an array of numbers; [None] stands for [undefined]. *)
Definition index (a : list Z) (i : nat) : option Z := nth_error a i.

(** An operand of a bitwise operator: [undefined] counts as 0. *)
Definition operand (v : option Z) : Z :=
  match v with Some x => x | None => 0 end.

(** [a === b] where [a] may be [undefined] and [b] is a number. *)
Definition strict_eqb (a : option Z) (b : Z) : bool :=
  match a with Some x => x =? b | None => false end.

(** [a.sort(compareFn)] on an array of numbers, in place: the entries in the
    order of a consistent comparator, equal ones in their former order. *)
Fixpoint insert (compareFn : Z -> Z -> Z) (x : Z) (a : list Z) : list Z :=
  match a with
  | [] => [x]
  | y :: r =>
      if compareFn x y <=? 0 then x :: a else y :: insert compareFn x r
  end.

Definition sort (compareFn : Z -> Z -> Z) (a : list Z) : list Z :=
  fold_right (insert compareFn) [] a.
End JS.

(** ** Tables and constants *)

(** The enumeration [HandRank] with the number of each member. *)
Module HandRank.

Inductive t : Type :=
| highCard | pair | twoPair | trips | straight | flush
| fullHouse | quads | straightFlush | royalFlush.

Definition value (h : t) : Z :=
  match h with
  | highCard => 0 | pair => 1 | twoPair => 2 | trips => 3 | straight => 4
  | flush => 5 | fullHouse => 6 | quads => 7 | straightFlush => 8
  | royalFlush => 9
  end.

Definition eqb (a b : t) : bool := value a =? value b.

End HandRank.

Record HandAnalysis : Type := mkHandAnalysis {
  handRank : HandRank.t;
  english : string;
  btRanks : Z;
  btCount : Z
}.

(** [Rank[c]] and [Suit[c]]; [None] stands for [undefined]. *)
Definition Rank (c : option ascii) : option Z :=
  match c with
  | Some "A"%char => Some 14
  | Some "K"%char => Some 13
  | Some "Q"%char => Some 12
  | Some "J"%char => Some 11
  | Some "T"%char => Some 10
  | Some "9"%char => Some 9
  | Some "8"%char => Some 8
  | Some "7"%char => Some 7
  | Some "6"%char => Some 6
  | Some "5"%char => Some 5
  | Some "4"%char => Some 4
  | Some "3"%char => Some 3
  | Some "2"%char => Some 2
  | _ => None
  end.

Definition Suit (c : option ascii) : option Z :=
  match c with
  | Some "s"%char => Some 1
  | Some "c"%char => Some 2
  | Some "h"%char => Some 4
  | Some "d"%char => Some 8
  | _ => None
  end.

Definition WHEEL_HASH : Z := 0x403c.
Definition BROADWAY_HASH : Z := 0x7c00.

(** [Rs]: the thirteen ranks, ace first. *)
Definition Rs : list Z := [14; 13; 12; 11; 10; 9; 8; 7; 6; 5; 4; 3; 2].

(** The keys of [POKER_HASH]: the five numeric ones and the five names. *)
Inductive HashKey : Type :=
| KNum (n : Z) | KRF | KSF | KF | KS | KHC.

Definition POKER_HASH (k : HashKey) : option (string * HandRank.t) :=
  match k with
  | KRF => Some ("Royal Flush"%string, HandRank.royalFlush)
  | KSF => Some ("Straight Flush"%string, HandRank.straightFlush)
  | KNum 1 => Some ("Four of a Kind"%string, HandRank.quads)
  | KNum 10 => Some ("Full House"%string, HandRank.fullHouse)
  | KF => Some ("Flush"%string, HandRank.flush)
  | KS => Some ("Straight"%string, HandRank.straight)
  | KNum 9 => Some ("Three of a Kind"%string, HandRank.trips)
  | KNum 7 => Some ("Two Pair"%string, HandRank.twoPair)
  | KNum 6 => Some ("Pair"%string, HandRank.pair)
  | KHC => Some ("High Card"%string, HandRank.highCard)
  | KNum _ => None
  end.

(** ** The evaluator *)

(** [displayBits(bits)(x)]; [split("").join("")] leaves the string as it is. *)
Definition displayBits (bits : nat) (x : Z) : list ascii :=
  JS.stripOnce (JS.group4 (JS.padStart0 bits (JS.toString2 x))).

Definition displayIntAs16Bit : Z -> list ascii := displayBits 16.
Definition displayFloatAs64Bit : Z -> list ascii := displayBits 64.

(** The numbers of an array without [undefined] entries. *)
Fixpoint all_defined (l : list (option Z)) : option (list Z) :=
  match l with
  | [] => Some []
  | Some x :: r => option_map (cons x) (all_defined r)
  | None :: _ => None
  end.

(** [parseHandFromString].  A character outside the [Rank] or [Suit] table
    puts [undefined] in the arrays of the source, which their type
    [number[]] excludes; the model answers [None] there. *)
Definition parseHandFromString (handNotation : string)
  : option (list Z * list Z) :=
  let cards :=
    JS.split_blank [] (JS.trim (list_ascii_of_string handNotation)) in
  let ranks := map (fun c => Rank (JS.charAt c 0)) cards in
  let suits :=
    map (fun c => Suit (option_map JS.toLowerCase (JS.charAt c 1))) cards in
  match all_defined ranks, all_defined suits with
  | Some rs, Some ss => Some (rs, ss)
  | _, _ => None
  end.

(** One bit per rank present; the loop reads the first five entries. *)
Definition countRanksBitwise (handRanks : list Z) : Z :=
  fold_left
    (fun bitValue card =>
       let cardValue := JS.shl 1 (JS.operand (JS.index handRanks card)) in
       JS.bor bitValue cardValue)
    [0; 1; 2; 3; 4]%nat 0.

(** The body of the loop of [countDuplicatesBitwise]. *)
Definition addRank (value offset : Z) : Z :=
  value + offset * (JS.band (JS.quot value offset) 15 + 1).

(** The loop runs its body once with [offset = 0] (for [i = -1]) and then
    once per entry, with the offset of that entry. *)
Definition countDuplicatesBitwise (handRanks : list Z) : Z :=
  fold_left (fun value r => addRank value (JS.pow2 (r * 4)))
    handRanks (addRank 0 0).

Definition lookup (k : HashKey) (btRanks btCount : Z) : option HandAnalysis :=
  match POKER_HASH k with
  | Some (e, h) => Some (mkHandAnalysis h e btRanks btCount)
  | None => None
  end.

(** [rankPokerHand]; [None] is the [TypeError] of indexing the [undefined]
    that [POKER_HASH] gives for a key it does not have. *)
Definition rankPokerHand (ranks suits : list Z) : option HandAnalysis :=
  let btRanks := countRanksBitwise ranks in
  let btCount := JS.rem (countDuplicatesBitwise ranks) 15 in
  if negb (btCount =? 5) then lookup (KNum btCount) btRanks btCount
  else
    let isStraight :=
      JS.div_eqb btRanks (JS.band btRanks (- btRanks)) 31
      || (btRanks =? WHEEL_HASH) in
    let isFlush :=
      JS.strict_eqb (JS.index suits 0)
        (JS.bor (JS.bor (JS.bor (JS.operand (JS.index suits 1))
                                (JS.operand (JS.index suits 2)))
                        (JS.operand (JS.index suits 3)))
                (JS.operand (JS.index suits 4))) in
    if isFlush && (btRanks =? BROADWAY_HASH) then lookup KRF btRanks btCount
    else if isStraight && isFlush then lookup KSF btRanks btCount
    else if isFlush then lookup KF btRanks btCount
    else if isStraight then lookup KS btRanks btCount
    else lookup KHC btRanks btCount.

(** ** The analysis by sorting *)

Module PairUps.
Record t : Type := mk {
  quads : list (option Z);
  trips : list (option Z);
  pairs : list (option Z);
  kickers : list (option Z) }.
End PairUps.

Definition PAIR_TYPES : list string :=
  ["kickers"; "pairs"; "trips"; "quads"]%string.

(** [workspace[key].push(v)].  Under a key that is [undefined], or none of
    the four, the object holds no array and the call throws a TypeError. *)
Definition push (workspace : PairUps.t) (key : option string) (v : option Z)
  : option PairUps.t :=
  let (quads, trips, pairs, kickers) := workspace in
  match key with
  | Some k =>
      if String.eqb k "quads" then
        Some (PairUps.mk (quads ++ [v]) trips pairs kickers)
      else if String.eqb k "trips" then
        Some (PairUps.mk quads (trips ++ [v]) pairs kickers)
      else if String.eqb k "pairs" then
        Some (PairUps.mk quads trips (pairs ++ [v]) kickers)
      else if String.eqb k "kickers" then
        Some (PairUps.mk quads trips pairs (kickers ++ [v]))
      else None
  | None => None
  end.

(** [queue]: the rank of the run being read, [undefined] on an empty array,
    and its length so far. *)
Module Queue.
Record t : Type := mk { rank : option Z; count : nat }.
End Queue.

(** [workspace[PAIR_TYPES[queue.count - 1]].push(queue.rank)]; the length of
    a run is at least 1. *)
Definition pushQueue (queue : Queue.t) (workspace : PairUps.t)
  : option PairUps.t :=
  push workspace (nth_error PAIR_TYPES (Queue.count queue - 1))
    (Queue.rank queue).

(** The body of the loop over [handRanks.slice(1)]; [None] once a push has
    thrown. *)
Definition nextRank (state : option (Queue.t * PairUps.t)) (r : Z)
  : option (Queue.t * PairUps.t) :=
  match state with
  | Some (queue, workspace) =>
      if JS.strict_eqb (Queue.rank queue) r
      then
        Some (Queue.mk (Queue.rank queue) (Queue.count queue + 1), workspace)
      else
        match pushQueue queue workspace with
        | Some workspace' => Some (Queue.mk (Some r) 1, workspace')
        | None => None
        end
  | None => None
  end.

(** [btCountToAnalysis]: the array of the caller as the call leaves it,
    sorted in place, and the result, [None] for a TypeError.  The calls of
    [console.log] are left out. *)
Definition btCountToAnalysis (handRanks : list Z)
  : list Z * option PairUps.t :=
  let workspace := PairUps.mk [] [] [] [] in
  let handRanks := JS.sort (fun a b => b - a) handRanks in
  let queue := Queue.mk (JS.index handRanks 0) 1 in
  (handRanks,
   match fold_left nextRank (tl handRanks) (Some (queue, workspace)) with
   | Some (queue, workspace) => pushQueue queue workspace
   | None => None
   end).

(** *** The category analyzers

    Each scans the 64-bit display of its argument in steps of five
    characters.  The loop state is the tuple of the local variables, the
    position last ([pair_] is the variable [pair] of the source).
    [position] is always a multiple of five, so
    [position / 5] is an integer.  The iteration budget is the length of the
    display: [analyzers_return] shows it is never used up. *)

Definition rankAt (position : Z) : Z := 14 - position / 5.

Definition scanCond {St : Type} (l : Z) (cond : St -> bool)
    (state : St * Z) : bool :=
  let (s, position) := state in cond s && (position <? l).

Definition scanBody {St : Type} (body : Z -> St -> St)
    (state : St * Z) : St * Z :=
  let (s, position) := state in
  let position := position + 5 in (body position s, position).

Definition scan {St : Type} (stringRep : list ascii)
    (cond : St -> bool) (body : Z -> St -> St) (init : St) : option St :=
  let l := Z.of_nat (Datatypes.length stringRep) in
  option_map fst
    (JS.while (Datatypes.length stringRep) (scanCond l cond) (scanBody body)
       (init, 0)).

Definition analyzeQuads (btCount : Z) : option (list Z) :=
  let stringRep := displayFloatAs64Bit btCount in
  option_map (fun '(quads, kicker) => [quads; kicker])
    (scan stringRep
       (fun '(quads, kicker) => (quads =? 0) || (kicker =? 0))
       (fun position '(quads, kicker) =>
          if JS.charIs stringRep position "1" then (rankAt position, kicker)
          else if JS.charIs stringRep (position + 3) "1"
               then (quads, rankAt position)
               else (quads, kicker))
       (0, 0)).

Definition analyzeBoat (btCount : Z) : option (list Z) :=
  let stringRep := displayFloatAs64Bit btCount in
  option_map (fun '(trips, pair_) => [trips; pair_])
    (scan stringRep
       (fun '(trips, pair_) => (trips =? 0) || (pair_ =? 0))
       (fun position '(trips, pair_) =>
          if JS.charIs stringRep (position + 1) "1"
          then (rankAt position, pair_)
          else if JS.charIs stringRep (position + 2) "1"
               then (trips, rankAt position)
               else (trips, pair_))
       (0, 0)).

Definition analyzeTrips (btCount : Z) : option (list Z) :=
  let stringRep := displayFloatAs64Bit btCount in
  option_map (fun '(trips, kickers) => trips :: kickers)
    (scan stringRep
       (fun '(trips, kickers) =>
          (trips =? 0) || (Datatypes.length kickers <? 2)%nat)
       (fun position '(trips, kickers) =>
          if JS.charIs stringRep (position + 1) "1"
          then (rankAt position, kickers)
          else if JS.charIs stringRep (position + 3) "1"
               then (trips, kickers ++ [rankAt position])
               else (trips, kickers))
       (0, [])).

Definition analyzeTwoPair (btCount : Z) : option (list Z) :=
  let stringRep := displayFloatAs64Bit btCount in
  option_map (fun '(pairs, kicker) => pairs ++ [kicker])
    (scan stringRep
       (fun '(pairs, kicker) =>
          (Datatypes.length pairs <? 2)%nat && (kicker =? 0))
       (fun position '(pairs, kicker) =>
          if JS.charIs stringRep (position + 2) "1"
          then (pairs ++ [rankAt position], kicker)
          else if JS.charIs stringRep (position + 3) "1"
               then (pairs, rankAt position)
               else (pairs, kicker))
       ([], 0)).

Definition analyzePair (btCount : Z) : option (list Z) :=
  let stringRep := displayFloatAs64Bit btCount in
  option_map (fun '(pair_, kickers) => pair_ :: kickers)
    (scan stringRep
       (fun '(pair_, kickers) =>
          (pair_ =? 0) || (Datatypes.length kickers <? 3)%nat)
       (fun position '(pair_, kickers) =>
          if JS.charIs stringRep (position + 2) "1"
          then (rankAt position, kickers)
          else if JS.charIs stringRep (position + 3) "1"
               then (pair_, kickers ++ [rankAt position])
               else (pair_, kickers))
       (0, [])).

(** The table [analyzers] of [analysisToInt]; a category without an entry
    gives [undefined], and calling it is a [TypeError]. *)
Definition analyzers (handRank : HandRank.t)
  : option (Z -> option (list Z)) :=
  match handRank with
  | HandRank.quads => Some analyzeQuads
  | HandRank.fullHouse => Some analyzeBoat
  | HandRank.trips => Some analyzeTrips
  | HandRank.twoPair => Some analyzeTwoPair
  | HandRank.pair => Some analyzePair
  | _ => None
  end.

(** The folding loop: [count += analysis[factor] * 16 * (l - factor)]. *)
Fixpoint foldAnalysis (l factor : Z) (analysis : list Z) (count : Z) : Z :=
  match analysis with
  | [] => count
  | a :: rest =>
      foldAnalysis l (factor + 1) rest (count + a * 16 * (l - factor))
  end.

Definition analysisToInt (handRank : HandRank.t) (bitCount : Z) : option Z :=
  match analyzers handRank with
  | Some analyze =>
      match analyze bitCount with
      | Some analysis =>
          let l := Z.of_nat (Datatypes.length analysis) in
          Some (foldAnalysis l 0 analysis 0)
      | None => None
      end
  | None => None
  end.

(** The comparator on parsed hands, and [compareHands] on notations. *)
Definition compareAnalyses (a b : HandAnalysis) : option Z :=
  if negb (HandRank.eqb (handRank a) (handRank b)) then
    Some (HandRank.value (handRank a) - HandRank.value (handRank b))
  else if HandRank.eqb (handRank a) HandRank.royalFlush then Some 0
  else if HandRank.eqb (handRank a) HandRank.flush
          || HandRank.eqb (handRank a) HandRank.highCard then
    Some (btRanks a - btRanks b)
  else if HandRank.eqb (handRank a) HandRank.straightFlush
          || HandRank.eqb (handRank a) HandRank.straight then
    if (btRanks a =? WHEEL_HASH) && (btRanks b =? WHEEL_HASH) then Some 0
    else if btRanks a =? WHEEL_HASH then Some (-1)
    else if btRanks b =? WHEEL_HASH then Some 1
    else Some (btRanks a - btRanks b)
  else
    match analysisToInt (handRank a) (btCount a),
          analysisToInt (handRank b) (btCount b) with
    | Some hexA, Some hexB => Some (hexA - hexB)
    | _, _ => None
    end.

Definition compareHands (handA handB : string) : option Z :=
  match parseHandFromString handA, parseHandFromString handB with
  | Some (aRanks, aSuits), Some (bRanks, bSuits) =>
      match rankPokerHand aRanks aSuits, rankPokerHand bRanks bSuits with
      | Some a, Some b => compareAnalyses a b
      | _, _ => None
      end
  | _, _ => None
  end.


(** The reading of the result of [compareHands] that its source gives:
    "Returns positive number if hand A is stronger, negative number if hand
    B is stronger.  Returns 0 on a tie." *)
Inductive Verdict : Type := AStronger | Tie | BStronger.

Definition verdict (result : Z) : Verdict :=
  if 0 <? result then AStronger
  else if result <? 0 then BStronger
  else Tie.

(** How many entries of a rank array are [r]. *)
Definition count (r : Z) (ranks : list Z) : Z :=
  Z.of_nat (count_occ Z.eq_dec ranks r).

(** A number in base 16 from its digits: digit [i] is [d i], for [i < n]. *)
Fixpoint packed (d : nat -> Z) (n : nat) : Z :=
  match n with
  | O => 0
  | S k => packed d k + d k * 16 ^ Z.of_nat k
  end.

(** The sum of the digits of [packed d n]. *)
Fixpoint digitSum (d : nat -> Z) (n : nat) : Z :=
  match n with
  | O => 0
  | S k => digitSum d k + d k
  end.

(** What the accumulator holds in the nibble of a rank met [c] times. *)
Definition nibbleOf (c : Z) : Z := 2 ^ c - 1.

(** The digits of the accumulator of a rank array. *)
Definition nibbles (ranks : list Z) (i : nat) : Z :=
  nibbleOf (count (Z.of_nat i) ranks).

(** The nibble of a rank in an accumulator. *)
Definition nibbleAt (value rank : Z) : Z := (value / 16 ^ rank) mod 16.

(** Rank arrays as the callers give them: ranks from 2 to the ace, no rank
    more often than the four suits allow. *)
Definition rankArray (ranks : list Z) : Prop :=
  Forall (fun r => 2 <= r <= 14) ranks /\ forall r, count r ranks <= 4.

(** The sum of [f r] over the thirteen ranks. *)
Definition sumOverRanks (f : Z -> Z) : Z :=
  fold_right (fun r acc => f r + acc) 0 Rs.

(** ** The reference: hands and the order of poker

    Written from the rules of the game as the specification words them
    (categories, kickers, the wheel), independently of the bit encodings:
    this is what the evaluator is compared with. *)

Module Poker.

Definition card : Type := (Z * Z)%type.
Definition hand : Type := list card.

Definition ranksOf (h : hand) : list Z := map fst h.
Definition suitsOf (h : hand) : list Z := map snd h.

Definition suitCodes : list Z := [1; 2; 4; 8].

Definition valid_card (c : card) : Prop :=
  In (fst c) Rs /\ In (snd c) suitCodes.

(** Five cards of a 52-card deck, no card twice. *)
Definition valid_hand (h : hand) : Prop :=
  Datatypes.length h = 5%nat /\ Forall valid_card h /\ NoDup h.

(** The notation of a hand: rank and suit character per card, a blank
    between cards. *)
Definition rankChar (r : Z) : ascii :=
  match r with
  | 14 => "A" | 13 => "K" | 12 => "Q" | 11 => "J" | 10 => "T"
  | 9 => "9" | 8 => "8" | 7 => "7" | 6 => "6" | 5 => "5"
  | 4 => "4" | 3 => "3" | _ => "2"
  end%char.

Definition suitChar (s : Z) : ascii :=
  match s with 1 => "s" | 2 => "c" | 4 => "h" | _ => "d" end%char.

Fixpoint notationChars (h : hand) : list ascii :=
  match h with
  | [] => []
  | [c] => [rankChar (fst c); suitChar (snd c)]
  | c :: rest =>
      rankChar (fst c) :: suitChar (snd c) :: " "%char :: notationChars rest
  end.

Definition notation (h : hand) : string :=
  string_of_list_ascii (notationChars h).

(** The ranks held exactly [k] times, highest first. *)
Definition ranksHeld (k : Z) (ranks : list Z) : list Z :=
  filter (fun r => count r ranks =? k) Rs.

Definition numHeld (k : Z) (ranks : list Z) : Z :=
  Z.of_nat (Datatypes.length (ranksHeld k ranks)).

(** The shapes of the multiplicities. *)
Definition noDuplicates (ranks : list Z) : Prop := NoDup ranks.
Definition onePair (ranks : list Z) : Prop :=
  numHeld 2 ranks = 1 /\ numHeld 3 ranks = 0 /\ numHeld 4 ranks = 0.
Definition twoPairs (ranks : list Z) : Prop := numHeld 2 ranks = 2.
Definition threeOfAKind (ranks : list Z) : Prop :=
  numHeld 3 ranks = 1 /\ numHeld 2 ranks = 0.
Definition fullHouse (ranks : list Z) : Prop :=
  numHeld 3 ranks = 1 /\ numHeld 2 ranks = 1.
Definition fourOfAKind (ranks : list Z) : Prop := numHeld 4 ranks = 1.

(** All suits equal. *)
Definition isFlush (suits : list Z) : bool :=
  match suits with
  | [] => false
  | s :: rest => forallb (Z.eqb s) rest
  end.

Definition wheelRanks : list Z := [14; 5; 4; 3; 2].
Definition broadwayRanks : list Z := [14; 13; 12; 11; 10].

Fixpoint sameRanks (a b : list Z) : bool :=
  match a, b with
  | [], [] => true
  | x :: a', y :: b' => (x =? y) && sameRanks a' b'
  | _, _ => false
  end.

(** Five consecutive ranks, or the wheel with its ace low; the ranks are
    given once each, highest first. *)
Definition straightRanks (held : list Z) : bool :=
  match held with
  | [a; b; c; d; e] =>
      ((b =? a - 1) && (c =? a - 2) && (d =? a - 3) && (e =? a - 4))
      || sameRanks held wheelRanks
  | _ => false
  end.

Definition isStraight (ranks : list Z) : bool :=
  straightRanks (ranksHeld 1 ranks).

Definition isWheel (ranks : list Z) : bool :=
  sameRanks (ranksHeld 1 ranks) wheelRanks.

Definition isBroadway (ranks : list Z) : bool :=
  sameRanks (ranksHeld 1 ranks) broadwayRanks.

(** The category of a hand. *)
Definition category (h : hand) : HandRank.t :=
  let ranks := ranksOf h in
  match ranksHeld 4 ranks, ranksHeld 3 ranks, ranksHeld 2 ranks with
  | _ :: _, _, _ => HandRank.quads
  | [], _ :: _, _ :: _ => HandRank.fullHouse
  | [], _ :: _, [] => HandRank.trips
  | [], [], _ :: _ :: _ => HandRank.twoPair
  | [], [], [_] => HandRank.pair
  | [], [], [] =>
      if isFlush (suitsOf h) && isBroadway ranks then HandRank.royalFlush
      else if isFlush (suitsOf h) && isStraight ranks
           then HandRank.straightFlush
      else if isFlush (suitsOf h) then HandRank.flush
      else if isStraight ranks then HandRank.straight
      else HandRank.highCard
  end.

(** The ranks that break a tie inside a category, most significant first:
    quads, trips and pairs before kickers, each group highest first; the
    ace of a wheel counts as one. *)
Definition tiebreak (h : hand) : list Z :=
  let ranks := ranksOf h in
  ranksHeld 4 ranks ++ ranksHeld 3 ranks ++ ranksHeld 2 ranks
  ++ (if isWheel ranks then [5; 4; 3; 2; 1] else ranksHeld 1 ranks).

Fixpoint lexCompare (a b : list Z) : comparison :=
  match a, b with
  | [], [] => Eq
  | [], _ :: _ => Lt
  | _ :: _, [] => Gt
  | x :: a', y :: b' =>
      match x ?= y with
      | Eq => lexCompare a' b'
      | c => c
      end
  end.

(** [Gt]: the first hand is the stronger; [Lt]: the second; [Eq]: a tie. *)
Definition compare (a b : hand) : comparison :=
  match HandRank.value (category a) ?= HandRank.value (category b) with
  | Eq => lexCompare (tiebreak a) (tiebreak b)
  | c => c
  end.

End Poker.

(** ** Auxiliary definitions of the proofs *)

(** The rank signature without the 32-bit wrapping, over a whole list. *)
Definition lorAll (ranks : list Z) : Z :=
  fold_left (fun bitValue r => Z.lor bitValue (2 ^ r)) ranks 0.

(** The sum of the bits of the ranks of a list. *)
Definition sumPow (ranks : list Z) : Z :=
  fold_right (fun r acc => 2 ^ r + acc) 0 ranks.

(** The tests of [rankPokerHand] on a signature and on a suit array. *)
Definition straightTest (btRanks : Z) : bool :=
  JS.div_eqb btRanks (JS.band btRanks (- btRanks)) 31
  || (btRanks =? WHEEL_HASH).

Definition flushTest (suits : list Z) : bool :=
  JS.strict_eqb (JS.index suits 0)
    (JS.bor (JS.bor (JS.bor (JS.operand (JS.index suits 1))
                            (JS.operand (JS.index suits 2)))
                    (JS.operand (JS.index suits 3)))
            (JS.operand (JS.index suits 4))).

(** [rankPokerHand] from the three values it computes of its arguments:
    the rank signature, the duplicate signature and the flush test. *)
Definition classify (btRanks btCount : Z) (isFlush : bool)
  : option HandAnalysis :=
  if negb (btCount =? 5) then lookup (KNum btCount) btRanks btCount
  else if isFlush && (btRanks =? BROADWAY_HASH) then lookup KRF btRanks btCount
  else if straightTest btRanks && isFlush then lookup KSF btRanks btCount
  else if isFlush then lookup KF btRanks btCount
  else if straightTest btRanks then lookup KS btRanks btCount
  else lookup KHC btRanks btCount.

(** A decision procedure for [Poker.valid_hand]. *)
Definition cardEqb (c c' : Poker.card) : bool :=
  (fst c =? fst c') && (snd c =? snd c').

Fixpoint noRepeat (h : Poker.hand) : bool :=
  match h with
  | [] => true
  | c :: rest => negb (existsb (cardEqb c) rest) && noRepeat rest
  end.

Definition validHand (h : Poker.hand) : bool :=
  (Datatypes.length h =? 5)%nat
  && forallb (fun c => existsb (Z.eqb (fst c)) Rs
                       && existsb (Z.eqb (snd c)) Poker.suitCodes) h
  && noRepeat h.

(** Hands of the test suite of the evaluator. *)
Definition wheelHand : Poker.hand :=
  [(2, 1); (14, 1); (4, 1); (3, 1); (5, 8)].
Definition sixHighHand : Poker.hand :=
  [(4, 1); (5, 2); (7, 8); (6, 1); (3, 1)].
Definition quadsHand : Poker.hand :=
  [(11, 4); (11, 2); (11, 8); (11, 1); (2, 4)].
Definition boatHand : Poker.hand :=
  [(8, 4); (8, 2); (8, 8); (9, 1); (9, 4)].
Definition twoPairHand : Poker.hand :=
  [(8, 1); (8, 8); (11, 2); (9, 1); (9, 8)].

(** Strictly decreasing lists. *)
Fixpoint descending (l : list Z) : Prop :=
  match l with
  | [] => True
  | a :: r => (forall b, In b r -> 0 <= b < a) /\ descending r
  end.

(** All the lists obtained by dropping entries of a list. *)
Fixpoint sublists {A : Type} (l : list A) : list (list A) :=
  match l with
  | [] => [[]]
  | x :: r => map (cons x) (sublists r) ++ sublists r
  end.

(** The straight test in the integers: the signature divided by its lowest
    set bit is 31, or it is the wheel. *)
Definition fiveInARow (sig : Z) : bool :=
  (sig / Z.land sig (- sig) =? 31) || (sig =? 0x403C).

(** The signature tests against the reference, on one set of ranks. *)
Definition signatureAgrees (held : list Z) : bool :=
  let sig := lorAll held in
  Bool.eqb (straightTest sig) (Poker.straightRanks held)
  && Bool.eqb (straightTest sig) (fiveInARow sig)
  && Bool.eqb (sig =? WHEEL_HASH) (Poker.sameRanks held Poker.wheelRanks)
  && Bool.eqb (sig =? BROADWAY_HASH)
       (Poker.sameRanks held Poker.broadwayRanks)
  && (negb (Poker.straightRanks held)
      || Poker.sameRanks held Poker.wheelRanks
      || match held with r :: _ => 6 <=? r | [] => false end).

(** The flush test against the reference, on all arrays of five suits. *)
Definition flushAgrees : bool :=
  forallb (fun a => forallb (fun b => forallb (fun c => forallb (fun d =>
  forallb (fun e =>
    Bool.eqb (flushTest [a; b; c; d; e]) (Poker.isFlush [a; b; c; d; e]))
  Poker.suitCodes) Poker.suitCodes) Poker.suitCodes) Poker.suitCodes)
  Poker.suitCodes.

(** ** Definitions for the further properties *)

(** Two more hands: aces and kings, and seven cards. *)
Definition acesUpHand : Poker.hand :=
  [(14, 1); (14, 2); (13, 1); (13, 2); (2, 1)].
Definition sevenRanks : list Z := [14; 14; 13; 9; 9; 9; 2].

(** The accumulator from the ranks held once, twice, three and four
    times. *)
Definition sum16 (held : list Z) : Z :=
  fold_right (fun r acc => 16 ^ r + acc) 0 held.

Definition accumulatorOf (once twice thrice fourfold : list Z) : Z :=
  sum16 once + 3 * sum16 twice + 7 * sum16 thrice + 15 * sum16 fourfold.

(** What the analyzers report for a rank: one less. *)
Definition oneLess (held : list Z) : list Z := map (fun r => r - 1) held.

Definition agrees (result : option (list Z)) (expected : list Z) : bool :=
  match result with
  | Some l => Poker.sameRanks l expected
  | None => false
  end.

Definition heldApart (r : Z) (held : list Z) : bool :=
  negb (existsb (Z.eqb r) held).

(** The sets of [n] ranks, highest rank first. *)
Definition heldSets (n : nat) : list (list Z) :=
  filter (fun K => (Datatypes.length K =? n)%nat) (sublists Rs).

(** The analyzers on one accumulator of their category, against the ranks
    it was built from. *)
Definition quadsAgrees (q k : Z) : bool :=
  (q =? k)
  || agrees (analyzeQuads (accumulatorOf [k] [] [] [q])) (oneLess [q; k]).

Definition boatAgrees (t p : Z) : bool :=
  (t =? p)
  || agrees (analyzeBoat (accumulatorOf [] [p] [t] [])) (oneLess [t; p]).

Definition tripsAgrees (t : Z) (K : list Z) : bool :=
  negb (heldApart t K)
  || agrees (analyzeTrips (accumulatorOf K [] [t] [])) (oneLess (t :: K)).

Definition pairAgrees (p : Z) (K : list Z) : bool :=
  negb (heldApart p K)
  || agrees (analyzePair (accumulatorOf K [p] [] [])) (oneLess (p :: K)).

(** What [analyzeTwoPair] returns for the pairs [p1 > p2] and the kicker
    [k]: it stops at the kicker or at the second pair. *)
Definition twoPairAnswer (p1 p2 k : Z) : list Z :=
  if p1 <? k then [k - 1]
  else if p2 <? k then [p1 - 1; k - 1]
  else [p1 - 1; p2 - 1; 0].

Definition twoPairAgrees (k : Z) (P : list Z) : bool :=
  match P with
  | [p1; p2] =>
      negb (heldApart k P)
      || agrees (analyzeTwoPair (accumulatorOf [k] P [] []))
           (twoPairAnswer p1 p2 k)
  | _ => true
  end.

(** The sorted array written from the numbers of occurrences. *)
Definition sortedRuns (n : Z -> nat) (V : list Z) : list Z :=
  flat_map (fun r => repeat r (n r)) V.

(** What the loop leaves after a run of [c] entries [r]. *)
Definition pushRun (w : option PairUps.t) (r : Z) (c : nat)
  : option PairUps.t :=
  match w with
  | Some w => pushQueue (Queue.mk (Some r) c) w
  | None => None
  end.

(** The runs of the values [V], [n r] entries [r] each, pushed in turn. *)
Fixpoint pushRuns (n : Z -> nat) (w : option PairUps.t) (V : list Z)
  : option PairUps.t :=
  match V with
  | [] => w
  | r :: V' =>
      pushRuns n (match n r with O => w | S _ => pushRun w r (n r) end) V'
  end.

(** The push after the loop. *)
Definition finish (state : option (Queue.t * PairUps.t))
  : option PairUps.t :=
  match state with
  | Some (queue, workspace) => pushQueue queue workspace
  | None => None
  end.

(** The values of [V] that occur [k] times in [ranks], as array entries. *)
Definition heldTimes (ranks : list Z) (k : nat) (V : list Z)
  : list (option Z) :=
  map Some (filter (fun r => (count_occ Z.eq_dec ranks r =? k)%nat) V).

(** The binary digits of [x], [N] of them, the highest first. *)
Definition bitChar (b : bool) : ascii := if b then "1"%char else "0"%char.

Fixpoint binary (N : nat) (x : Z) : list ascii :=
  match N with
  | O => []
  | S k => (binary k (x / 2) ++ [bitChar (Z.odd x)])%list
  end.

(** Groups of four characters, each followed by a blank. *)
Fixpoint spaced (n : nat) (s : list ascii) : list ascii :=
  match n, s with
  | S k, a :: b :: c :: d :: rest =>
      a :: b :: c :: d :: " "%char :: spaced k rest
  | _, _ => []
  end.

(** * Properties *)

(** ** JavaScript operators on the integers met by the evaluator *)

Section JSFacts.

Lemma ToInt32_small (x : Z) : - 2 ^ 31 <= x < 2 ^ 31 -> JS.ToInt32 x = x.
Proof.
  intros H. unfold JS.ToInt32.
  change (2 ^ 31) with 2147483648 in *. change (2 ^ 32) with 4294967296.
  destruct (Z.leb_spec 2147483648 (x mod 4294967296));
    Z.div_mod_to_equations; lia.
Qed.

Lemma ToInt32_mod16 (x : Z) : JS.ToInt32 x mod 16 = x mod 16.
Proof.
  unfold JS.ToInt32.
  change (2 ^ 31) with 2147483648. change (2 ^ 32) with 4294967296.
  destruct (Z.leb_spec 2147483648 (x mod 4294967296));
    Z.div_mod_to_equations; lia.
Qed.

(** [x & 15] keeps the lowest base-16 digit, whatever the size of [x]. *)
Lemma band_15 (x : Z) : JS.band x 15 = x mod 16.
Proof.
  unfold JS.band. rewrite (ToInt32_small 15) by (cbv; split; congruence).
  change 15 with (Z.ones 4). rewrite Z.land_ones by lia.
  apply ToInt32_mod16.
Qed.

Lemma quot_nonneg (a b : Z) : 0 <= a -> 0 < b -> JS.quot a b = a / b.
Proof. intros. unfold JS.quot. apply Z.quot_div_nonneg; lia. Qed.

Lemma pow2_times4 (r : Z) : 0 <= r -> JS.pow2 (r * 4) = 16 ^ r.
Proof.
  intros H. unfold JS.pow2. rewrite Z.mul_comm, Z.pow_mul_r by lia.
  reflexivity.
Qed.

End JSFacts.

(** ** Base-16 digits *)

Section Packed.

Variable d : nat -> Z.
Hypothesis digit : forall i, 0 <= d i <= 15.

Lemma packed_bound (n : nat) : 0 <= packed d n < 16 ^ Z.of_nat n.
Proof.
  induction n as [|n IH].
  - simpl. lia.
  - cbn [packed]. rewrite Nat2Z.inj_succ, Z.pow_succ_r by lia.
    specialize (digit n). nia.
Qed.

Lemma packed_digit (n k : nat) :
  (k < n)%nat -> (packed d n / 16 ^ Z.of_nat k) mod 16 = d k.
Proof.
  induction n as [|n IH]; intros Hk; [lia|].
  cbn [packed].
  assert (Hpos : 0 < 16 ^ Z.of_nat k) by (apply Z.pow_pos_nonneg; lia).
  destruct (Nat.eq_dec k n) as [->|Hne].
  - rewrite Z.div_add by lia.
    rewrite (Z.div_small (packed d n)) by apply packed_bound.
    apply Z.mod_small. specialize (digit n). lia.
  - assert (E : 16 ^ Z.of_nat n = 16 * 16 ^ (Z.of_nat n - Z.of_nat k - 1)
                                   * 16 ^ Z.of_nat k).
    { rewrite <- Z.pow_succ_r, <- Z.pow_add_r by lia. f_equal. lia. }
    rewrite E, !Z.mul_assoc, Z.div_add by lia.
    rewrite <- Z.mul_assoc, (Z.mul_comm (d n)), <- Z.mul_assoc, Z.mul_comm.
    rewrite Z.mod_add by lia. apply IH. lia.
Qed.

End Packed.

Lemma packed_ext (d d' : nat -> Z) (n : nat) :
  (forall i, (i < n)%nat -> d i = d' i) -> packed d n = packed d' n.
Proof.
  induction n as [|n IH]; intros H; [reflexivity|].
  cbn [packed]. rewrite IH, (H n) by auto with arith. reflexivity.
Qed.

(** Raising one digit by [x] adds [x * 16^k]. *)
Lemma packed_bump (d d' : nat -> Z) (n k : nat) (x : Z) :
  (k < n)%nat -> d' k = d k + x -> (forall i, i <> k -> d' i = d i) ->
  packed d' n = packed d n + x * 16 ^ Z.of_nat k.
Proof.
  intros Hk Hat Hoff. induction n as [|n IH]; [lia|].
  cbn [packed]. destruct (Nat.eq_dec k n) as [->|Hne].
  - rewrite (packed_ext d' d n), Hat by (intros; apply Hoff; lia). ring.
  - rewrite IH, (Hoff n) by lia. ring.
Qed.

Lemma pow16_mod15 (k : nat) : 16 ^ Z.of_nat k mod 15 = 1.
Proof.
  induction k as [|k IH]; [reflexivity|].
  rewrite Nat2Z.inj_succ, Z.pow_succ_r, Z.mul_mod, IH by lia. reflexivity.
Qed.

(** Since 16 is 1 modulo 15, a number and its digit sum agree modulo 15. *)
Lemma packed_mod15 (d : nat -> Z) (n : nat) :
  packed d n mod 15 = digitSum d n mod 15.
Proof.
  induction n as [|n IH]; [reflexivity|].
  cbn [packed digitSum].
  rewrite Z.add_mod, IH, Z.mul_mod, pow16_mod15, Z.mul_1_r by lia.
  rewrite Z.mod_mod, <- Z.add_mod by lia. reflexivity.
Qed.

(** The loop body of [countDuplicatesBitwise] reads the digit of its rank
    and adds one more than it at that place. *)
Lemma addRank_packed (d : nat -> Z) (n k : nat) :
  (forall i, 0 <= d i <= 15) -> (k < n)%nat ->
  addRank (packed d n) (16 ^ Z.of_nat k)
  = packed d n + (d k + 1) * 16 ^ Z.of_nat k.
Proof.
  intros Hd Hk. unfold addRank.
  assert (0 < 16 ^ Z.of_nat k) by (apply Z.pow_pos_nonneg; lia).
  rewrite quot_nonneg, band_15, packed_digit by
    (auto; apply packed_bound; auto).
  ring.
Qed.

(** ** The multiplicity accumulator *)

Lemma count_nonneg (r : Z) (l : list Z) : 0 <= count r l.
Proof. unfold count. lia. Qed.

Lemma count_app (r : Z) (l l' : list Z) :
  count r (l ++ l') = count r l + count r l'.
Proof. unfold count. rewrite count_occ_app. lia. Qed.

Lemma count_cons (r a : Z) (l : list Z) :
  count r (a :: l) = (if Z.eq_dec a r then 1 else 0) + count r l.
Proof. unfold count. simpl. destruct (Z.eq_dec a r); lia. Qed.

Lemma nibbleOf_range (c : Z) : 0 <= c <= 4 -> 0 <= nibbleOf c <= 15.
Proof.
  intros H. unfold nibbleOf.
  assert (C : c = 0 \/ c = 1 \/ c = 2 \/ c = 3 \/ c = 4) by lia.
  destruct C as [->|[->|[->|[->| ->]]]]; cbn; lia.
Qed.

Lemma nibbleOf_succ (c : Z) :
  0 <= c -> nibbleOf (c + 1) = nibbleOf c + (nibbleOf c + 1).
Proof. intros H. unfold nibbleOf. rewrite Z.pow_add_r by lia. lia. Qed.

Section Accumulator.

(** The number of nibbles; 15 for the ranks up to the ace. *)
Variable n : nat.

(** The accumulator of the entries read so far, one more entry read. *)
Lemma addRank_nibbles (pre : list Z) (a : Z) :
  (forall r, count r (pre ++ [a]) <= 4) -> 0 <= a < Z.of_nat n ->
  addRank (packed (nibbles pre) n) (JS.pow2 (a * 4))
  = packed (nibbles (pre ++ [a])) n.
Proof.
  intros Hc Ha.
  assert (Hpre : forall r, 0 <= count r pre <= 4).
  { intros r. split; [apply count_nonneg|].
    specialize (Hc r). rewrite count_app in Hc.
    pose proof (count_nonneg r [a]). lia. }
  assert (Ha3 : count a pre <= 3).
  { specialize (Hc a). rewrite count_app, count_cons in Hc.
    destruct (Z.eq_dec a a); [|congruence].
    pose proof (count_nonneg a []). lia. }
  rewrite pow2_times4 by lia.
  replace a with (Z.of_nat (Z.to_nat a)) at 1 by lia.
  rewrite addRank_packed;
    [|intros i; apply nibbleOf_range, Hpre|lia].
  symmetry. apply packed_bump; [lia| |].
  - unfold nibbles. rewrite Z2Nat.id, count_app, count_cons by lia.
    destruct (Z.eq_dec a a); [|congruence].
    change (count a []) with 0. rewrite Z.add_0_r.
    apply nibbleOf_succ, count_nonneg.
  - intros i Hi. unfold nibbles. rewrite count_app, count_cons.
    destruct (Z.eq_dec a (Z.of_nat i)); [lia|].
    change (count (Z.of_nat i) []) with 0. f_equal. lia.
Qed.

Lemma fold_addRank_nibbles (l pre : list Z) :
  Forall (fun r => 0 <= r < Z.of_nat n) l ->
  (forall r, count r (pre ++ l) <= 4) ->
  fold_left (fun value r => addRank value (JS.pow2 (r * 4))) l
    (packed (nibbles pre) n)
  = packed (nibbles (pre ++ l)) n.
Proof.
  revert pre. induction l as [|a l IH]; intros pre Hr Hc.
  - rewrite app_nil_r. reflexivity.
  - inversion Hr as [|? ? Ha Hl]; subst. cbn [fold_left].
    assert (E : pre ++ a :: l = (pre ++ [a]) ++ l)
      by (rewrite <- app_assoc; reflexivity).
    rewrite addRank_nibbles.
    + rewrite E. apply IH; [assumption|]. rewrite <- E. assumption.
    + intros r. specialize (Hc r). rewrite E, count_app in Hc.
      pose proof (count_nonneg r l). lia.
    + assumption.
Qed.

Lemma packed_nibbles_nil : packed (nibbles []) n = 0.
Proof.
  induction n as [|k IH]; [reflexivity|].
  cbn [packed]. rewrite IH. unfold nibbles, count. simpl. lia.
Qed.

(** The accumulator is the base-16 number whose digit at a rank is
    [2^count - 1]. *)
Lemma countDuplicatesBitwise_packed (ranks : list Z) :
  Forall (fun r => 0 <= r < Z.of_nat n) ranks ->
  (forall r, count r ranks <= 4) ->
  countDuplicatesBitwise ranks = packed (nibbles ranks) n.
Proof.
  intros Hr Hc. unfold countDuplicatesBitwise.
  replace (addRank 0 0) with (packed (nibbles []) n)
    by (rewrite packed_nibbles_nil; reflexivity).
  apply (fold_addRank_nibbles ranks []); auto.
Qed.

End Accumulator.

Lemma count_absent (r : Z) (l : list Z) : ~ In r l -> count r l = 0.
Proof.
  intros H. unfold count.
  rewrite (proj1 (count_occ_not_In Z.eq_dec l r) H). reflexivity.
Qed.

Lemma rankArray_packed (ranks : list Z) :
  rankArray ranks -> countDuplicatesBitwise ranks = packed (nibbles ranks) 15.
Proof.
  intros [Hr Hc]. apply countDuplicatesBitwise_packed; [|assumption].
  eapply Forall_impl; [|exact Hr]. simpl. intros; lia.
Qed.

Lemma rankArray_digit (ranks : list Z) (i : nat) :
  rankArray ranks -> 0 <= nibbles ranks i <= 15.
Proof.
  intros [_ Hc]. apply nibbleOf_range. split; [apply count_nonneg|apply Hc].
Qed.

Lemma rankArray_low (ranks : list Z) (r : Z) :
  rankArray ranks -> r < 2 -> count r ranks = 0.
Proof.
  intros [Hr _] Hlt. apply count_absent. intros Hin.
  rewrite Forall_forall in Hr. specialize (Hr r Hin). lia.
Qed.

Lemma packed_15_sum (ranks : list Z) :
  rankArray ranks ->
  packed (nibbles ranks) 15
  = sumOverRanks (fun r => (2 ^ count r ranks - 1) * 16 ^ r).
Proof.
  intros H. unfold sumOverRanks, Rs. cbn [fold_right packed].
  assert (E0 : nibbles ranks 0 = 0)
    by (unfold nibbles; rewrite (rankArray_low ranks); auto; lia).
  assert (E1 : nibbles ranks 1 = 0)
    by (unfold nibbles; rewrite (rankArray_low ranks); auto; lia).
  rewrite E0, E1. unfold nibbles, nibbleOf. simpl Z.of_nat. ring.
Qed.

Lemma nibbleAt_accumulator (ranks : list Z) (r : Z) :
  rankArray ranks -> 0 <= r <= 14 ->
  nibbleAt (countDuplicatesBitwise ranks) r = 2 ^ count r ranks - 1.
Proof.
  intros H Hr. unfold nibbleAt. rewrite rankArray_packed by assumption.
  replace r with (Z.of_nat (Z.to_nat r)) at 1 by lia.
  rewrite packed_digit; [|intros; apply rankArray_digit; assumption|lia].
  unfold nibbles, nibbleOf. rewrite Z2Nat.id by lia. reflexivity.
Qed.

Lemma accumulator_bound (ranks : list Z) :
  rankArray ranks -> 0 <= countDuplicatesBitwise ranks < 2 ^ 60.
Proof.
  intros H. rewrite rankArray_packed by assumption.
  change (2 ^ 60) with (16 ^ Z.of_nat 15).
  apply packed_bound. intros; apply rankArray_digit; assumption.
Qed.

(** C10: on a five-entry rank array with ranks from 2 to 14 and no rank more
    than four times, [countDuplicatesBitwise] returns the sum over the ranks
    [r] of [(2^count(r) - 1) * 16^r]; the nibble of a rank held once, twice,
    three or four times is 1, 3, 7 or 15; and the value is below [2^60] and
    a multiple of [2^8], hence at most 52 significant bits, which a double
    holds exactly. *)
Theorem countDuplicatesBitwise_closed_form (ranks : list Z) :
  Datatypes.length ranks = 5%nat -> rankArray ranks ->
  let value := countDuplicatesBitwise ranks in
  value = sumOverRanks (fun r => (2 ^ count r ranks - 1) * 16 ^ r)
  /\ (forall r, In r ranks ->
        (count r ranks = 1 -> nibbleAt value r = 1)
        /\ (count r ranks = 2 -> nibbleAt value r = 3)
        /\ (count r ranks = 3 -> nibbleAt value r = 7)
        /\ (count r ranks = 4 -> nibbleAt value r = 15))
  /\ 0 <= value < 2 ^ 60
  /\ exists m, 0 <= m < 2 ^ 52 /\ value = m * 2 ^ 8.
Proof.
  intros _ H value. subst value. repeat split.
  - rewrite rankArray_packed by assumption. apply packed_15_sum, H.
  - intros E. rewrite nibbleAt_accumulator, E; auto.
    destruct H as [Hr _]. rewrite Forall_forall in Hr.
    specialize (Hr r H0). lia.
  - intros E. rewrite nibbleAt_accumulator, E; auto.
    destruct H as [Hr _]. rewrite Forall_forall in Hr.
    specialize (Hr r H0). lia.
  - intros E. rewrite nibbleAt_accumulator, E; auto.
    destruct H as [Hr _]. rewrite Forall_forall in Hr.
    specialize (Hr r H0). lia.
  - intros E. rewrite nibbleAt_accumulator, E; auto.
    destruct H as [Hr _]. rewrite Forall_forall in Hr.
    specialize (Hr r H0). lia.
  - apply accumulator_bound, H.
  - apply accumulator_bound, H.
  - pose proof (accumulator_bound ranks H) as B.
    assert (E : countDuplicatesBitwise ranks
                = sumOverRanks (fun r => (2 ^ count r ranks - 1) * 16 ^ r))
      by (rewrite rankArray_packed by assumption; apply packed_15_sum, H).
    unfold sumOverRanks, Rs in E. cbn [fold_right] in E.
    exists (countDuplicatesBitwise ranks / 2 ^ 8).
    change (2 ^ 60) with 1152921504606846976 in B.
    change (2 ^ 52) with 4503599627370496. change (2 ^ 8) with 256.
    assert (M : countDuplicatesBitwise ranks mod 256 = 0).
    { rewrite E.
      repeat match goal with
             | |- context [16 ^ ?k] =>
                 let v := eval cbv in (16 ^ k / 256) in
                 change (16 ^ k) with (v * 256)
             end.
      rewrite !Z.mul_assoc.
      repeat (rewrite Z.add_comm, Z.mod_add by lia).
      reflexivity. }
    clear E. Z.div_mod_to_equations. lia.
Qed.

(** C5, as stated, fails: in the accumulator of the two pair 8 8 J 9 9 the
    nibble of the eights holds 3 although the hand has two eights. *)
Lemma nibble_is_not_the_count :
  Datatypes.length [8; 8; 11; 9; 9] = 5%nat
  /\ count 8 [8; 8; 11; 9; 9] = 2
  /\ nibbleAt (countDuplicatesBitwise [8; 8; 11; 9; 9]) 8 = 3
  /\ nibbleAt (countDuplicatesBitwise [8; 8; 11; 9; 9]) 8
     <> count 8 [8; 8; 11; 9; 9].
Proof. vm_compute. repeat split; congruence. Qed.

(** C5, amended: on a five-entry rank array with ranks from 2 to 14 and no
    rank more than four times, the nibble at a rank position holds
    [2^count - 1] for the number [count] of cards of that rank: 0 when the
    rank is absent, and 1, 3, 7 or 15 when it appears once, twice, three
    or four times. *)
Theorem nibble_is_pow2_count_minus_1 (ranks : list Z) (rank : Z) :
  Datatypes.length ranks = 5%nat -> rankArray ranks -> 2 <= rank <= 14 ->
  let nibble := nibbleAt (countDuplicatesBitwise ranks) rank in
  nibble = 2 ^ count rank ranks - 1
  /\ (count rank ranks = 0 /\ nibble = 0
      \/ count rank ranks = 1 /\ nibble = 1
      \/ count rank ranks = 2 /\ nibble = 3
      \/ count rank ranks = 3 /\ nibble = 7
      \/ count rank ranks = 4 /\ nibble = 15).
Proof.
  intros _ H Hr nibble. subst nibble.
  rewrite nibbleAt_accumulator by (auto; lia).
  split; [reflexivity|].
  pose proof (count_nonneg rank ranks) as C0.
  destruct H as [_ C4]. specialize (C4 rank).
  assert (C : count rank ranks = 0 \/ count rank ranks = 1
              \/ count rank ranks = 2 \/ count rank ranks = 3
              \/ count rank ranks = 4) by lia.
  destruct C as [E|[E|[E|[E|E]]]]; rewrite E; cbn; intuition lia.
Qed.

Lemma rankArray_example : rankArray [8; 8; 11; 9; 9].
Proof.
  split.
  - repeat (apply Forall_cons; [lia|]). apply Forall_nil.
  - intros r. rewrite !count_cons. change (count r []) with 0.
    repeat match goal with |- context [Z.eq_dec ?a r] =>
             destruct (Z.eq_dec a r) end; lia.
Qed.

Lemma nibble_is_pow2_count_minus_1_witness :
  let nibble := nibbleAt (countDuplicatesBitwise [8; 8; 11; 9; 9]) 9 in
  nibble = 2 ^ count 9 [8; 8; 11; 9; 9] - 1
  /\ (count 9 [8; 8; 11; 9; 9] = 0 /\ nibble = 0
      \/ count 9 [8; 8; 11; 9; 9] = 1 /\ nibble = 1
      \/ count 9 [8; 8; 11; 9; 9] = 2 /\ nibble = 3
      \/ count 9 [8; 8; 11; 9; 9] = 3 /\ nibble = 7
      \/ count 9 [8; 8; 11; 9; 9] = 4 /\ nibble = 15).
Proof.
  apply (nibble_is_pow2_count_minus_1 [8; 8; 11; 9; 9] 9).
  - reflexivity.
  - exact rankArray_example.
  - lia.
Defined.

Lemma countDuplicatesBitwise_closed_form_witness :
  let value := countDuplicatesBitwise [8; 8; 11; 9; 9] in
  value = sumOverRanks (fun r => (2 ^ count r [8; 8; 11; 9; 9] - 1) * 16 ^ r)
  /\ (forall r, In r [8; 8; 11; 9; 9] ->
        (count r [8; 8; 11; 9; 9] = 1 -> nibbleAt value r = 1)
        /\ (count r [8; 8; 11; 9; 9] = 2 -> nibbleAt value r = 3)
        /\ (count r [8; 8; 11; 9; 9] = 3 -> nibbleAt value r = 7)
        /\ (count r [8; 8; 11; 9; 9] = 4 -> nibbleAt value r = 15))
  /\ 0 <= value < 2 ^ 60
  /\ exists m, 0 <= m < 2 ^ 52 /\ value = m * 2 ^ 8.
Proof.
  apply (countDuplicatesBitwise_closed_form [8; 8; 11; 9; 9]).
  - reflexivity.
  - exact rankArray_example.
Defined.

(** ** The analyzers and the fold *)

Section Scan.

Context {St : Type}.
Variables (stringRep : list ascii) (cond : St -> bool) (body : Z -> St -> St).

(** The position grows by five per iteration, so a budget that covers the
    rest of the display is enough. *)
Lemma while_scan_returns (l : Z) (fuel : nat) (s : St) (position : Z) :
  l <= position + Z.of_nat fuel ->
  exists r,
    JS.while fuel (scanCond l cond) (scanBody body) (s, position) = Some r.
Proof.
  revert s position. induction fuel as [|fuel IH]; intros s position H.
  - cbn. destruct (cond s); cbn; [|eauto].
    destruct (Z.ltb_spec position l); [lia|eauto].
  - cbn [JS.while scanCond]. destruct (cond s); cbn [andb]; [|eauto].
    destruct (Z.ltb_spec position l); [|eauto].
    apply IH. lia.
Qed.

Lemma scan_returns (init : St) :
  exists s, scan stringRep cond body init = Some s.
Proof.
  unfold scan. cbv zeta.
  destruct (while_scan_returns (Z.of_nat (Datatypes.length stringRep))
              (Datatypes.length stringRep) init 0) as [r E]; [lia|].
  rewrite E. cbn. eauto.
Qed.

End Scan.

(** Every analyzer returns, on every argument. *)
Lemma analyzers_return (handRank : HandRank.t) (analyze : Z -> option (list Z))
    (btCount : Z) :
  analyzers handRank = Some analyze ->
  exists analysis, analyze btCount = Some analysis.
Proof.
  intros H.
  destruct handRank; inversion H; subst;
    [ unfold analyzePair | unfold analyzeTwoPair | unfold analyzeTrips
    | unfold analyzeBoat | unfold analyzeQuads ];
    match goal with
    | |- context [scan ?s ?c ?b ?i] =>
        destruct (scan_returns s c b i) as [[x y] E]; rewrite E
    end; cbn; eauto.
Qed.

Lemma analyzers_return_witness :
  exists analysis, analyzeQuads 1 = Some analysis.
Proof.
  apply (analyzers_return HandRank.quads analyzeQuads 1). reflexivity.
Defined.

(** C4: the accumulator of the quads J J J J 2.  The analyzer answers
    [10; 1], each rank one below the card it stands for: the scan starts at
    position 5, the nibble of the ace, where [14 - position / 5] is 13. *)
Theorem analyzeQuads_jacks_and_deuce :
  rankArray [11; 11; 11; 11; 2]
  /\ analyzeQuads (countDuplicatesBitwise [11; 11; 11; 11; 2]) = Some [10; 1]
  /\ analyzeQuads (countDuplicatesBitwise [11; 11; 11; 11; 2])
     <> Some [11; 2].
Proof.
  split; [|split; [vm_compute; reflexivity|vm_compute; congruence]].
  split.
  - repeat (apply Forall_cons; [lia|]). apply Forall_nil.
  - intros r. rewrite !count_cons. change (count r []) with 0.
    repeat match goal with |- context [Z.eq_dec ?a r] =>
             destruct (Z.eq_dec a r) end; lia.
Qed.

(** C3: the accumulators of three two-pair hands, with the kicker above,
    between and below the pairs.  The loop of the analyzer runs while
    [pairs.length < 2 && kicker === 0], so it stops at whichever comes
    first, the kicker or the second pair; none of the three answers is
    the list [higher pair, lower pair, kicker]. *)
Theorem analyzeTwoPair_stops_early :
  analyzeTwoPair (countDuplicatesBitwise [8; 8; 11; 9; 9]) = Some [10]
  /\ analyzeTwoPair (countDuplicatesBitwise [8; 8; 10; 11; 11]) = Some [10; 9]
  /\ analyzeTwoPair (countDuplicatesBitwise [8; 8; 2; 9; 9]) = Some [8; 7; 0]
  /\ analyzeTwoPair (countDuplicatesBitwise [8; 8; 11; 9; 9])
     <> Some [9; 8; 11].
Proof. vm_compute. repeat split; congruence. Qed.

(** C2: the full houses 3 3 3 A A and 4 4 4 2 2.  The analyzer lists are
    [2; 13] and [3; 1], of equal length, the second the greater in the
    lexicographic order; the fold weighs the places 32 and 16 and gives
    272 to the first and 112 to the second. *)
Theorem analysisToInt_fold_against_lexicographic :
  let threes := countDuplicatesBitwise [3; 3; 3; 14; 14] in
  let fours := countDuplicatesBitwise [4; 4; 4; 2; 2] in
  analyzeBoat threes = Some [2; 13]
  /\ analyzeBoat fours = Some [3; 1]
  /\ Poker.lexCompare [3; 1] [2; 13] = Gt
  /\ analysisToInt HandRank.fullHouse threes = Some 272
  /\ analysisToInt HandRank.fullHouse fours = Some 112
  /\ ~ (272 < 112).
Proof. vm_compute. repeat split; congruence. Qed.

(** ** The rank signature *)

Lemma shl_one (r : Z) : 0 <= r <= 30 -> JS.shl 1 r = 2 ^ r.
Proof.
  intros H. unfold JS.shl.
  rewrite (ToInt32_small 1) by (cbv; split; congruence).
  rewrite Z.mod_small by lia. rewrite Z.shiftl_1_l.
  apply ToInt32_small. split.
  - pose proof (Z.pow_nonneg 2 r). lia.
  - apply Z.pow_lt_mono_r; lia.
Qed.

Lemma lor_bound (n x y : Z) :
  0 <= n -> 0 <= x < 2 ^ n -> 0 <= y < 2 ^ n -> 0 <= Z.lor x y < 2 ^ n.
Proof.
  intros Hn Hx Hy.
  assert (N : 0 <= Z.lor x y) by (apply Z.lor_nonneg; lia).
  split; [assumption|].
  destruct (Z.eq_dec x 0) as [->|Nx]; [rewrite Z.lor_0_l; lia|].
  destruct (Z.eq_dec y 0) as [->|Ny]; [rewrite Z.lor_0_r; lia|].
  assert (Lx : Z.log2 x < n) by (apply Z.log2_lt_pow2; lia).
  assert (Ly : Z.log2 y < n) by (apply Z.log2_lt_pow2; lia).
  assert (E : Z.lor x y <> 0) by (rewrite Z.lor_eq_0_iff; lia).
  apply Z.log2_lt_pow2; [lia|].
  rewrite Z.log2_lor by lia. lia.
Qed.

Lemma bor_bit (x r : Z) :
  0 <= x < 2 ^ 31 -> 0 <= r <= 30 ->
  JS.bor x (2 ^ r) = Z.lor x (2 ^ r) /\ 0 <= Z.lor x (2 ^ r) < 2 ^ 31.
Proof.
  intros Hx Hr.
  assert (B : 0 <= 2 ^ r < 2 ^ 31).
  { split; [apply Z.pow_nonneg; lia|apply Z.pow_lt_mono_r; lia]. }
  split; [|apply lor_bound; lia].
  unfold JS.bor. rewrite !ToInt32_small; lia.
Qed.

(** On five ranks the signature is the plain disjunction of their bits. *)
Lemma countRanksBitwise_lorAll (ranks : list Z) :
  Datatypes.length ranks = 5%nat -> Forall (fun r => 0 <= r <= 30) ranks ->
  countRanksBitwise ranks = lorAll ranks.
Proof.
  intros L H.
  destruct ranks as [|a [|b [|c [|d [|e [|]]]]]]; try discriminate L.
  repeat match goal with
         | H : Forall _ (_ :: _) |- _ => inversion H; clear H; subst
         end.
  unfold countRanksBitwise, lorAll.
  cbn [fold_left JS.index nth_error JS.operand].
  rewrite !shl_one by assumption.
  assert (Z0 : 0 <= 0 < 2 ^ 31) by (cbv; split; congruence).
  destruct (bor_bit 0 a Z0) as [-> Ba]; [assumption|].
  destruct (bor_bit _ b Ba) as [-> Bb]; [assumption|].
  destruct (bor_bit _ c Bb) as [-> Bc]; [assumption|].
  destruct (bor_bit _ d Bc) as [-> Bd]; [assumption|].
  destruct (bor_bit _ e Bd) as [-> Be]; [assumption|].
  reflexivity.
Qed.

Lemma fold_lor_testbit (l : list Z) (acc n : Z) :
  0 <= n -> Forall (fun r => 0 <= r) l ->
  Z.testbit (fold_left (fun bitValue r => Z.lor bitValue (2 ^ r)) l acc) n
  = Z.testbit acc n || existsb (Z.eqb n) l.
Proof.
  intros Hn. revert acc. induction l as [|a l IH]; intros acc H.
  - cbn. rewrite orb_false_r. reflexivity.
  - inversion H; subst. cbn [fold_left existsb].
    rewrite IH, Z.lor_spec, Z.pow2_bits_eqb by assumption.
    rewrite (Z.eqb_sym a n), orb_assoc. reflexivity.
Qed.

Lemma lorAll_testbit (l : list Z) (n : Z) :
  0 <= n -> Forall (fun r => 0 <= r) l ->
  Z.testbit (lorAll l) n = existsb (Z.eqb n) l.
Proof.
  intros Hn H. unfold lorAll. rewrite fold_lor_testbit by assumption.
  rewrite Z.testbit_0_l. reflexivity.
Qed.

Lemma existsb_eqb_In (n : Z) (l : list Z) :
  existsb (Z.eqb n) l = true <-> In n l.
Proof.
  rewrite existsb_exists. split.
  - intros [x [Hin E]]. apply Z.eqb_eq in E. subst. assumption.
  - intros H. exists n. split; [assumption|apply Z.eqb_refl].
Qed.

(** The signature depends on the set of the ranks only. *)
Lemma lorAll_same_ranks (l l' : list Z) :
  Forall (fun r => 0 <= r) l -> Forall (fun r => 0 <= r) l' ->
  (forall r, In r l <-> In r l') -> lorAll l = lorAll l'.
Proof.
  intros H H' Hin. apply Z.bits_inj'. intros n Hn.
  rewrite !lorAll_testbit by assumption.
  apply eq_true_iff_eq. rewrite !existsb_eqb_In. apply Hin.
Qed.

Lemma filter_in_sublists {A : Type} (p : A -> bool) (l : list A) :
  In (filter p l) (sublists l).
Proof.
  induction l as [|a l IH]; cbn; [auto|].
  apply in_or_app. destruct (p a); [left; apply in_map|right]; assumption.
Qed.

(** The thirteen ranks have 8192 subsets; the tests on a signature are
    compared with the reference on each of them. *)
Lemma signature_agreement : forallb signatureAgrees (sublists Rs) = true.
Proof. vm_compute. reflexivity. Qed.

Lemma signatureAgrees_held (k : Z) (ranks : list Z) :
  signatureAgrees (Poker.ranksHeld k ranks) = true.
Proof.
  pose proof signature_agreement as H. rewrite forallb_forall in H.
  apply H. unfold Poker.ranksHeld. apply filter_in_sublists.
Qed.

(** ** Counting the ranks by multiplicity *)

Section ByCount.

(** [h] is summed over a list of ranks, each rank weighing by its count
    [c]; ranks that are absent weigh nothing. *)
Variables (h c : Z -> Z).
Hypothesis h0 : h 0 = 0.

Lemma sum_by_count (L : list Z) :
  (forall r, In r L -> 0 <= c r <= 4) ->
  fold_right (fun r acc => h (c r) + acc) 0 L
  = h 1 * Z.of_nat (Datatypes.length (filter (fun r => c r =? 1) L))
    + h 2 * Z.of_nat (Datatypes.length (filter (fun r => c r =? 2) L))
    + h 3 * Z.of_nat (Datatypes.length (filter (fun r => c r =? 3) L))
    + h 4 * Z.of_nat (Datatypes.length (filter (fun r => c r =? 4) L)).
Proof.
  induction L as [|a L IH]; intros H.
  - cbn. lia.
  - cbn [fold_right filter]. rewrite IH by (intros; apply H; right; assumption).
    assert (C : c a = 0 \/ c a = 1 \/ c a = 2 \/ c a = 3 \/ c a = 4)
      by (specialize (H a (or_introl eq_refl)); lia).
    destruct C as [E|[E|[E|[E|E]]]]; rewrite E; cbn [Z.eqb Pos.eqb];
      cbn [Datatypes.length]; rewrite ?h0, ?Nat2Z.inj_succ; lia.
Qed.

End ByCount.

Lemma sumOverRanks_indicator (a : Z) :
  2 <= a <= 14 -> sumOverRanks (fun r => if Z.eq_dec a r then 1 else 0) = 1.
Proof.
  intros H.
  assert (C : a = 2 \/ a = 3 \/ a = 4 \/ a = 5 \/ a = 6 \/ a = 7 \/ a = 8
              \/ a = 9 \/ a = 10 \/ a = 11 \/ a = 12 \/ a = 13 \/ a = 14)
    by lia.
  repeat (destruct C as [->|C]; [reflexivity|]). subst. reflexivity.
Qed.

Lemma sumOverRanks_add (f g : Z -> Z) :
  sumOverRanks (fun r => f r + g r) = sumOverRanks f + sumOverRanks g.
Proof. unfold sumOverRanks, Rs. cbn [fold_right]. ring. Qed.

(** Every card is counted at one rank. *)
Lemma sumOverRanks_count (ranks : list Z) :
  Forall (fun r => 2 <= r <= 14) ranks ->
  sumOverRanks (fun r => count r ranks) = Z.of_nat (Datatypes.length ranks).
Proof.
  induction ranks as [|a l IH]; intros H; [reflexivity|].
  inversion H; subst.
  transitivity
    (sumOverRanks (fun r => (if Z.eq_dec a r then 1 else 0) + count r l)).
  - unfold sumOverRanks, Rs. cbn [fold_right]. rewrite !count_cons.
    reflexivity.
  - rewrite sumOverRanks_add, sumOverRanks_indicator, IH by assumption.
    cbn [Datatypes.length]. lia.
Qed.

Lemma digitSum_nibbles (ranks : list Z) :
  rankArray ranks ->
  digitSum (nibbles ranks) 15
  = sumOverRanks (fun r => nibbleOf (count r ranks)).
Proof.
  intros H. unfold sumOverRanks, Rs. cbn [fold_right digitSum].
  assert (E0 : nibbles ranks 0 = 0)
    by (unfold nibbles; rewrite (rankArray_low ranks); auto; lia).
  assert (E1 : nibbles ranks 1 = 0)
    by (unfold nibbles; rewrite (rankArray_low ranks); auto; lia).
  rewrite E0, E1. unfold nibbles. simpl Z.of_nat. ring.
Qed.

(** The two equations that tie the signature to the shape of a hand. *)
Lemma shape_equations (ranks : list Z) :
  Datatypes.length ranks = 5%nat -> rankArray ranks ->
  Poker.numHeld 1 ranks + 2 * Poker.numHeld 2 ranks
  + 3 * Poker.numHeld 3 ranks + 4 * Poker.numHeld 4 ranks = 5
  /\ JS.rem (countDuplicatesBitwise ranks) 15
     = (Poker.numHeld 1 ranks + 3 * Poker.numHeld 2 ranks
        + 7 * Poker.numHeld 3 ranks + 15 * Poker.numHeld 4 ranks) mod 15.
Proof.
  intros L H.
  assert (R : forall r, In r Rs -> 0 <= count r ranks <= 4).
  { intros r _. split; [apply count_nonneg|apply H]. }
  split.
  - pose proof (sumOverRanks_count ranks (proj1 H)) as S.
    unfold sumOverRanks in S.
    rewrite (sum_by_count (fun x => x) (fun r => count r ranks) eq_refl Rs R)
      in S.
    rewrite L in S. unfold Poker.numHeld, Poker.ranksHeld. lia.
  - unfold JS.rem. rewrite Z.rem_mod_nonneg;
      [|apply accumulator_bound; assumption|lia].
    rewrite rankArray_packed, packed_mod15, digitSum_nibbles by assumption.
    unfold sumOverRanks.
    rewrite (sum_by_count nibbleOf (fun r => count r ranks) eq_refl Rs R).
    unfold Poker.numHeld, Poker.ranksHeld. f_equal.
    change (nibbleOf 1) with 1. change (nibbleOf 2) with 3.
    change (nibbleOf 3) with 7. change (nibbleOf 4) with 15. lia.
Qed.

(** ** Valid hands *)

Lemma In_Rs (r : Z) : In r Rs <-> 2 <= r <= 14.
Proof.
  unfold Rs. cbn [In]. split; [intuition lia|].
  intros H.
  assert (C : r = 2 \/ r = 3 \/ r = 4 \/ r = 5 \/ r = 6 \/ r = 7 \/ r = 8
              \/ r = 9 \/ r = 10 \/ r = 11 \/ r = 12 \/ r = 13 \/ r = 14)
    by lia.
  intuition.
Qed.

Lemma count_ranksOf (r : Z) (h : Poker.hand) :
  count r (Poker.ranksOf h)
  = Z.of_nat (Datatypes.length (filter (fun c => fst c =? r) h)).
Proof.
  unfold count. f_equal. induction h as [|c h IH]; [reflexivity|].
  cbn [Poker.ranksOf map count_occ filter].
  destruct (Z.eq_dec (fst c) r) as [E|E].
  - rewrite (proj2 (Z.eqb_eq _ _) E). cbn [Datatypes.length]. f_equal. exact IH.
  - rewrite (proj2 (Z.eqb_neq _ _) E). exact IH.
Qed.

(** No rank more than four times: the cards of a rank differ in suit. *)
Lemma valid_hand_count (h : Poker.hand) (r : Z) :
  Forall Poker.valid_card h -> NoDup h -> count r (Poker.ranksOf h) <= 4.
Proof.
  intros V N. rewrite count_ranksOf.
  assert (I : incl (filter (fun c => fst c =? r) h)
                [(r, 1); (r, 2); (r, 4); (r, 8)]).
  { intros [cr cs] Hin. apply filter_In in Hin. destruct Hin as [Hin E].
    cbn in E. apply Z.eqb_eq in E. subst cr.
    rewrite Forall_forall in V. destruct (V _ Hin) as [_ S].
    cbn in S. cbn [In]. intuition (subst; auto). }
  apply NoDup_incl_length in I; [|apply NoDup_filter; assumption].
  cbn [Datatypes.length] in I. lia.
Qed.

Lemma valid_hand_ranks (h : Poker.hand) :
  Poker.valid_hand h ->
  Datatypes.length (Poker.ranksOf h) = 5%nat /\ rankArray (Poker.ranksOf h).
Proof.
  intros [L [V N]]. split; [unfold Poker.ranksOf; rewrite length_map; exact L|].
  split.
  - unfold Poker.ranksOf. rewrite Forall_map.
    eapply Forall_impl; [|exact V].
    intros c [R _]. apply In_Rs. exact R.
  - intros r. apply valid_hand_count; assumption.
Qed.

Lemma valid_hand_suits (h : Poker.hand) :
  Poker.valid_hand h ->
  Datatypes.length (Poker.suitsOf h) = 5%nat
  /\ Forall (fun s => In s Poker.suitCodes) (Poker.suitsOf h).
Proof.
  intros [L [V N]]. split; [unfold Poker.suitsOf; rewrite length_map; exact L|].
  unfold Poker.suitsOf. rewrite Forall_map.
  eapply Forall_impl; [|exact V]. intros c [_ S]. exact S.
Qed.

(** ** The duplicate signature *)

Lemma numHeld_nonneg (k : Z) (ranks : list Z) : 0 <= Poker.numHeld k ranks.
Proof. unfold Poker.numHeld. lia. Qed.

Lemma numHeld_zero_iff (k : Z) (ranks : list Z) :
  Poker.numHeld k ranks = 0 <-> forall r, In r Rs -> count r ranks <> k.
Proof.
  unfold Poker.numHeld, Poker.ranksHeld. split.
  - intros H r Hin E.
    assert (I : In r (filter (fun r => count r ranks =? k) Rs))
      by (apply filter_In; split; [assumption|apply Z.eqb_eq; assumption]).
    destruct (filter (fun r => count r ranks =? k) Rs); [destruct I|].
    cbn [Datatypes.length] in H. lia.
  - intros H.
    destruct (filter (fun r => count r ranks =? k) Rs) as [|r l] eqn:E;
      [reflexivity|].
    assert (I : In r (filter (fun r => count r ranks =? k) Rs))
      by (rewrite E; left; reflexivity).
    apply filter_In in I. destruct I as [Hin C]. apply Z.eqb_eq in C.
    destruct (H r Hin C).
Qed.

Lemma NoDup_count (ranks : list Z) :
  NoDup ranks <-> forall r, count r ranks <= 1.
Proof.
  rewrite (NoDup_count_occ Z.eq_dec). unfold count.
  split; intros H r; specialize (H r); lia.
Qed.

Lemma noDuplicates_numHeld (ranks : list Z) :
  rankArray ranks ->
  (Poker.noDuplicates ranks
   <-> Poker.numHeld 2 ranks = 0 /\ Poker.numHeld 3 ranks = 0
       /\ Poker.numHeld 4 ranks = 0).
Proof.
  intros H. unfold Poker.noDuplicates. rewrite NoDup_count.
  rewrite !numHeld_zero_iff. split.
  - intros C. repeat split; intros r _; specialize (C r); lia.
  - intros [C2 [C3 C4]] r.
    destruct (Z_le_gt_dec 2 r) as [Lo|Lo];
      [|rewrite (rankArray_low ranks r H); lia].
    destruct (Z_le_gt_dec r 14) as [Hi|Hi].
    + assert (I : In r Rs) by (apply In_Rs; lia).
      specialize (C2 r I). specialize (C3 r I). specialize (C4 r I).
      destruct H as [_ B]. specialize (B r). lia.
    + rewrite count_absent; [lia|]. intros Hin.
      destruct H as [F _]. rewrite Forall_forall in F.
      specialize (F r Hin). lia.
Qed.

(** The six shapes of five cards, with the signature of each. *)
Lemma shape_cases (ranks : list Z) :
  Datatypes.length ranks = 5%nat -> rankArray ranks ->
  let m k := Poker.numHeld k ranks in
  let sig := JS.rem (countDuplicatesBitwise ranks) 15 in
  (m 1 = 5 /\ m 2 = 0 /\ m 3 = 0 /\ m 4 = 0 /\ sig = 5)
  \/ (m 1 = 3 /\ m 2 = 1 /\ m 3 = 0 /\ m 4 = 0 /\ sig = 6)
  \/ (m 1 = 1 /\ m 2 = 2 /\ m 3 = 0 /\ m 4 = 0 /\ sig = 7)
  \/ (m 1 = 2 /\ m 2 = 0 /\ m 3 = 1 /\ m 4 = 0 /\ sig = 9)
  \/ (m 1 = 0 /\ m 2 = 1 /\ m 3 = 1 /\ m 4 = 0 /\ sig = 10)
  \/ (m 1 = 1 /\ m 2 = 0 /\ m 3 = 0 /\ m 4 = 1 /\ sig = 1).
Proof.
  intros L H m sig. subst m sig. cbv beta.
  destruct (shape_equations ranks L H) as [S ->].
  pose proof (numHeld_nonneg 1 ranks). pose proof (numHeld_nonneg 2 ranks).
  pose proof (numHeld_nonneg 3 ranks). pose proof (numHeld_nonneg 4 ranks).
  assert (C4 : Poker.numHeld 4 ranks = 0 \/ Poker.numHeld 4 ranks = 1) by lia.
  assert (C3 : Poker.numHeld 3 ranks = 0 \/ Poker.numHeld 3 ranks = 1) by lia.
  assert (C2 : Poker.numHeld 2 ranks = 0 \/ Poker.numHeld 2 ranks = 1
               \/ Poker.numHeld 2 ranks = 2) by lia.
  destruct C4 as [E4|E4], C3 as [E3|E3], C2 as [E2|[E2|E2]];
    rewrite E4, E3, E2 in *;
    try lia;
    match goal with
    | _ : ?m1 + _ + _ + _ = 5 |- _ =>
        let v := fresh "v" in
        assert (exists v, m1 = v) as [v E1] by eauto;
        rewrite E1 in *
    end;
    match goal with
    | E1 : _ = ?v |- _ =>
        assert (C1 : v = 0 \/ v = 1 \/ v = 2 \/ v = 3 \/ v = 5) by lia;
        destruct C1 as [->|[->|[->|[->| ->]]]]; try lia; cbn; intuition lia
    end.
Qed.

Lemma rankPokerHand_duplicates (ranks suits : list Z) :
  JS.rem (countDuplicatesBitwise ranks) 15 <> 5 ->
  rankPokerHand ranks suits
  = lookup (KNum (JS.rem (countDuplicatesBitwise ranks) 15))
      (countRanksBitwise ranks) (JS.rem (countDuplicatesBitwise ranks) 15).
Proof.
  intros H. unfold rankPokerHand. cbv zeta.
  rewrite (proj2 (Z.eqb_neq _ _) H). reflexivity.
Qed.

Lemma no_duplicates_signature (ranks : list Z) :
  Datatypes.length ranks = 5%nat -> rankArray ranks -> NoDup ranks ->
  JS.rem (countDuplicatesBitwise ranks) 15 = 5.
Proof.
  intros L R N. apply (noDuplicates_numHeld ranks R) in N.
  destruct (shape_cases ranks L R) as [C|[C|[C|[C|[C|C]]]]];
    cbv zeta in C; lia.
Qed.

(** C6: for every valid five-card hand the duplicate signature, the
    accumulator modulo 15, is one of 1, 5, 6, 7, 9, 10; it is 5 exactly
    when no rank is duplicated, 6 for exactly one pair, 7 for two pair, 9
    for trips without a pair, 10 for a full house and 1 for quads; and when
    it is not 5 the table lookup of [rankPokerHand] succeeds and gives the
    category of the shape. *)
Theorem duplicate_signature_classifies (h : Poker.hand) :
  Poker.valid_hand h ->
  let ranks := Poker.ranksOf h in
  let sig := JS.rem (countDuplicatesBitwise ranks) 15 in
  In sig [1; 5; 6; 7; 9; 10]
  /\ (sig = 5 <-> Poker.noDuplicates ranks)
  /\ (sig = 6 <-> Poker.onePair ranks)
  /\ (sig = 7 <-> Poker.twoPairs ranks)
  /\ (sig = 9 <-> Poker.threeOfAKind ranks)
  /\ (sig = 10 <-> Poker.fullHouse ranks)
  /\ (sig = 1 <-> Poker.fourOfAKind ranks)
  /\ (sig <> 5 ->
      exists a, rankPokerHand ranks (Poker.suitsOf h) = Some a
        /\ btCount a = sig
        /\ (Poker.onePair ranks -> handRank a = HandRank.pair)
        /\ (Poker.twoPairs ranks -> handRank a = HandRank.twoPair)
        /\ (Poker.threeOfAKind ranks -> handRank a = HandRank.trips)
        /\ (Poker.fullHouse ranks -> handRank a = HandRank.fullHouse)
        /\ (Poker.fourOfAKind ranks -> handRank a = HandRank.quads)).
Proof.
  intros V ranks sig.
  destruct (valid_hand_ranks h V) as [L R]. fold ranks in L, R.
  pose proof (noDuplicates_numHeld ranks R) as ND.
  pose proof (rankPokerHand_duplicates ranks (Poker.suitsOf h)) as D.
  pose proof (shape_cases ranks L R) as C. cbv zeta in C.
  fold sig in D, C. clearbody sig.
  unfold Poker.onePair, Poker.twoPairs, Poker.threeOfAKind, Poker.fullHouse,
    Poker.fourOfAKind.
  destruct C as [C|[C|[C|[C|[C|C]]]]];
    destruct C as [E1 [E2 [E3 [E4 E]]]]; subst sig;
    (split; [cbn [In]; lia|]);
    (split; [rewrite ND; clear ND D; lia|]); clear ND;
    repeat (split; [clear D; lia|]);
    intros N; try (exfalso; apply N; reflexivity);
    rewrite (D N); unfold lookup; cbn [POKER_HASH];
    (eexists; split; [reflexivity|]);
    cbn [btCount handRank]; clear D;
    repeat split; intros; try reflexivity; lia.
Qed.

Lemma validHand_sound (h : Poker.hand) :
  validHand h = true -> Poker.valid_hand h.
Proof.
  unfold validHand. rewrite !andb_true_iff. intros [[L F] N].
  split; [apply Nat.eqb_eq; exact L|]. split.
  - rewrite Forall_forall. rewrite forallb_forall in F.
    intros c Hin. specialize (F c Hin). rewrite andb_true_iff in F.
    split; apply existsb_eqb_In; tauto.
  - clear L F. induction h as [|c h IH]; constructor.
    + cbn in N. rewrite andb_true_iff, negb_true_iff in N.
      destruct N as [N _]. intros Hin.
      assert (E : existsb (cardEqb c) h = true).
      { apply existsb_exists. exists c. split; [assumption|].
        unfold cardEqb. rewrite !Z.eqb_refl. reflexivity. }
      congruence.
    + apply IH. cbn in N. rewrite andb_true_iff in N. tauto.
Qed.

(** ** Classification *)

Lemma rankPokerHand_classify (ranks suits : list Z) :
  rankPokerHand ranks suits
  = classify (countRanksBitwise ranks)
      (JS.rem (countDuplicatesBitwise ranks) 15) (flushTest suits).
Proof.
  unfold rankPokerHand, classify, straightTest, flushTest. cbv zeta.
  reflexivity.
Qed.

Lemma flush_agreement : flushAgrees = true.
Proof. vm_compute. reflexivity. Qed.

(** The flush test of the source, first suit against the disjunction of
    the others, says that the five suits are equal. *)
Lemma flushTest_isFlush (suits : list Z) :
  Datatypes.length suits = 5%nat ->
  Forall (fun s => In s Poker.suitCodes) suits ->
  flushTest suits = Poker.isFlush suits.
Proof.
  intros L H.
  destruct suits as [|a [|b [|c [|d [|e [|]]]]]]; try discriminate L.
  repeat match goal with
         | H : Forall _ (_ :: _) |- _ => inversion H; clear H; subst
         end.
  pose proof flush_agreement as A. unfold flushAgrees in A.
  rewrite forallb_forall in A. specialize (A a ltac:(assumption)).
  rewrite forallb_forall in A. specialize (A b ltac:(assumption)).
  rewrite forallb_forall in A. specialize (A c ltac:(assumption)).
  rewrite forallb_forall in A. specialize (A d ltac:(assumption)).
  rewrite forallb_forall in A. specialize (A e ltac:(assumption)).
  apply eqb_prop. exact A.
Qed.

Lemma isFlush_all_equal (suits : list Z) :
  Poker.isFlush suits = true
  <-> suits <> [] /\ forall s s', In s suits -> In s' suits -> s = s'.
Proof.
  destruct suits as [|a l]; cbn [Poker.isFlush].
  - split; [discriminate|intros [N _]; congruence].
  - rewrite forallb_forall. split.
    + intros H. split; [discriminate|].
      assert (A : forall s, In s (a :: l) -> s = a).
      { intros s [E|Hin]; [auto|]. symmetry. apply Z.eqb_eq, H, Hin. }
      intros s s' Hs Hs'. rewrite (A s Hs), (A s' Hs'). reflexivity.
    + intros [_ H] s Hin. apply Z.eqb_eq. apply H; [left|right]; auto.
Qed.

Lemma isFlush_permutation (suits suits' : list Z) :
  Permutation suits suits' -> Poker.isFlush suits = Poker.isFlush suits'.
Proof.
  intros P. apply eq_true_iff_eq. rewrite !isFlush_all_equal. split.
  - intros [N H]. split.
    + intros E. subst. apply Permutation_sym, Permutation_nil in P.
      congruence.
    + intros s s' Hs Hs'.
      apply H; eapply Permutation_in; try eassumption;
        apply Permutation_sym; assumption.
  - intros [N H]. split.
    + intros E. subst. apply Permutation_nil in P. congruence.
    + intros s s' Hs Hs'. apply H; eapply Permutation_in; eassumption.
Qed.

Lemma count_permutation (r : Z) (l l' : list Z) :
  Permutation l l' -> count r l = count r l'.
Proof.
  intros P. unfold count. f_equal.
  apply (Permutation_count_occ Z.eq_dec); assumption.
Qed.

Lemma rankArray_permutation (l l' : list Z) :
  Permutation l l' -> rankArray l -> rankArray l'.
Proof.
  intros P [F C]. split.
  - eapply Permutation_Forall; eassumption.
  - intros r. rewrite <- (count_permutation r l l' P). apply C.
Qed.

(** The accumulator does not depend on the order of the cards. *)
Lemma countDuplicatesBitwise_permutation (l l' : list Z) :
  rankArray l -> Permutation l l' ->
  countDuplicatesBitwise l' = countDuplicatesBitwise l.
Proof.
  intros R P.
  rewrite (rankArray_packed l R).
  rewrite (rankArray_packed l' (rankArray_permutation l l' P R)).
  apply packed_ext. intros i _. unfold nibbles.
  rewrite (count_permutation _ l l' P). reflexivity.
Qed.

Lemma rankArray_bits (l : list Z) :
  rankArray l -> Forall (fun r => 0 <= r <= 30) l.
Proof. intros [F _]. eapply Forall_impl; [|exact F]. cbv beta. intros; lia. Qed.

Lemma rankArray_nonneg (l : list Z) :
  rankArray l -> Forall (fun r => 0 <= r) l.
Proof. intros [F _]. eapply Forall_impl; [|exact F]. cbv beta. intros; lia. Qed.

(** Neither does the rank signature. *)
Lemma countRanksBitwise_permutation (l l' : list Z) :
  Datatypes.length l = 5%nat -> rankArray l -> Permutation l l' ->
  countRanksBitwise l' = countRanksBitwise l.
Proof.
  intros L R P.
  pose proof (rankArray_permutation l l' P R) as R'.
  rewrite !countRanksBitwise_lorAll;
    try (apply rankArray_bits; assumption); try assumption;
    [|rewrite <- L; symmetry; apply Permutation_length; assumption].
  apply lorAll_same_ranks; try (apply rankArray_nonneg; assumption).
  intros r. split; apply Permutation_in;
    [apply Permutation_sym|]; assumption.
Qed.

Lemma ranksHeld_In (k r : Z) (ranks : list Z) :
  In r (Poker.ranksHeld k ranks) <-> In r Rs /\ count r ranks = k.
Proof.
  unfold Poker.ranksHeld. rewrite filter_In, Z.eqb_eq. reflexivity.
Qed.

Lemma count_In (r : Z) (ranks : list Z) : In r ranks <-> 1 <= count r ranks.
Proof.
  unfold count. rewrite (count_occ_In Z.eq_dec). lia.
Qed.

(** Without duplicates the ranks held once are the ranks of the hand. *)
Lemma held_once_iff (ranks : list Z) (r : Z) :
  rankArray ranks -> NoDup ranks ->
  (In r (Poker.ranksHeld 1 ranks) <-> In r ranks).
Proof.
  intros [F _] N. rewrite ranksHeld_In.
  rewrite NoDup_count in N. specialize (N r). split.
  - intros [_ E]. apply count_In. lia.
  - intros C. split.
    + apply In_Rs. rewrite Forall_forall in F. apply F, C.
    + apply count_In in C. lia.
Qed.

Lemma ranksHeld_nonneg (k : Z) (ranks : list Z) :
  Forall (fun r => 0 <= r) (Poker.ranksHeld k ranks).
Proof.
  rewrite Forall_forall. intros r H. apply ranksHeld_In in H.
  destruct H as [H _]. apply In_Rs in H. lia.
Qed.

Lemma signature_of_distinct (ranks : list Z) :
  Datatypes.length ranks = 5%nat -> rankArray ranks -> NoDup ranks ->
  countRanksBitwise ranks = lorAll (Poker.ranksHeld 1 ranks).
Proof.
  intros L R N.
  rewrite countRanksBitwise_lorAll by (auto using rankArray_bits).
  apply lorAll_same_ranks;
    [apply rankArray_nonneg; assumption|apply ranksHeld_nonneg|].
  intros r. symmetry. apply held_once_iff; assumption.
Qed.

(** What [signature_agreement] says of the ranks of a hand. *)
Lemma signature_tests (ranks : list Z) :
  Datatypes.length ranks = 5%nat -> rankArray ranks -> NoDup ranks ->
  let sig := countRanksBitwise ranks in
  straightTest sig = Poker.isStraight ranks
  /\ (sig =? WHEEL_HASH) = Poker.isWheel ranks
  /\ (sig =? BROADWAY_HASH) = Poker.isBroadway ranks
  /\ straightTest sig = fiveInARow sig.
Proof.
  intros L R N sig. subst sig.
  rewrite signature_of_distinct by assumption.
  pose proof (signatureAgrees_held 1 ranks) as A.
  unfold signatureAgrees in A. cbv zeta in A.
  rewrite !andb_true_iff in A. destruct A as [[[[A1 A0] A2] A3] _].
  apply eqb_prop in A0, A1, A2, A3.
  unfold Poker.isStraight, Poker.isWheel, Poker.isBroadway. auto.
Qed.

Lemma numHeld_0 (k : Z) (ranks : list Z) :
  Poker.numHeld k ranks = 0 -> Poker.ranksHeld k ranks = [].
Proof.
  unfold Poker.numHeld. destruct (Poker.ranksHeld k ranks); cbn; [auto|lia].
Qed.

Lemma numHeld_1 (k : Z) (ranks : list Z) :
  Poker.numHeld k ranks = 1 -> exists x, Poker.ranksHeld k ranks = [x].
Proof.
  unfold Poker.numHeld.
  destruct (Poker.ranksHeld k ranks) as [|x [|y l]]; cbn; try lia; eauto.
Qed.

Lemma numHeld_2 (k : Z) (ranks : list Z) :
  Poker.numHeld k ranks = 2 -> exists x y, Poker.ranksHeld k ranks = [x; y].
Proof.
  unfold Poker.numHeld.
  destruct (Poker.ranksHeld k ranks) as [|x [|y [|z l]]]; cbn; try lia; eauto.
Qed.

(** [rankPokerHand] returns on every valid hand, with the category that
    the rules give the hand. *)
Lemma rankPokerHand_category (h : Poker.hand) :
  Poker.valid_hand h ->
  exists a,
    rankPokerHand (Poker.ranksOf h) (Poker.suitsOf h) = Some a
    /\ handRank a = Poker.category h
    /\ btRanks a = countRanksBitwise (Poker.ranksOf h)
    /\ btCount a = JS.rem (countDuplicatesBitwise (Poker.ranksOf h)) 15
    /\ btCount a = match handRank a with
                   | HandRank.pair => 6
                   | HandRank.twoPair => 7
                   | HandRank.trips => 9
                   | HandRank.fullHouse => 10
                   | HandRank.quads => 1
                   | _ => 5
                   end.
Proof.
  intros V.
  destruct (valid_hand_ranks h V) as [L R].
  destruct (valid_hand_suits h V) as [LS FS].
  rewrite rankPokerHand_classify, (flushTest_isFlush _ LS FS).
  unfold Poker.category.
  destruct (shape_cases _ L R) as [C|[C|[C|[C|[C|C]]]]]; cbv zeta in C;
    destruct C as [E1 [E2 [E3 [E4 E]]]]; rewrite E.
  - (* no duplicates *)
    assert (N : NoDup (Poker.ranksOf h))
      by (apply noDuplicates_numHeld; auto).
    destruct (signature_tests _ L R N) as [S1 [_ [S3 _]]].
    cbv zeta in S1, S3.
    rewrite (numHeld_0 _ _ E2), (numHeld_0 _ _ E3), (numHeld_0 _ _ E4).
    unfold classify. rewrite S1, S3. cbn [Z.eqb Pos.eqb negb].
    destruct (Poker.isFlush (Poker.suitsOf h)),
      (Poker.isBroadway (Poker.ranksOf h)),
      (Poker.isStraight (Poker.ranksOf h));
      cbn [andb]; unfold lookup; cbn [POKER_HASH]; eexists;
      (split; [reflexivity|]); cbn [handRank btRanks btCount]; auto.
  - destruct (numHeld_1 _ _ E2) as [x ->].
    rewrite (numHeld_0 _ _ E3), (numHeld_0 _ _ E4).
    unfold classify, lookup. cbn [Z.eqb Pos.eqb negb POKER_HASH].
    eexists; (split; [reflexivity|]); cbn [handRank btRanks btCount]; auto.
  - destruct (numHeld_2 _ _ E2) as [x [y ->]].
    rewrite (numHeld_0 _ _ E3), (numHeld_0 _ _ E4).
    unfold classify, lookup. cbn [Z.eqb Pos.eqb negb POKER_HASH].
    eexists; (split; [reflexivity|]); cbn [handRank btRanks btCount]; auto.
  - destruct (numHeld_1 _ _ E3) as [x ->].
    rewrite (numHeld_0 _ _ E2), (numHeld_0 _ _ E4).
    unfold classify, lookup. cbn [Z.eqb Pos.eqb negb POKER_HASH].
    eexists; (split; [reflexivity|]); cbn [handRank btRanks btCount]; auto.
  - destruct (numHeld_1 _ _ E3) as [x ->].
    destruct (numHeld_1 _ _ E2) as [y ->].
    rewrite (numHeld_0 _ _ E4).
    unfold classify, lookup. cbn [Z.eqb Pos.eqb negb POKER_HASH].
    eexists; (split; [reflexivity|]); cbn [handRank btRanks btCount]; auto.
  - destruct (numHeld_1 _ _ E4) as [x ->].
    unfold classify, lookup. cbn [Z.eqb Pos.eqb negb POKER_HASH].
    eexists; (split; [reflexivity|]); cbn [handRank btRanks btCount]; auto.
Qed.

Lemma valid_hand_permutation (h h' : Poker.hand) :
  Permutation h h' -> Poker.valid_hand h -> Poker.valid_hand h'.
Proof.
  intros P [L [F N]]. split; [|split].
  - rewrite <- L. symmetry. apply Permutation_length. assumption.
  - eapply Permutation_Forall; eassumption.
  - eapply Permutation_NoDup; eassumption.
Qed.

(** C9: for a valid hand [h] and any reordering [h'] of its five cards,
    [rankPokerHand] returns on both and gives them the same category (and
    the same signatures). *)
Theorem rankPokerHand_order_independent (h h' : Poker.hand) :
  Poker.valid_hand h -> Permutation h h' ->
  exists a a',
    rankPokerHand (Poker.ranksOf h) (Poker.suitsOf h) = Some a
    /\ rankPokerHand (Poker.ranksOf h') (Poker.suitsOf h') = Some a'
    /\ handRank a' = handRank a
    /\ btRanks a' = btRanks a /\ btCount a' = btCount a.
Proof.
  intros V P.
  pose proof (valid_hand_permutation h h' P V) as V'.
  destruct (valid_hand_ranks h V) as [L R].
  destruct (valid_hand_suits h V) as [LS FS].
  destruct (valid_hand_suits h' V') as [LS' FS'].
  assert (PR : Permutation (Poker.ranksOf h) (Poker.ranksOf h'))
    by (apply Permutation_map; assumption).
  assert (PS : Permutation (Poker.suitsOf h) (Poker.suitsOf h'))
    by (apply Permutation_map; assumption).
  assert (E : rankPokerHand (Poker.ranksOf h') (Poker.suitsOf h')
              = rankPokerHand (Poker.ranksOf h) (Poker.suitsOf h)).
  { rewrite !rankPokerHand_classify.
    rewrite (countRanksBitwise_permutation _ _ L R PR).
    rewrite (countDuplicatesBitwise_permutation _ _ R PR).
    rewrite !flushTest_isFlush by assumption.
    rewrite (isFlush_permutation _ _ PS). reflexivity. }
  destruct (rankPokerHand_category h V) as [a [Ha _]].
  exists a, a. rewrite E. auto.
Qed.

Lemma fiveInARow_eq (S : Z) :
  fiveInARow S = (S / Z.land S (- S) =? 31) || (S =? 0x403C).
Proof. reflexivity. Qed.

Lemma classify_priority (S : Z) (allSuitsEqual isStraight : bool) :
  straightTest S = isStraight ->
  option_map handRank (classify S 5 allSuitsEqual)
  = Some (if allSuitsEqual && (S =? 0x7C00) then HandRank.royalFlush
          else if isStraight && allSuitsEqual then HandRank.straightFlush
          else if allSuitsEqual then HandRank.flush
          else if isStraight then HandRank.straight
          else HandRank.highCard).
Proof.
  intros E. unfold classify. rewrite E.
  change BROADWAY_HASH with 0x7C00. cbn [Z.eqb Pos.eqb negb].
  destruct (allSuitsEqual && (S =? 0x7C00)); [reflexivity|].
  destruct (isStraight && allSuitsEqual); [reflexivity|].
  destruct allSuitsEqual; [reflexivity|].
  destruct isStraight; reflexivity.
Qed.

(** C8: for a valid hand without duplicated ranks, with [S] its rank
    signature, [rankPokerHand] gives: royal flush when all suits are equal
    and [S = 0x7C00]; else straight flush when the hand is a straight and
    all suits are equal; else flush when all suits are equal; else straight
    when [S / (S & -S) = 31] or [S = 0x403C]; else high card.  The test on
    [S] holds exactly for five consecutive ranks and for the wheel. *)
Theorem rankPokerHand_priority (h : Poker.hand) :
  Poker.valid_hand h -> Poker.noDuplicates (Poker.ranksOf h) ->
  let S := countRanksBitwise (Poker.ranksOf h) in
  let allSuitsEqual := Poker.isFlush (Poker.suitsOf h) in
  let isStraight := (S / Z.land S (- S) =? 31) || (S =? 0x403C) in
  isStraight = Poker.isStraight (Poker.ranksOf h)
  /\ option_map handRank
       (rankPokerHand (Poker.ranksOf h) (Poker.suitsOf h))
     = Some (if allSuitsEqual && (S =? 0x7C00) then HandRank.royalFlush
             else if isStraight && allSuitsEqual then HandRank.straightFlush
             else if allSuitsEqual then HandRank.flush
             else if isStraight then HandRank.straight
             else HandRank.highCard).
Proof.
  intros V N. cbv zeta.
  destruct (valid_hand_ranks h V) as [L R].
  destruct (valid_hand_suits h V) as [LS FS].
  destruct (signature_tests _ L R N) as [S1 [_ [_ S4]]]. cbv zeta in S1, S4.
  pose proof (no_duplicates_signature _ L R N) as E.
  split.
  - rewrite <- S1, S4. symmetry. apply fiveInARow_eq.
  - rewrite rankPokerHand_classify, E, (flushTest_isFlush _ LS FS).
    apply classify_priority. rewrite S4. apply fiveInARow_eq.
Qed.

(** ** Signatures and the lexicographic order *)

Lemma descending_filter (p : Z -> bool) (l : list Z) :
  descending l -> descending (filter p l).
Proof.
  induction l as [|a l IH]; cbn [descending filter]; [auto|].
  intros [H D]. destruct (p a); cbn [descending]; [split|]; auto.
  intros b Hin. apply H. apply filter_In in Hin. tauto.
Qed.

Lemma descending_Rs : descending Rs.
Proof.
  unfold Rs. cbn [descending In].
  repeat match goal with
         | |- _ /\ _ => split
         | |- forall b, _ -> _ =>
             let Hin := fresh "Hin" in
             intros b Hin;
             repeat (destruct Hin as [<-|Hin]; [lia|]); destruct Hin
         | |- True => exact I
         end.
Qed.

Lemma descending_held (k : Z) (ranks : list Z) :
  descending (Poker.ranksHeld k ranks).
Proof. apply descending_filter, descending_Rs. Qed.

Lemma sumPow_nonneg (l : list Z) : 0 <= sumPow l.
Proof.
  induction l as [|a l IH]; cbn [sumPow fold_right]; [lia|].
  fold (sumPow l). pose proof (Z.pow_nonneg 2 a). lia.
Qed.

(** A sum of distinct bits below bit [a] is below [2^a]. *)
Lemma sumPow_below (l : list Z) (a : Z) :
  0 <= a -> descending l -> (forall b, In b l -> 0 <= b < a) ->
  sumPow l < 2 ^ a.
Proof.
  revert a. induction l as [|x l IH]; intros a Ha D H.
  - cbn. apply Z.pow_pos_nonneg; lia.
  - cbn [sumPow fold_right]. fold (sumPow l). destruct D as [Hx D].
    assert (Bx : 0 <= x < a) by (apply H; left; reflexivity).
    specialize (IH x (proj1 Bx) D Hx).
    assert (M : 2 ^ (x + 1) <= 2 ^ a) by (apply Z.pow_le_mono_r; lia).
    rewrite Z.pow_add_r in M by lia. lia.
Qed.

Lemma lor_pow2_small (a x : Z) :
  0 <= a -> 0 <= x < 2 ^ a -> Z.lor (2 ^ a) x = 2 ^ a + x.
Proof.
  intros Ha Hx.
  assert (D : Z.land (2 ^ a) x = 0).
  { apply Z.bits_inj'. intros n Hn.
    rewrite Z.land_spec, Z.bits_0, Z.pow2_bits_eqb by assumption.
    destruct (Z.eqb_spec a n) as [->|]; [|reflexivity].
    cbn [andb]. apply Z.testbit_false; [assumption|].
    rewrite Z.div_small by assumption. reflexivity. }
  rewrite <- Z.lxor_lor by assumption.
  symmetry. apply Z.add_nocarry_lxor. assumption.
Qed.

Lemma lorAll_cons (a : Z) (l : list Z) :
  0 <= a -> Forall (fun r => 0 <= r) l ->
  lorAll (a :: l) = Z.lor (2 ^ a) (lorAll l).
Proof.
  intros Ha H. apply Z.bits_inj'. intros n Hn.
  rewrite Z.lor_spec, !lorAll_testbit, Z.pow2_bits_eqb; auto.
  cbn [existsb]. rewrite (Z.eqb_sym n a). reflexivity.
Qed.

(** On a strictly decreasing list the disjunction of the bits is their
    sum. *)
Lemma lorAll_sumPow (l : list Z) :
  descending l -> Forall (fun r => 0 <= r) l -> lorAll l = sumPow l.
Proof.
  induction l as [|a l IH]; intros D H; [reflexivity|].
  inversion H; subst. destruct D as [Ha D].
  rewrite lorAll_cons, IH by assumption.
  cbn [sumPow fold_right]. fold (sumPow l).
  apply lor_pow2_small; [assumption|].
  split; [apply sumPow_nonneg|apply sumPow_below; assumption].
Qed.

(** Signatures of sets of ranks compare as the sets do, rank by rank from
    the highest. *)
Lemma lexCompare_sumPow (K K' : list Z) :
  descending K -> Forall (fun r => 0 <= r) K ->
  descending K' -> Forall (fun r => 0 <= r) K' ->
  Poker.lexCompare K K' = (sumPow K ?= sumPow K').
Proof.
  revert K'. induction K as [|x K IH]; intros [|y K'] D H D' H'.
  - reflexivity.
  - cbn [Poker.lexCompare sumPow fold_right]. fold (sumPow K').
    symmetry. apply Z.compare_lt_iff.
    inversion H'; subst.
    pose proof (sumPow_nonneg K'). pose proof (Z.pow_pos_nonneg 2 y). lia.
  - cbn [Poker.lexCompare sumPow fold_right]. fold (sumPow K).
    symmetry. apply Z.compare_gt_iff.
    inversion H; subst.
    pose proof (sumPow_nonneg K). pose proof (Z.pow_pos_nonneg 2 x). lia.
  - cbn [Poker.lexCompare sumPow fold_right].
    fold (sumPow K). fold (sumPow K').
    inversion H; inversion H'; subst.
    destruct D as [Hx D], D' as [Hy D'].
    pose proof (sumPow_below K x ltac:(assumption) D Hx).
    pose proof (sumPow_below K' y ltac:(assumption) D' Hy).
    pose proof (sumPow_nonneg K). pose proof (sumPow_nonneg K').
    destruct (Z.compare_spec x y) as [E|Lt|Gt].
    + subst y. rewrite IH by assumption.
      symmetry. apply Z.add_compare_mono_l.
    + symmetry. apply Z.compare_lt_iff.
      assert (M : 2 ^ (x + 1) <= 2 ^ y) by (apply Z.pow_le_mono_r; lia).
      rewrite Z.pow_add_r in M by lia. lia.
    + symmetry. apply Z.compare_gt_iff.
      assert (M : 2 ^ (y + 1) <= 2 ^ x) by (apply Z.pow_le_mono_r; lia).
      rewrite Z.pow_add_r in M by lia. lia.
Qed.

(** ** Parsing the notation of a hand *)

Lemma rankChar_facts (r : Z) :
  In r Rs ->
  JS.is_space (Poker.rankChar r) = false
  /\ Ascii.eqb (Poker.rankChar r) " " = false
  /\ Rank (Some (Poker.rankChar r)) = Some r.
Proof.
  unfold Rs. cbn [In]. intros H.
  repeat (destruct H as [<-|H]; [repeat split; reflexivity|]). destruct H.
Qed.

Lemma suitChar_facts (s : Z) :
  In s Poker.suitCodes ->
  JS.is_space (Poker.suitChar s) = false
  /\ Ascii.eqb (Poker.suitChar s) " " = false
  /\ Suit (Some (JS.toLowerCase (Poker.suitChar s))) = Some s.
Proof.
  unfold Poker.suitCodes. cbn [In]. intros H.
  repeat (destruct H as [<-|H]; [repeat split; reflexivity|]). destruct H.
Qed.

Lemma notationChars_cons2 (c c' : Poker.card) (rest : Poker.hand) :
  Poker.notationChars (c :: c' :: rest)
  = Poker.rankChar (fst c) :: Poker.suitChar (snd c) :: " "%char
    :: Poker.notationChars (c' :: rest).
Proof. reflexivity. Qed.

Lemma split_notation (h : Poker.hand) :
  h <> [] -> Forall Poker.valid_card h ->
  JS.split_blank [] (Poker.notationChars h)
  = map (fun c => [Poker.rankChar (fst c); Poker.suitChar (snd c)]) h.
Proof.
  induction h as [|c h IH]; intros N V; [congruence|].
  inversion V as [|? ? [Vr Vs] Vh]; subst.
  destruct (rankChar_facts _ Vr) as [_ [Er _]].
  destruct (suitChar_facts _ Vs) as [_ [Es _]].
  destruct h as [|c' rest].
  - cbn [Poker.notationChars JS.split_blank map]. rewrite Er, Es. reflexivity.
  - rewrite notationChars_cons2. cbn [JS.split_blank]. rewrite Er, Es.
    cbn [Ascii.eqb Bool.eqb rev app].
    rewrite IH by (auto; discriminate). reflexivity.
Qed.

Lemma notationChars_last (h : Poker.hand) :
  h <> [] -> Forall Poker.valid_card h ->
  exists s c, Poker.notationChars h = (s ++ [c])%list
              /\ JS.is_space c = false.
Proof.
  induction h as [|c h IH]; intros N V; [congruence|].
  inversion V as [|? ? [Vr Vs] Vh]; subst.
  destruct h as [|c' rest].
  - exists [Poker.rankChar (fst c)], (Poker.suitChar (snd c)).
    split; [reflexivity|]. apply suitChar_facts, Vs.
  - destruct IH as [s [x [E Hx]]]; [discriminate|assumption|].
    rewrite notationChars_cons2, E.
    exists (Poker.rankChar (fst c) :: Poker.suitChar (snd c)
              :: " "%char :: s), x.
    split; [reflexivity|assumption].
Qed.

Lemma trim_notation (h : Poker.hand) :
  h <> [] -> Forall Poker.valid_card h ->
  JS.trim (Poker.notationChars h) = Poker.notationChars h.
Proof.
  intros N V. unfold JS.trim.
  assert (E : JS.dropWhile JS.is_space (Poker.notationChars h)
              = Poker.notationChars h).
  { destruct h as [|c h]; [congruence|].
    inversion V as [|? ? [Vr _] _]; subst.
    destruct (rankChar_facts _ Vr) as [Sp _].
    destruct h; cbn [Poker.notationChars JS.dropWhile]; rewrite Sp;
      reflexivity. }
  rewrite E. destruct (notationChars_last h N V) as [s [c [-> Hc]]].
  rewrite rev_app_distr. cbn [rev app JS.dropWhile]. rewrite Hc.
  cbn [rev]. rewrite rev_involutive. reflexivity.
Qed.

Lemma all_defined_ranks (h : Poker.hand) :
  Forall Poker.valid_card h ->
  all_defined
    (map (fun c => Rank (JS.charAt c 0))
       (map (fun c => [Poker.rankChar (fst c); Poker.suitChar (snd c)]) h))
  = Some (Poker.ranksOf h).
Proof.
  induction h as [|c h IH]; intros V; [reflexivity|].
  inversion V as [|? ? [Vr Vs] Vh]; subst.
  cbn [map all_defined Poker.ranksOf].
  change (JS.charAt [Poker.rankChar (fst c); Poker.suitChar (snd c)] 0)
    with (Some (Poker.rankChar (fst c))).
  destruct (rankChar_facts _ Vr) as [_ [_ ->]].
  fold (Poker.ranksOf h). rewrite IH by assumption. reflexivity.
Qed.

Lemma all_defined_suits (h : Poker.hand) :
  Forall Poker.valid_card h ->
  all_defined
    (map (fun c => Suit (option_map JS.toLowerCase (JS.charAt c 1)))
       (map (fun c => [Poker.rankChar (fst c); Poker.suitChar (snd c)]) h))
  = Some (Poker.suitsOf h).
Proof.
  induction h as [|c h IH]; intros V; [reflexivity|].
  inversion V as [|? ? [Vr Vs] Vh]; subst.
  cbn [map all_defined Poker.suitsOf].
  change (JS.charAt [Poker.rankChar (fst c); Poker.suitChar (snd c)] 1)
    with (Some (Poker.suitChar (snd c))).
  cbn [option_map].
  destruct (suitChar_facts _ Vs) as [_ [_ ->]].
  fold (Poker.suitsOf h). rewrite IH by assumption. reflexivity.
Qed.

(** The notation of a hand parses back to its ranks and suits. *)
Lemma parse_notation (h : Poker.hand) :
  h <> [] -> Forall Poker.valid_card h ->
  parseHandFromString (Poker.notation h)
  = Some (Poker.ranksOf h, Poker.suitsOf h).
Proof.
  intros N V. unfold parseHandFromString, Poker.notation. cbv zeta.
  rewrite list_ascii_of_string_of_list_ascii.
  rewrite trim_notation, split_notation by assumption.
  rewrite all_defined_ranks, all_defined_suits by assumption.
  reflexivity.
Qed.

Lemma valid_hand_parse (h : Poker.hand) :
  Poker.valid_hand h ->
  parseHandFromString (Poker.notation h)
  = Some (Poker.ranksOf h, Poker.suitsOf h).
Proof.
  intros [L [V _]]. apply parse_notation; [|assumption].
  intros E. subst. discriminate L.
Qed.

(** [compareHands] on the notations of two valid hands is the comparison
    of their analyses. *)
Lemma compareHands_valid (A B : Poker.hand) :
  Poker.valid_hand A -> Poker.valid_hand B ->
  exists a b,
    compareHands (Poker.notation A) (Poker.notation B) = compareAnalyses a b
    /\ handRank a = Poker.category A /\ handRank b = Poker.category B
    /\ btRanks a = countRanksBitwise (Poker.ranksOf A)
    /\ btRanks b = countRanksBitwise (Poker.ranksOf B)
    /\ (handRank a = handRank b -> btCount a = btCount b).
Proof.
  intros VA VB.
  destruct (rankPokerHand_category A VA) as [a [Ea [Ca [Ra [_ Sa]]]]].
  destruct (rankPokerHand_category B VB) as [b [Eb [Cb [Rb [_ Sb]]]]].
  exists a, b. unfold compareHands.
  rewrite (valid_hand_parse A VA), (valid_hand_parse B VB), Ea, Eb.
  repeat (split; [auto; fail|]).
  intros E. rewrite Sa, Sb, E. reflexivity.
Qed.

(** ** Hands without duplicates *)

Lemma sameRanks_eq (a b : list Z) : Poker.sameRanks a b = true -> a = b.
Proof.
  revert b. induction a as [|x a IH]; intros [|y b] H;
    try discriminate H; [reflexivity|].
  cbn in H. apply andb_true_iff in H. destruct H as [E H].
  apply Z.eqb_eq in E. subst. f_equal. apply IH, H.
Qed.

Lemma category_of_distinct (h : Poker.hand) :
  Poker.valid_hand h -> NoDup (Poker.ranksOf h) ->
  Poker.category h
  = if Poker.isFlush (Poker.suitsOf h) && Poker.isBroadway (Poker.ranksOf h)
    then HandRank.royalFlush
    else if Poker.isFlush (Poker.suitsOf h)
            && Poker.isStraight (Poker.ranksOf h)
         then HandRank.straightFlush
    else if Poker.isFlush (Poker.suitsOf h) then HandRank.flush
    else if Poker.isStraight (Poker.ranksOf h) then HandRank.straight
    else HandRank.highCard.
Proof.
  intros V N. destruct (valid_hand_ranks h V) as [_ R].
  apply (noDuplicates_numHeld _ R) in N. destruct N as [E2 [E3 E4]].
  unfold Poker.category.
  rewrite (numHeld_0 _ _ E2), (numHeld_0 _ _ E3), (numHeld_0 _ _ E4).
  reflexivity.
Qed.

Lemma distinct_of_category (h : Poker.hand) :
  Poker.valid_hand h ->
  In (Poker.category h)
    [HandRank.royalFlush; HandRank.straightFlush; HandRank.flush;
     HandRank.straight; HandRank.highCard] ->
  NoDup (Poker.ranksOf h).
Proof.
  intros V C. destruct (valid_hand_ranks h V) as [_ R].
  apply (noDuplicates_numHeld _ R).
  unfold Poker.category in C. unfold Poker.numHeld.
  destruct (Poker.ranksHeld 4 (Poker.ranksOf h)) as [|? ?];
    [|cbn in C; intuition discriminate].
  destruct (Poker.ranksHeld 3 (Poker.ranksOf h)) as [|? ?];
    [|destruct (Poker.ranksHeld 2 (Poker.ranksOf h));
      cbn in C; intuition discriminate].
  destruct (Poker.ranksHeld 2 (Poker.ranksOf h)) as [|? [|? ?]];
    [auto|cbn in C; intuition discriminate|cbn in C; intuition discriminate].
Qed.

(** What the comparator needs to know of a hand without duplicates: its
    signature is the sum of the bits of its ranks [K]; the signature is the
    wheel constant exactly for the wheel [w]; and how category and tie-break
    ranks sit with [K] and [w]. *)
Lemma distinct_profile (h : Poker.hand) :
  Poker.valid_hand h -> NoDup (Poker.ranksOf h) ->
  exists (K : list Z) (w : bool),
    w = Poker.isWheel (Poker.ranksOf h)
    /\ countRanksBitwise (Poker.ranksOf h) = sumPow K
    /\ (countRanksBitwise (Poker.ranksOf h) =? WHEEL_HASH) = w
    /\ Poker.tiebreak h = (if w then [5; 4; 3; 2; 1] else K)
    /\ descending K /\ Forall (fun r => 0 <= r) K
    /\ (Poker.category h = HandRank.royalFlush ->
        K = Poker.broadwayRanks /\ w = false)
    /\ (Poker.category h = HandRank.flush
        \/ Poker.category h = HandRank.highCard -> w = false)
    /\ (Poker.category h = HandRank.straightFlush
        \/ Poker.category h = HandRank.straight ->
        w = false -> exists x K', K = x :: K' /\ 6 <= x)
    /\ In (Poker.category h)
         [HandRank.royalFlush; HandRank.straightFlush; HandRank.flush;
          HandRank.straight; HandRank.highCard].
Proof.
  intros V N. destruct (valid_hand_ranks h V) as [L R].
  exists (Poker.ranksHeld 1 (Poker.ranksOf h)),
    (Poker.isWheel (Poker.ranksOf h)).
  destruct (signature_tests _ L R N) as [_ [S2 _]]. cbv zeta in S2.
  pose proof (signatureAgrees_held 1 (Poker.ranksOf h)) as A.
  unfold signatureAgrees in A. cbv zeta in A.
  rewrite !andb_true_iff in A. destruct A as [_ A5].
  pose proof (descending_held 1 (Poker.ranksOf h)) as D.
  pose proof (ranksHeld_nonneg 1 (Poker.ranksOf h)) as P.
  rewrite (category_of_distinct h V N).
  assert (T : Poker.tiebreak h
              = if Poker.isWheel (Poker.ranksOf h) then [5; 4; 3; 2; 1]
                else Poker.ranksHeld 1 (Poker.ranksOf h)).
  { apply (noDuplicates_numHeld _ R) in N. destruct N as [E2 [E3 E4]].
    unfold Poker.tiebreak.
    rewrite (numHeld_0 _ _ E2), (numHeld_0 _ _ E3), (numHeld_0 _ _ E4).
    reflexivity. }
  assert (W : Poker.isWheel (Poker.ranksOf h) = true ->
              Poker.isStraight (Poker.ranksOf h) = true
              /\ Poker.isBroadway (Poker.ranksOf h) = false).
  { unfold Poker.isWheel, Poker.isStraight, Poker.isBroadway.
    intros E. apply sameRanks_eq in E. rewrite E. split; reflexivity. }
  assert (B : Poker.isBroadway (Poker.ranksOf h) = true ->
              Poker.ranksHeld 1 (Poker.ranksOf h) = Poker.broadwayRanks
              /\ Poker.isWheel (Poker.ranksOf h) = false).
  { unfold Poker.isWheel, Poker.isBroadway.
    intros E. apply sameRanks_eq in E. rewrite E. split; reflexivity. }
  assert (H6 : Poker.isStraight (Poker.ranksOf h) = true ->
               Poker.isWheel (Poker.ranksOf h) = false ->
               exists x K', Poker.ranksHeld 1 (Poker.ranksOf h) = x :: K'
                            /\ 6 <= x).
  { unfold Poker.isStraight, Poker.isWheel. intros E1 E2.
    rewrite E1, E2 in A5. cbn [negb orb] in A5.
    destruct (Poker.ranksHeld 1 (Poker.ranksOf h)) as [|x K'];
      [discriminate A5|].
    exists x, K'. split; [reflexivity|apply Z.leb_le, A5]. }
  split; [reflexivity|].
  split; [rewrite signature_of_distinct by assumption;
          apply lorAll_sumPow; assumption|].
  do 4 (split; [assumption|]).
  destruct (Poker.isWheel (Poker.ranksOf h)) eqn:Ew;
    [destruct (W eq_refl) as [Es Eb]; rewrite Es, Eb in *
    |destruct (Poker.isStraight (Poker.ranksOf h)) eqn:Es;
     destruct (Poker.isBroadway (Poker.ranksOf h)) eqn:Eb];
    destruct (Poker.isFlush (Poker.suitsOf h)); cbn [andb In];
    (split; [intros E; try discriminate E; apply B; reflexivity|]);
    (split; [intros [E|E]; try discriminate E; reflexivity|]);
    (split; [intros [E|E] E'; try discriminate E; try discriminate E';
             apply H6; reflexivity|]);
    auto 10.
Qed.

(** ** The comparator *)

Lemma value_injective (c c' : HandRank.t) :
  HandRank.value c = HandRank.value c' -> c = c'.
Proof. destruct c, c'; cbn; intros E; try reflexivity; discriminate E. Qed.

Lemma compareAnalyses_differ (a b : HandAnalysis) :
  handRank a <> handRank b ->
  compareAnalyses a b
  = Some (HandRank.value (handRank a) - HandRank.value (handRank b)).
Proof.
  intros N. unfold compareAnalyses, HandRank.eqb.
  destruct (Z.eqb_spec (HandRank.value (handRank a))
              (HandRank.value (handRank b))) as [E|E]; [|reflexivity].
  destruct (N (value_injective _ _ E)).
Qed.

Lemma compareAnalyses_royal (a b : HandAnalysis) :
  handRank a = HandRank.royalFlush -> handRank b = HandRank.royalFlush ->
  compareAnalyses a b = Some 0.
Proof. intros Ea Eb. unfold compareAnalyses. rewrite Ea, Eb. reflexivity. Qed.

Lemma compareAnalyses_signature (a b : HandAnalysis) :
  handRank a = handRank b ->
  handRank a = HandRank.flush \/ handRank a = HandRank.highCard ->
  compareAnalyses a b = Some (btRanks a - btRanks b).
Proof.
  intros E [Ea|Ea]; unfold compareAnalyses; rewrite <- E, Ea; reflexivity.
Qed.

Lemma compareAnalyses_straights (a b : HandAnalysis) :
  handRank a = handRank b ->
  handRank a = HandRank.straightFlush \/ handRank a = HandRank.straight ->
  compareAnalyses a b
  = if (btRanks a =? WHEEL_HASH) && (btRanks b =? WHEEL_HASH) then Some 0
    else if btRanks a =? WHEEL_HASH then Some (-1)
    else if btRanks b =? WHEEL_HASH then Some 1
    else Some (btRanks a - btRanks b).
Proof.
  intros E [Ea|Ea]; unfold compareAnalyses; rewrite <- E, Ea; reflexivity.
Qed.

(** C7: two valid hands that are both straights or both straight flushes.
    [compareHands] answers 0 when both are wheels, -1 (hand B stronger) when
    only hand A is a wheel and 1 (hand A stronger) when only hand B is; and
    on the wheel 2s As 4s 3s 5d against the six-high straight
    4s 5c 7d 6s 3s it answers -1, the six-high straight the stronger,
    although the signature of the wheel is the larger number. *)
Theorem compareHands_wheel (A B : Poker.hand) :
  Poker.valid_hand A -> Poker.valid_hand B ->
  Poker.category A = Poker.category B ->
  Poker.category A = HandRank.straightFlush
  \/ Poker.category A = HandRank.straight ->
  let wheelA := Poker.isWheel (Poker.ranksOf A) in
  let wheelB := Poker.isWheel (Poker.ranksOf B) in
  (wheelA = true -> wheelB = true ->
   compareHands (Poker.notation A) (Poker.notation B) = Some 0)
  /\ (wheelA = true -> wheelB = false ->
      compareHands (Poker.notation A) (Poker.notation B) = Some (-1))
  /\ (wheelA = false -> wheelB = true ->
      compareHands (Poker.notation A) (Poker.notation B) = Some 1)
  /\ verdict 0 = Tie /\ verdict (-1) = BStronger /\ verdict 1 = AStronger
  /\ compareHands "2s As 4s 3s 5d" "4s 5c 7d 6s 3s" = Some (-1)
  /\ countRanksBitwise [4; 5; 7; 6; 3] < countRanksBitwise [2; 14; 4; 3; 5].
Proof.
  intros VA VB E C.
  assert (NA : NoDup (Poker.ranksOf A)).
  { apply distinct_of_category; [assumption|].
    destruct C as [-> | ->]; cbn [In]; auto. }
  assert (NB : NoDup (Poker.ranksOf B)).
  { apply distinct_of_category; [assumption|]. rewrite <- E.
    destruct C as [-> | ->]; cbn [In]; auto. }
  destruct (distinct_profile A VA NA) as [KA [wA [<- [_ [WA _]]]]].
  destruct (distinct_profile B VB NB) as [KB [wB [<- [_ [WB _]]]]].
  destruct (compareHands_valid A B VA VB)
    as [a [b [-> [Ca [Cb [Ra [Rb _]]]]]]].
  rewrite compareAnalyses_straights by congruence.
  rewrite Ra, Rb, WA, WB. cbv zeta.
  split; [intros -> ->; reflexivity|].
  split; [intros -> ->; reflexivity|].
  split; [intros -> ->; reflexivity|].
  do 3 (split; [reflexivity|]).
  split; vm_compute; reflexivity.
Qed.

Lemma sub_sign (x y : Z) :
  ((x ?= y) = Gt -> 0 < x - y)
  /\ ((x ?= y) = Eq -> x - y = 0)
  /\ ((x ?= y) = Lt -> x - y < 0).
Proof.
  destruct (Z.compare_spec x y); repeat split; intros E;
    try discriminate E; lia.
Qed.

Lemma compare_same_category (A B : Poker.hand) :
  Poker.category A = Poker.category B ->
  Poker.compare A B = Poker.lexCompare (Poker.tiebreak A) (Poker.tiebreak B).
Proof.
  intros E. unfold Poker.compare. rewrite E, Z.compare_refl. reflexivity.
Qed.

Lemma analysisToInt_returns (handRank : HandRank.t) (bitCount : Z) :
  In handRank [HandRank.pair; HandRank.twoPair; HandRank.trips;
               HandRank.fullHouse; HandRank.quads] ->
  exists score, analysisToInt handRank bitCount = Some score.
Proof.
  intros H. unfold analysisToInt.
  destruct (analyzers handRank) as [analyze|] eqn:E.
  - destruct (analyzers_return handRank analyze bitCount E) as [l ->].
    eauto.
  - cbn [In] in H. decompose [or] H; subst; try discriminate E.
    contradiction.
Qed.

(** X5: inside a category with duplicates [compareHands] gives the analyzers
    the signature reduced modulo 15, the same for both hands, and not the
    accumulator: it answers 0 whatever the ranks. *)
Lemma compareHands_same_duplicate_category (A B : Poker.hand) :
  Poker.valid_hand A -> Poker.valid_hand B ->
  Poker.category A = Poker.category B ->
  In (Poker.category A)
    [HandRank.pair; HandRank.twoPair; HandRank.trips;
     HandRank.fullHouse; HandRank.quads] ->
  compareHands (Poker.notation A) (Poker.notation B) = Some 0.
Proof.
  intros VA VB E C.
  destruct (compareHands_valid A B VA VB)
    as [a [b [-> [Ca [Cb [_ [_ S]]]]]]].
  assert (Eab : handRank a = handRank b) by congruence.
  rewrite <- Ca in C.
  destruct (analysisToInt_returns (handRank a) (btCount a) C) as [x X].
  unfold compareAnalyses. rewrite <- Eab, <- (S Eab), X.
  cbn [In] in C.
  decompose [or] C; try contradiction;
    match goal with H : _ = handRank a |- _ => rewrite <- H end;
    cbn; rewrite Z.sub_diag; reflexivity.
Qed.

(** C1, as stated, fails: the quads Jh Jc Jd Js 2h are stronger than the full
    house 8h 8c 8d 9s 9h, and [compareHands] answers 1, not a negative
    number. *)
Lemma compareHands_not_negative_for_stronger_A :
  Poker.valid_hand quadsHand /\ Poker.valid_hand boatHand
  /\ Poker.notation quadsHand = "Jh Jc Jd Js 2h"%string
  /\ Poker.notation boatHand = "8h 8c 8d 9s 9h"%string
  /\ Poker.compare quadsHand boatHand = Gt
  /\ compareHands "Jh Jc Jd Js 2h" "8h 8c 8d 9s 9h" = Some 1
  /\ ~ (1 < 0).
Proof.
  split; [apply validHand_sound; vm_compute; reflexivity|].
  split; [apply validHand_sound; vm_compute; reflexivity|].
  do 4 (split; [vm_compute; reflexivity|]). lia.
Qed.

(** C1, amended: for valid hands A and B whose categories differ, or which
    both have no duplicated rank, [compareHands] returns a positive number
    when A is the stronger hand, zero on a tie and a negative number when B
    is the stronger hand. *)
Theorem compareHands_sign (A B : Poker.hand) :
  Poker.valid_hand A -> Poker.valid_hand B ->
  Poker.category A <> Poker.category B
  \/ (Poker.noDuplicates (Poker.ranksOf A)
      /\ Poker.noDuplicates (Poker.ranksOf B)) ->
  exists result,
    compareHands (Poker.notation A) (Poker.notation B) = Some result
    /\ (Poker.compare A B = Gt -> 0 < result)
    /\ (Poker.compare A B = Eq -> result = 0)
    /\ (Poker.compare A B = Lt -> result < 0).
Proof.
  intros VA VB H.
  destruct (compareHands_valid A B VA VB)
    as [a [b [-> [Ca [Cb [Ra [Rb _]]]]]]].
  destruct (Z.eq_dec (HandRank.value (Poker.category A))
              (HandRank.value (Poker.category B))) as [E|E].
  - (* the same category: no duplicates on either side *)
    apply value_injective in E.
    destruct H as [H|[NA NB]]; [destruct (H E)|].
    rewrite (compare_same_category A B E).
    destruct (distinct_profile A VA NA)
      as [KA [wA [_ [SA [WA [TA [DA [PA [RFA [FHA [STA CA]]]]]]]]]]].
    destruct (distinct_profile B VB NB)
      as [KB [wB [_ [SB [WB [TB [DB [PB [RFB [FHB [STB _]]]]]]]]]]].
    rewrite TA, TB.
    assert (Plain : wA = false -> wB = false ->
              exists result,
                Some (btRanks a - btRanks b) = Some result
                /\ (Poker.lexCompare KA KB = Gt -> 0 < result)
                /\ (Poker.lexCompare KA KB = Eq -> result = 0)
                /\ (Poker.lexCompare KA KB = Lt -> result < 0)).
    { intros _ _. eexists. split; [reflexivity|].
      rewrite Ra, Rb, SA, SB, (lexCompare_sumPow KA KB) by assumption.
      apply sub_sign. }
    cbn [In] in CA.
    destruct CA as [C|[C|[C|[C|[C|[]]]]]]; symmetry in C.
    + (* royal flushes *)
      rewrite (compareAnalyses_royal a b ltac:(congruence) ltac:(congruence)).
      destruct (RFA C) as [-> ->].
      destruct (RFB ltac:(congruence)) as [-> ->].
      exists 0. repeat split; intros X; try reflexivity; discriminate X.
    + (* straight flushes *)
      rewrite (compareAnalyses_straights a b ltac:(congruence)
                 ltac:(left; congruence)).
      rewrite Ra, Rb, WA, WB.
      destruct wA, wB; cbn [andb].
      * exists 0. repeat split; intros X; try reflexivity; discriminate X.
      * destruct (STB ltac:(left; congruence) eq_refl) as [x [K' [-> Hx]]].
        exists (-1). cbn [Poker.lexCompare].
        destruct (Z.compare_spec 5 x); try lia.
        repeat split; intros X; try discriminate X; lia.
      * destruct (STA ltac:(left; congruence) eq_refl) as [x [K' [-> Hx]]].
        exists 1. cbn [Poker.lexCompare].
        destruct (Z.compare_spec x 5); try lia.
        repeat split; intros X; try discriminate X; lia.
      * rewrite <- Ra, <- Rb. apply Plain; reflexivity.
    + (* flushes *)
      rewrite (compareAnalyses_signature a b ltac:(congruence)
                 ltac:(left; congruence)).
      rewrite (FHA ltac:(left; congruence)), (FHB ltac:(left; congruence)).
      apply Plain; [apply FHA|apply FHB]; left; congruence.
    + (* straights *)
      rewrite (compareAnalyses_straights a b ltac:(congruence)
                 ltac:(right; congruence)).
      rewrite Ra, Rb, WA, WB.
      destruct wA, wB; cbn [andb].
      * exists 0. repeat split; intros X; try reflexivity; discriminate X.
      * destruct (STB ltac:(right; congruence) eq_refl) as [x [K' [-> Hx]]].
        exists (-1). cbn [Poker.lexCompare].
        destruct (Z.compare_spec 5 x); try lia.
        repeat split; intros X; try discriminate X; lia.
      * destruct (STA ltac:(right; congruence) eq_refl) as [x [K' [-> Hx]]].
        exists 1. cbn [Poker.lexCompare].
        destruct (Z.compare_spec x 5); try lia.
        repeat split; intros X; try discriminate X; lia.
      * rewrite <- Ra, <- Rb. apply Plain; reflexivity.
    + (* high cards *)
      rewrite (compareAnalyses_signature a b ltac:(congruence)
                 ltac:(right; congruence)).
      rewrite (FHA ltac:(right; congruence)), (FHB ltac:(right; congruence)).
      apply Plain; [apply FHA|apply FHB]; right; congruence.
  - (* different categories *)
    rewrite compareAnalyses_differ by congruence.
    eexists. split; [reflexivity|].
    unfold Poker.compare. rewrite Ca, Cb.
    destruct (Z.compare_spec (HandRank.value (Poker.category A))
                (HandRank.value (Poker.category B)));
      repeat split; intros X; try discriminate X; lia.
Qed.

(** ** The theorems at hands of the test suite *)

Lemma compareHands_sign_witness :
  exists result,
    compareHands (Poker.notation quadsHand) (Poker.notation boatHand)
    = Some result
    /\ (Poker.compare quadsHand boatHand = Gt -> 0 < result)
    /\ (Poker.compare quadsHand boatHand = Eq -> result = 0)
    /\ (Poker.compare quadsHand boatHand = Lt -> result < 0).
Proof.
  apply (compareHands_sign quadsHand boatHand).
  - apply validHand_sound. vm_compute. reflexivity.
  - apply validHand_sound. vm_compute. reflexivity.
  - left. vm_compute. discriminate.
Defined.

Lemma compareHands_wheel_witness :
  let wheelA := Poker.isWheel (Poker.ranksOf wheelHand) in
  let wheelB := Poker.isWheel (Poker.ranksOf sixHighHand) in
  (wheelA = true -> wheelB = true ->
   compareHands (Poker.notation wheelHand) (Poker.notation sixHighHand)
   = Some 0)
  /\ (wheelA = true -> wheelB = false ->
      compareHands (Poker.notation wheelHand) (Poker.notation sixHighHand)
      = Some (-1))
  /\ (wheelA = false -> wheelB = true ->
      compareHands (Poker.notation wheelHand) (Poker.notation sixHighHand)
      = Some 1)
  /\ verdict 0 = Tie /\ verdict (-1) = BStronger /\ verdict 1 = AStronger
  /\ compareHands "2s As 4s 3s 5d" "4s 5c 7d 6s 3s" = Some (-1)
  /\ countRanksBitwise [4; 5; 7; 6; 3] < countRanksBitwise [2; 14; 4; 3; 5].
Proof.
  apply (compareHands_wheel wheelHand sixHighHand).
  - apply validHand_sound. vm_compute. reflexivity.
  - apply validHand_sound. vm_compute. reflexivity.
  - vm_compute. reflexivity.
  - right. vm_compute. reflexivity.
Defined.

Lemma wheelHand_distinct : Poker.noDuplicates (Poker.ranksOf wheelHand).
Proof.
  apply NoDup_count. intros r.
  change (Poker.ranksOf wheelHand) with [2; 14; 4; 3; 5].
  rewrite !count_cons. change (count r []) with 0.
  repeat match goal with |- context [Z.eq_dec ?a r] =>
           destruct (Z.eq_dec a r) end; lia.
Qed.

Lemma rankPokerHand_priority_witness :
  let S := countRanksBitwise (Poker.ranksOf wheelHand) in
  let allSuitsEqual := Poker.isFlush (Poker.suitsOf wheelHand) in
  let isStraight := (S / Z.land S (- S) =? 31) || (S =? 0x403C) in
  isStraight = Poker.isStraight (Poker.ranksOf wheelHand)
  /\ option_map handRank
       (rankPokerHand (Poker.ranksOf wheelHand) (Poker.suitsOf wheelHand))
     = Some (if allSuitsEqual && (S =? 0x7C00) then HandRank.royalFlush
             else if isStraight && allSuitsEqual then HandRank.straightFlush
             else if allSuitsEqual then HandRank.flush
             else if isStraight then HandRank.straight
             else HandRank.highCard).
Proof.
  apply (rankPokerHand_priority wheelHand).
  - apply validHand_sound. vm_compute. reflexivity.
  - exact wheelHand_distinct.
Defined.

Lemma rankPokerHand_order_independent_witness :
  exists a a',
    rankPokerHand (Poker.ranksOf twoPairHand) (Poker.suitsOf twoPairHand)
    = Some a
    /\ rankPokerHand
         (Poker.ranksOf [(8, 8); (8, 1); (11, 2); (9, 1); (9, 8)])
         (Poker.suitsOf [(8, 8); (8, 1); (11, 2); (9, 1); (9, 8)])
       = Some a'
    /\ handRank a' = handRank a
    /\ btRanks a' = btRanks a /\ btCount a' = btCount a.
Proof.
  apply (rankPokerHand_order_independent twoPairHand
           [(8, 8); (8, 1); (11, 2); (9, 1); (9, 8)]).
  - apply validHand_sound. vm_compute. reflexivity.
  - apply perm_swap.
Defined.

Lemma duplicate_signature_classifies_witness :
  let ranks := Poker.ranksOf twoPairHand in
  let sig := JS.rem (countDuplicatesBitwise ranks) 15 in
  In sig [1; 5; 6; 7; 9; 10]
  /\ (sig = 5 <-> Poker.noDuplicates ranks)
  /\ (sig = 6 <-> Poker.onePair ranks)
  /\ (sig = 7 <-> Poker.twoPairs ranks)
  /\ (sig = 9 <-> Poker.threeOfAKind ranks)
  /\ (sig = 10 <-> Poker.fullHouse ranks)
  /\ (sig = 1 <-> Poker.fourOfAKind ranks)
  /\ (sig <> 5 ->
      exists a, rankPokerHand ranks (Poker.suitsOf twoPairHand) = Some a
        /\ btCount a = sig
        /\ (Poker.onePair ranks -> handRank a = HandRank.pair)
        /\ (Poker.twoPairs ranks -> handRank a = HandRank.twoPair)
        /\ (Poker.threeOfAKind ranks -> handRank a = HandRank.trips)
        /\ (Poker.fullHouse ranks -> handRank a = HandRank.fullHouse)
        /\ (Poker.fourOfAKind ranks -> handRank a = HandRank.quads)).
Proof.
  apply (duplicate_signature_classifies twoPairHand).
  apply validHand_sound. vm_compute. reflexivity.
Defined.

(** * Further properties of the evaluator *)

(** ** Classification and comparison of valid hands *)

(** X1: on every valid hand [rankPokerHand] returns, and its category is the
    one the rules of poker give the hand. *)
Theorem rankPokerHand_follows_the_rules (h : Poker.hand) :
  Poker.valid_hand h ->
  option_map handRank (rankPokerHand (Poker.ranksOf h) (Poker.suitsOf h))
  = Some (Poker.category h).
Proof.
  intros V. destruct (rankPokerHand_category h V) as [a [-> [<- _]]].
  reflexivity.
Qed.

Lemma rankPokerHand_follows_the_rules_witness :
  option_map handRank
    (rankPokerHand (Poker.ranksOf wheelHand) (Poker.suitsOf wheelHand))
  = Some (Poker.category wheelHand).
Proof.
  apply (rankPokerHand_follows_the_rules wheelHand).
  apply validHand_sound. vm_compute. reflexivity.
Defined.

(** Swapping the two analyses negates the result, or throws on both
    sides. *)
Lemma compareAnalyses_swap (a b : HandAnalysis) :
  compareAnalyses b a = option_map Z.opp (compareAnalyses a b).
Proof.
  destruct a as [ha ea ra ca], b as [hb eb rb cb].
  unfold compareAnalyses. cbn [handRank btRanks btCount].
  destruct ha, hb; unfold HandRank.eqb;
    cbn [HandRank.value Z.eqb Pos.eqb negb orb andb option_map Z.sub
         Z.opp Z.add Z.pos_sub Pos.add Pos.succ Z.succ_double Z.pred_double
         Z.double Pos.pred_double];
    try reflexivity;
    try (f_equal; lia);
    try (destruct (ra =? WHEEL_HASH), (rb =? WHEEL_HASH);
         cbn [andb option_map Z.opp]; try reflexivity; f_equal; lia);
    match goal with
    | |- context [analysisToInt ?c ca] =>
        destruct (analysisToInt c ca), (analysisToInt c cb);
        cbn [option_map]; try reflexivity; f_equal; lia
    end.
Qed.


(** X3: a valid hand ties with itself. *)
Theorem compareHands_reflexive (h : Poker.hand) :
  Poker.valid_hand h ->
  compareHands (Poker.notation h) (Poker.notation h) = Some 0.
Proof.
  intros V. unfold compareHands. rewrite (valid_hand_parse h V).
  destruct (rankPokerHand_category h V) as [a [-> [C _]]].
  pose proof (compareAnalyses_swap a a) as S.
  destruct (compareAnalyses a a) as [z|] eqn:E.
  - cbn in S. f_equal. injection S as S. lia.
  - exfalso. revert E. unfold compareAnalyses.
    destruct (handRank a) eqn:H; unfold HandRank.eqb;
      cbn [HandRank.value Z.eqb Pos.eqb negb orb andb];
      try discriminate;
      try (destruct (btRanks a =? WHEEL_HASH); discriminate);
      match goal with
      | |- context [analysisToInt ?c (btCount a)] =>
          destruct (analysisToInt_returns c (btCount a)) as [x ->];
          [cbn [In]; tauto|discriminate]
      end.
Qed.

Lemma compareHands_reflexive_witness :
  compareHands (Poker.notation twoPairHand) (Poker.notation twoPairHand)
  = Some 0.
Proof.
  apply (compareHands_reflexive twoPairHand).
  apply validHand_sound. vm_compute. reflexivity.
Defined.

(** X4: when the categories of two valid hands differ, [compareHands]
    returns the difference of the numbers of the categories. *)
Theorem compareHands_category_difference (A B : Poker.hand) :
  Poker.valid_hand A -> Poker.valid_hand B ->
  Poker.category A <> Poker.category B ->
  compareHands (Poker.notation A) (Poker.notation B)
  = Some (HandRank.value (Poker.category A)
          - HandRank.value (Poker.category B)).
Proof.
  intros VA VB N.
  destruct (compareHands_valid A B VA VB) as [a [b [-> [Ca [Cb _]]]]].
  rewrite compareAnalyses_differ by congruence.
  rewrite Ca, Cb. reflexivity.
Qed.

Lemma compareHands_category_difference_witness :
  compareHands (Poker.notation quadsHand) (Poker.notation boatHand)
  = Some (HandRank.value (Poker.category quadsHand)
          - HandRank.value (Poker.category boatHand)).
Proof.
  apply (compareHands_category_difference quadsHand boatHand).
  - apply validHand_sound. vm_compute. reflexivity.
  - apply validHand_sound. vm_compute. reflexivity.
  - vm_compute. discriminate.
Defined.

Lemma compareHands_same_duplicate_category_witness :
  compareHands (Poker.notation twoPairHand) (Poker.notation acesUpHand)
  = Some 0.
Proof.
  apply (compareHands_same_duplicate_category twoPairHand acesUpHand).
  - apply validHand_sound. vm_compute. reflexivity.
  - apply validHand_sound. vm_compute. reflexivity.
  - vm_compute. reflexivity.
  - vm_compute. tauto.
Defined.

(** ** Parsing *)

Lemma dropWhile_blanks (n : nat) (s : list ascii) :
  JS.dropWhile JS.is_space (repeat " "%char n ++ s)%list
  = JS.dropWhile JS.is_space s.
Proof. induction n as [|n IH]; [reflexivity|exact IH]. Qed.

Lemma dropWhile_notation (h : Poker.hand) (s : list ascii) :
  h <> [] -> Forall Poker.valid_card h ->
  JS.dropWhile JS.is_space (Poker.notationChars h ++ s)%list
  = (Poker.notationChars h ++ s)%list.
Proof.
  intros N V. destruct h as [|c h]; [congruence|].
  inversion V as [|? ? [Vr _] _]; subst.
  destruct (rankChar_facts _ Vr) as [Sp _].
  destruct h; cbn [Poker.notationChars JS.dropWhile app]; rewrite Sp;
    reflexivity.
Qed.

Lemma trim_padded_notation (h : Poker.hand) (lead trail : nat) :
  h <> [] -> Forall Poker.valid_card h ->
  JS.trim (repeat " "%char lead ++ Poker.notationChars h
           ++ repeat " "%char trail)%list
  = Poker.notationChars h.
Proof.
  intros N V. unfold JS.trim.
  rewrite dropWhile_blanks, dropWhile_notation by assumption.
  rewrite rev_app_distr, rev_repeat, dropWhile_blanks.
  destruct (notationChars_last h N V) as [s [c [-> Hc]]].
  rewrite rev_app_distr. cbn [rev app JS.dropWhile]. rewrite Hc.
  cbn [rev]. rewrite rev_involutive. reflexivity.
Qed.

(** X6: the notation of one or more valid cards, with any number of blanks
    before and after it, parses to the ranks and the suits of the cards. *)
Theorem parseHandFromString_notation (h : Poker.hand) (lead trail : nat) :
  h <> [] -> Forall Poker.valid_card h ->
  parseHandFromString
    (string_of_list_ascii
       (repeat " "%char lead ++ Poker.notationChars h
        ++ repeat " "%char trail))
  = Some (Poker.ranksOf h, Poker.suitsOf h).
Proof.
  intros N V. unfold parseHandFromString. cbv zeta.
  rewrite list_ascii_of_string_of_list_ascii.
  rewrite trim_padded_notation, split_notation by assumption.
  rewrite all_defined_ranks, all_defined_suits by assumption.
  reflexivity.
Qed.

Lemma parseHandFromString_notation_witness :
  parseHandFromString
    (string_of_list_ascii
       (repeat " "%char 2 ++ Poker.notationChars wheelHand
        ++ repeat " "%char 1))
  = Some (Poker.ranksOf wheelHand, Poker.suitsOf wheelHand).
Proof.
  apply (parseHandFromString_notation wheelHand 2 1).
  - discriminate.
  - apply validHand_sound. vm_compute. reflexivity.
Defined.

(** ** The rank signature on arrays of any length *)

(** X7: on five ranks from 0 to 30, bit [n] of the signature is set exactly
    when [n] is one of the ranks. *)
Theorem countRanksBitwise_bits (ranks : list Z) (n : Z) :
  Datatypes.length ranks = 5%nat -> Forall (fun r => 0 <= r <= 30) ranks ->
  0 <= n ->
  (Z.testbit (countRanksBitwise ranks) n = true <-> In n ranks).
Proof.
  intros L H Hn. rewrite countRanksBitwise_lorAll by assumption.
  rewrite lorAll_testbit;
    [apply existsb_eqb_In|assumption|].
  eapply Forall_impl; [|exact H]. cbv beta. intros; lia.
Qed.

Lemma countRanksBitwise_bits_witness :
  Z.testbit (countRanksBitwise [8; 8; 11; 9; 9]) 11 = true
  <-> In 11 [8; 8; 11; 9; 9].
Proof.
  apply (countRanksBitwise_bits [8; 8; 11; 9; 9] 11).
  - reflexivity.
  - repeat (apply Forall_cons; [lia|]). apply Forall_nil.
  - lia.
Defined.



Lemma odd_ToInt32 (x : Z) : Z.odd (JS.ToInt32 x) = Z.odd x.
Proof.
  rewrite <- !Z.bit0_odd. apply Z.b2z_inj. rewrite !Z.bit0_mod.
  unfold JS.ToInt32.
  change (2 ^ 31) with 2147483648. change (2 ^ 32) with 4294967296.
  destruct (Z.leb_spec 2147483648 (x mod 4294967296));
    Z.div_mod_to_equations; lia.
Qed.

Lemma odd_bor (x y : Z) : Z.odd (JS.bor x y) = Z.odd x || Z.odd y.
Proof.
  unfold JS.bor. rewrite <- !Z.bit0_odd, Z.lor_spec, !Z.bit0_odd.
  rewrite !odd_ToInt32. reflexivity.
Qed.

Lemma odd_shl_one (r : Z) : 1 <= r <= 30 -> Z.odd (JS.shl 1 r) = false.
Proof.
  intros H. rewrite shl_one by lia.
  replace r with (Z.succ (r - 1)) by lia.
  rewrite Z.pow_succ_r by lia. apply Z.odd_even.
Qed.

(** X9: an entry that is missing counts as [1 << undefined], which is 1.
    So for ranks from 1 to 30 the signature is odd exactly when the array
    has fewer than five entries. *)
Theorem countRanksBitwise_short_array (ranks : list Z) :
  Forall (fun r => 1 <= r <= 30) ranks ->
  (Z.odd (countRanksBitwise ranks) = true
   <-> (Datatypes.length ranks < 5)%nat).
Proof.
  intros H. unfold countRanksBitwise.
  destruct ranks as [|a [|b [|c [|d [|e rest]]]]];
    repeat match goal with
           | H : Forall _ (_ :: _) |- _ => inversion H; clear H; subst
           end;
    cbn [fold_left JS.index nth_error JS.operand Datatypes.length];
    rewrite !odd_bor, ?odd_shl_one by assumption;
    change (Z.odd (JS.shl 1 0)) with true; change (Z.odd 0) with false;
    cbn [orb]; rewrite ?orb_true_r; split; intros X;
    try reflexivity; try discriminate X; lia.
Qed.

Lemma countRanksBitwise_short_array_witness :
  Z.odd (countRanksBitwise [14; 13; 12]) = true
  <-> (Datatypes.length [14; 13; 12] < 5)%nat.
Proof.
  apply (countRanksBitwise_short_array [14; 13; 12]).
  repeat (apply Forall_cons; [lia|]). apply Forall_nil.
Defined.

(** ** The accumulator on arrays of any length *)

Lemma rankArray_sevenRanks : rankArray sevenRanks.
Proof.
  split.
  - repeat (apply Forall_cons; [lia|]). apply Forall_nil.
  - intros r. unfold sevenRanks. rewrite !count_cons.
    change (count r []) with 0.
    repeat match goal with |- context [Z.eq_dec ?a r] =>
             destruct (Z.eq_dec a r) end; lia.
Qed.

(** X10: for a rank array of any length (seven cards, say) with ranks from
    2 to 14, none more than four times: the nibble of every rank holds
    [2^count - 1], the accumulator stays below [2^60], and modulo 15 it is
    the sum of its nibbles. *)
Theorem countDuplicatesBitwise_any_length (ranks : list Z) :
  rankArray ranks ->
  (forall r, 0 <= r <= 14 ->
     nibbleAt (countDuplicatesBitwise ranks) r = 2 ^ count r ranks - 1)
  /\ 0 <= countDuplicatesBitwise ranks < 2 ^ 60
  /\ JS.rem (countDuplicatesBitwise ranks) 15
     = sumOverRanks (fun r => 2 ^ count r ranks - 1) mod 15.
Proof.
  intros R. split; [|split].
  - intros r Hr. apply nibbleAt_accumulator; assumption.
  - apply accumulator_bound, R.
  - unfold JS.rem. rewrite Z.rem_mod_nonneg;
      [|apply accumulator_bound; assumption|lia].
    rewrite rankArray_packed, packed_mod15, digitSum_nibbles by assumption.
    reflexivity.
Qed.

Lemma countDuplicatesBitwise_any_length_witness :
  (forall r, 0 <= r <= 14 ->
     nibbleAt (countDuplicatesBitwise sevenRanks) r
     = 2 ^ count r sevenRanks - 1)
  /\ 0 <= countDuplicatesBitwise sevenRanks < 2 ^ 60
  /\ JS.rem (countDuplicatesBitwise sevenRanks) 15
     = sumOverRanks (fun r => 2 ^ count r sevenRanks - 1) mod 15.
Proof.
  apply (countDuplicatesBitwise_any_length sevenRanks).
  exact rankArray_sevenRanks.
Defined.

(** ** [rankPokerHand] outside the valid hands *)

(** X11: five cards of one rank, which no deck holds: the fifth card
    carries into the next nibble, the signature is 1 and the answer is
    "Four of a Kind". *)
Theorem rankPokerHand_five_of_a_kind (r : Z) (suits : list Z) :
  2 <= r <= 14 ->
  rankPokerHand [r; r; r; r; r] suits
  = Some (mkHandAnalysis HandRank.quads "Four of a Kind" (2 ^ r) 1)
  /\ nibbleAt (countDuplicatesBitwise [r; r; r; r; r]) r = 15
  /\ nibbleAt (countDuplicatesBitwise [r; r; r; r; r]) (r + 1) = 1.
Proof.
  intros H.
  assert (C : r = 2 \/ r = 3 \/ r = 4 \/ r = 5 \/ r = 6 \/ r = 7 \/ r = 8
              \/ r = 9 \/ r = 10 \/ r = 11 \/ r = 12 \/ r = 13 \/ r = 14)
    by lia.
  repeat (destruct C as [->|C];
          [split; [|split]; vm_compute; reflexivity|]).
  subst. split; [|split]; vm_compute; reflexivity.
Qed.

Lemma rankPokerHand_five_of_a_kind_witness :
  rankPokerHand [7; 7; 7; 7; 7] [1; 2; 4; 8; 1]
  = Some (mkHandAnalysis HandRank.quads "Four of a Kind" (2 ^ 7) 1)
  /\ nibbleAt (countDuplicatesBitwise [7; 7; 7; 7; 7]) 7 = 15
  /\ nibbleAt (countDuplicatesBitwise [7; 7; 7; 7; 7]) (7 + 1) = 1.
Proof. apply (rankPokerHand_five_of_a_kind 7 [1; 2; 4; 8; 1]). lia. Defined.

Lemma POKER_HASH_number (n : Z) :
  POKER_HASH (KNum n) = None <-> ~ In n [1; 6; 7; 9; 10].
Proof.
  cbn [In].
  destruct n as [|p|p]; [cbn; intuition lia| |cbn; intuition lia].
  do 4 (try destruct p as [p|p|]); cbn [POKER_HASH];
    (split; [intros E; try discriminate E; lia
            |intros N; try reflexivity; exfalso; apply N; auto 10]).
Qed.

Lemma classify_throws (btRanks btCount : Z) (isFlush : bool) :
  classify btRanks btCount isFlush = None
  <-> ~ In btCount [1; 5; 6; 7; 9; 10].
Proof.
  unfold classify, lookup.
  destruct (Z.eqb_spec btCount 5) as [->|N]; cbn [negb].
  - destruct (isFlush && (btRanks =? BROADWAY_HASH)),
      (straightTest btRanks && isFlush), isFlush, (straightTest btRanks);
      cbn [POKER_HASH]; split; intros X; try discriminate X;
      exfalso; apply X; cbn [In]; auto.
  - pose proof (POKER_HASH_number btCount) as P. cbn [In] in *.
    destruct (POKER_HASH (KNum btCount)) as [[e c]|].
    + split; [discriminate|]. intros X. destruct P as [_ P].
      assert (E : Some (e, c) = None) by (apply P; intuition).
      discriminate E.
    + split; [|reflexivity]. intros _. destruct P as [P _].
      specialize (P eq_refl). intuition.
Qed.


Lemma sumOverRanks_ext (f g : Z -> Z) :
  (forall r, In r Rs -> f r = g r) -> sumOverRanks f = sumOverRanks g.
Proof.
  intros H. unfold sumOverRanks.
  induction Rs as [|a l IH]; [reflexivity|].
  cbn [fold_right]. rewrite (H a) by (left; reflexivity).
  rewrite IH by (intros; apply H; right; assumption). reflexivity.
Qed.

Lemma sumOverRanks_le (f : Z -> Z) (b : Z) :
  (forall r, In r Rs -> f r <= b) -> sumOverRanks f <= 13 * b.
Proof.
  intros H. unfold sumOverRanks, Rs in *. cbn [fold_right].
  repeat match goal with
         | |- context [f ?r] =>
             lazymatch goal with
             | _ : f r <= b |- _ => fail
             | _ => assert (f r <= b) by (apply H; cbn [In]; auto 20)
             end
         end.
  lia.
Qed.

(** X13: an array of distinct ranks, of any length: the duplicate signature
    is the number of entries.  So [rankPokerHand] throws on 2, 3, 4, 8, 11,
    12 or 13 distinct ranks (and on none), and answers for 1, 6, 7, 9 or
    10 of them as well as for 5. *)
Theorem rankPokerHand_distinct_ranks (ranks suits : list Z) :
  rankArray ranks -> NoDup ranks ->
  JS.rem (countDuplicatesBitwise ranks) 15
  = Z.of_nat (Datatypes.length ranks)
  /\ (rankPokerHand ranks suits = None
      <-> ~ In (Z.of_nat (Datatypes.length ranks)) [1; 5; 6; 7; 9; 10]).
Proof.
  intros R N.
  assert (C : forall r, 0 <= count r ranks <= 1).
  { intros r. split; [apply count_nonneg|apply NoDup_count, N]. }
  assert (E : JS.rem (countDuplicatesBitwise ranks) 15
              = Z.of_nat (Datatypes.length ranks)).
  { unfold JS.rem. rewrite Z.rem_mod_nonneg;
      [|apply accumulator_bound; assumption|lia].
    rewrite rankArray_packed, packed_mod15, digitSum_nibbles by assumption.
    rewrite (sumOverRanks_ext _ (fun r => count r ranks)).
    - pose proof (sumOverRanks_le (fun r => count r ranks) 1
                    (fun r _ => proj2 (C r))) as B.
      rewrite sumOverRanks_count in * by apply R.
      apply Z.mod_small. lia.
    - intros r _. specialize (C r). unfold nibbleOf.
      assert (X : count r ranks = 0 \/ count r ranks = 1) by lia.
      destruct X as [-> | ->]; reflexivity. }
  split; [exact E|].
  rewrite rankPokerHand_classify, E. apply classify_throws.
Qed.

Lemma rankPokerHand_distinct_ranks_witness :
  JS.rem (countDuplicatesBitwise [14; 13; 12; 2]) 15
  = Z.of_nat (Datatypes.length [14; 13; 12; 2])
  /\ (rankPokerHand [14; 13; 12; 2] [1; 1; 1; 1] = None
      <-> ~ In (Z.of_nat (Datatypes.length [14; 13; 12; 2]))
               [1; 5; 6; 7; 9; 10]).
Proof.
  apply (rankPokerHand_distinct_ranks [14; 13; 12; 2] [1; 1; 1; 1]).
  - split.
    + repeat (apply Forall_cons; [lia|]). apply Forall_nil.
    + intros r. rewrite !count_cons. change (count r []) with 0.
      repeat match goal with |- context [Z.eq_dec ?a r] =>
               destruct (Z.eq_dec a r) end; lia.
  - apply NoDup_count. intros r. rewrite !count_cons.
    change (count r []) with 0.
    repeat match goal with |- context [Z.eq_dec ?a r] =>
             destruct (Z.eq_dec a r) end; lia.
Defined.

(** ** The analyzers on the accumulators of their categories *)

Lemma quads_check : forallb (fun q => forallb (quadsAgrees q) Rs) Rs = true.
Proof. vm_compute. reflexivity. Qed.

Lemma boat_check : forallb (fun t => forallb (boatAgrees t) Rs) Rs = true.
Proof. vm_compute. reflexivity. Qed.

Lemma trips_check :
  forallb (fun t => forallb (tripsAgrees t) (heldSets 2)) Rs = true.
Proof. vm_compute. reflexivity. Qed.

Lemma pair_check :
  forallb (fun p => forallb (pairAgrees p) (heldSets 3)) Rs = true.
Proof. vm_compute. reflexivity. Qed.

Lemma twoPair_check :
  forallb (fun k => forallb (twoPairAgrees k) (heldSets 2)) Rs = true.
Proof. vm_compute. reflexivity. Qed.

Lemma negb_true_orb (b : bool) : negb true || b = b.
Proof. reflexivity. Qed.

Lemma quadsAgrees_eq (q k : Z) :
  quadsAgrees q k
  = (q =? k)
    || agrees (analyzeQuads (accumulatorOf [k] [] [] [q])) (oneLess [q; k]).
Proof. reflexivity. Qed.

Lemma boatAgrees_eq (t p : Z) :
  boatAgrees t p
  = (t =? p)
    || agrees (analyzeBoat (accumulatorOf [] [p] [t] [])) (oneLess [t; p]).
Proof. reflexivity. Qed.

Lemma tripsAgrees_eq (t : Z) (K : list Z) :
  tripsAgrees t K
  = negb (heldApart t K)
    || agrees (analyzeTrips (accumulatorOf K [] [t] [])) (oneLess (t :: K)).
Proof. reflexivity. Qed.

Lemma pairAgrees_eq (p : Z) (K : list Z) :
  pairAgrees p K
  = negb (heldApart p K)
    || agrees (analyzePair (accumulatorOf K [p] [] [])) (oneLess (p :: K)).
Proof. reflexivity. Qed.

Lemma twoPairAgrees_eq (k p1 p2 : Z) :
  twoPairAgrees k [p1; p2]
  = negb (heldApart k [p1; p2])
    || agrees (analyzeTwoPair (accumulatorOf [k] [p1; p2] [] []))
         (if p1 <? k then [k - 1]
          else if p2 <? k then [p1 - 1; k - 1]
          else [p1 - 1; p2 - 1; 0]).
Proof. reflexivity. Qed.

Section WeightedByCount.

Variables (h c g : Z -> Z).
Hypothesis h0 : h 0 = 0.

Lemma weighted_by_count (L : list Z) :
  (forall r, In r L -> 0 <= c r <= 4) ->
  fold_right (fun r acc => h (c r) * g r + acc) 0 L
  = h 1 * fold_right (fun r acc => g r + acc) 0
            (filter (fun r => c r =? 1) L)
    + h 2 * fold_right (fun r acc => g r + acc) 0
              (filter (fun r => c r =? 2) L)
    + h 3 * fold_right (fun r acc => g r + acc) 0
              (filter (fun r => c r =? 3) L)
    + h 4 * fold_right (fun r acc => g r + acc) 0
              (filter (fun r => c r =? 4) L).
Proof.
  induction L as [|a L IH]; intros H.
  - cbn. lia.
  - cbn [fold_right filter]. rewrite IH by (intros; apply H; right; assumption).
    assert (C : c a = 0 \/ c a = 1 \/ c a = 2 \/ c a = 3 \/ c a = 4)
      by (specialize (H a (or_introl eq_refl)); lia).
    destruct C as [E|[E|[E|[E|E]]]]; rewrite E; cbn [Z.eqb Pos.eqb];
      cbn [fold_right]; rewrite ?h0; lia.
Qed.

End WeightedByCount.

(** The accumulator from the ranks held once, twice, three and four
    times. *)
Lemma accumulator_of_held (ranks : list Z) :
  rankArray ranks ->
  countDuplicatesBitwise ranks
  = accumulatorOf (Poker.ranksHeld 1 ranks) (Poker.ranksHeld 2 ranks)
      (Poker.ranksHeld 3 ranks) (Poker.ranksHeld 4 ranks).
Proof.
  intros R. rewrite rankArray_packed, packed_15_sum by assumption.
  unfold sumOverRanks.
  change (fun r acc => (2 ^ count r ranks - 1) * 16 ^ r + acc)
    with (fun r acc => nibbleOf (count r ranks) * 16 ^ r + acc).
  rewrite (weighted_by_count nibbleOf (fun r => count r ranks)
             (fun r => 16 ^ r) eq_refl Rs).
  - unfold accumulatorOf, sum16, Poker.ranksHeld.
    change (nibbleOf 1) with 1. change (nibbleOf 2) with 3.
    change (nibbleOf 3) with 7. change (nibbleOf 4) with 15. lia.
  - intros r _. split; [apply count_nonneg|apply R].
Qed.

Lemma held_length (k : Z) (n : nat) (ranks : list Z) :
  Poker.numHeld k ranks = Z.of_nat n ->
  Datatypes.length (Poker.ranksHeld k ranks) = n.
Proof. unfold Poker.numHeld. intros E. apply Nat2Z.inj, E. Qed.

Lemma held_apart (k k' r : Z) (ranks : list Z) :
  k <> k' -> In r (Poker.ranksHeld k ranks) ->
  heldApart r (Poker.ranksHeld k' ranks) = true.
Proof.
  intros N H. unfold heldApart. apply negb_true_iff.
  destruct (existsb (Z.eqb r) (Poker.ranksHeld k' ranks)) eqn:E;
    [|reflexivity].
  apply existsb_eqb_In in E. apply ranksHeld_In in H, E. lia.
Qed.

Lemma held_in_sublists (k : Z) (n : nat) (ranks : list Z) :
  Poker.numHeld k ranks = Z.of_nat n ->
  In (Poker.ranksHeld k ranks) (heldSets n).
Proof.
  intros E. unfold heldSets. apply filter_In. split.
  - unfold Poker.ranksHeld. apply filter_in_sublists.
  - apply Nat.eqb_eq, held_length, E.
Qed.

Lemma agrees_eq (result : option (list Z)) (expected : list Z) :
  agrees result expected = true -> result = Some expected.
Proof.
  destruct result as [l|]; cbn; [|discriminate].
  intros E. f_equal. apply sameRanks_eq, E.
Qed.

(** The shape of a five-card array from the numbers of ranks held twice,
    three and four times. *)
Lemma shape_from (ranks : list Z) (m2 m3 m4 : Z) :
  Datatypes.length ranks = 5%nat -> rankArray ranks ->
  Poker.numHeld 2 ranks = m2 -> Poker.numHeld 3 ranks = m3 ->
  Poker.numHeld 4 ranks = m4 ->
  Poker.numHeld 1 ranks = 5 - 2 * m2 - 3 * m3 - 4 * m4.
Proof.
  intros L R E2 E3 E4. destruct (shape_equations ranks L R) as [S _]. lia.
Qed.

(** X14: on the accumulator of four of a kind with a kicker, [analyzeQuads]
    returns the rank of the four and the rank of the kicker, each one
    lower than the cards. *)
Theorem analyzeQuads_result (ranks : list Z) :
  Datatypes.length ranks = 5%nat -> rankArray ranks ->
  Poker.fourOfAKind ranks ->
  analyzeQuads (countDuplicatesBitwise ranks)
  = Some (oneLess (Poker.ranksHeld 4 ranks ++ Poker.ranksHeld 1 ranks)).
Proof.
  intros L R E4. unfold Poker.fourOfAKind in E4.
  pose proof (numHeld_nonneg 1 ranks). pose proof (numHeld_nonneg 2 ranks).
  pose proof (numHeld_nonneg 3 ranks).
  destruct (shape_equations ranks L R) as [S _].
  assert (E1 : Poker.numHeld 1 ranks = 1) by lia.
  assert (E2 : Poker.numHeld 2 ranks = 0) by lia.
  assert (E3 : Poker.numHeld 3 ranks = 0) by lia.
  rewrite (accumulator_of_held ranks R).
  pose proof (fun r => held_apart 4 1 r ranks ltac:(lia)) as A.
  rewrite (numHeld_0 _ _ E2), (numHeld_0 _ _ E3).
  destruct (numHeld_1 _ _ E4) as [q Eq], (numHeld_1 _ _ E1) as [k Ek].
  assert (Iq : In q Rs)
    by (apply (ranksHeld_In 4 q ranks); rewrite Eq; left; reflexivity).
  assert (Ik : In k Rs)
    by (apply (ranksHeld_In 1 k ranks); rewrite Ek; left; reflexivity).
  specialize (A q). rewrite Eq, Ek in *.
  specialize (A (or_introl eq_refl)). unfold heldApart in A.
  cbn [existsb] in A. rewrite orb_false_r in A. apply negb_true_iff in A.
  pose proof quads_check as C.
  rewrite forallb_forall in C. specialize (C q Iq).
  rewrite forallb_forall in C. specialize (C k Ik).
  rewrite quadsAgrees_eq, A, Bool.orb_false_l in C. cbn [app].
  apply agrees_eq, C.
Qed.

Lemma fourOfAKind_example : Poker.fourOfAKind [11; 11; 11; 11; 2].
Proof. vm_compute. reflexivity. Qed.

Lemma analyzeQuads_result_witness :
  analyzeQuads (countDuplicatesBitwise [11; 11; 11; 11; 2])
  = Some (oneLess (Poker.ranksHeld 4 [11; 11; 11; 11; 2]
                   ++ Poker.ranksHeld 1 [11; 11; 11; 11; 2])).
Proof.
  apply (analyzeQuads_result [11; 11; 11; 11; 2]).
  - reflexivity.
  - split.
    + repeat (apply Forall_cons; [lia|]). apply Forall_nil.
    + intros r. rewrite !count_cons. change (count r []) with 0.
      repeat match goal with |- context [Z.eq_dec ?a r] =>
               destruct (Z.eq_dec a r) end; lia.
  - exact fourOfAKind_example.
Defined.

(** X15: on the accumulator of a full house [analyzeBoat] returns the rank
    of the three and the rank of the pair, each one lower than the
    cards. *)
Theorem analyzeBoat_result (ranks : list Z) :
  Datatypes.length ranks = 5%nat -> rankArray ranks ->
  Poker.fullHouse ranks ->
  analyzeBoat (countDuplicatesBitwise ranks)
  = Some (oneLess (Poker.ranksHeld 3 ranks ++ Poker.ranksHeld 2 ranks)).
Proof.
  intros L R [E3 E2].
  pose proof (numHeld_nonneg 1 ranks). pose proof (numHeld_nonneg 4 ranks).
  destruct (shape_equations ranks L R) as [S _].
  assert (E1 : Poker.numHeld 1 ranks = 0) by lia.
  assert (E4 : Poker.numHeld 4 ranks = 0) by lia.
  rewrite (accumulator_of_held ranks R).
  pose proof (fun r => held_apart 3 2 r ranks ltac:(lia)) as A.
  rewrite (numHeld_0 _ _ E1), (numHeld_0 _ _ E4).
  destruct (numHeld_1 _ _ E3) as [t Et], (numHeld_1 _ _ E2) as [p Ep].
  assert (It : In t Rs)
    by (apply (ranksHeld_In 3 t ranks); rewrite Et; left; reflexivity).
  assert (Ip : In p Rs)
    by (apply (ranksHeld_In 2 p ranks); rewrite Ep; left; reflexivity).
  specialize (A t). rewrite Et, Ep in *.
  specialize (A (or_introl eq_refl)). unfold heldApart in A.
  cbn [existsb] in A. rewrite orb_false_r in A. apply negb_true_iff in A.
  pose proof boat_check as C.
  rewrite forallb_forall in C. specialize (C t It).
  rewrite forallb_forall in C. specialize (C p Ip).
  rewrite boatAgrees_eq, A, Bool.orb_false_l in C. cbn [app].
  apply agrees_eq, C.
Qed.

Lemma analyzeBoat_result_witness :
  analyzeBoat (countDuplicatesBitwise [8; 8; 8; 9; 9])
  = Some (oneLess (Poker.ranksHeld 3 [8; 8; 8; 9; 9]
                   ++ Poker.ranksHeld 2 [8; 8; 8; 9; 9])).
Proof.
  apply (analyzeBoat_result [8; 8; 8; 9; 9]).
  - reflexivity.
  - split.
    + repeat (apply Forall_cons; [lia|]). apply Forall_nil.
    + intros r. rewrite !count_cons. change (count r []) with 0.
      repeat match goal with |- context [Z.eq_dec ?a r] =>
               destruct (Z.eq_dec a r) end; lia.
  - split; vm_compute; reflexivity.
Defined.

(** X16: on the accumulator of three of a kind [analyzeTrips] returns the
    rank of the three and then the two kickers, the higher first, each one
    lower than the cards. *)
Theorem analyzeTrips_result (ranks : list Z) :
  Datatypes.length ranks = 5%nat -> rankArray ranks ->
  Poker.threeOfAKind ranks ->
  analyzeTrips (countDuplicatesBitwise ranks)
  = Some (oneLess (Poker.ranksHeld 3 ranks ++ Poker.ranksHeld 1 ranks)).
Proof.
  intros L R [E3 E2].
  pose proof (numHeld_nonneg 1 ranks). pose proof (numHeld_nonneg 4 ranks).
  destruct (shape_equations ranks L R) as [S _].
  assert (E1 : Poker.numHeld 1 ranks = Z.of_nat 2) by lia.
  assert (E4 : Poker.numHeld 4 ranks = 0) by lia.
  rewrite (accumulator_of_held ranks R).
  pose proof (held_in_sublists 1 2 ranks E1) as IK.
  pose proof (fun r => held_apart 3 1 r ranks ltac:(lia)) as A.
  rewrite (numHeld_0 _ _ E2), (numHeld_0 _ _ E4).
  destruct (numHeld_1 _ _ E3) as [t Et].
  assert (It : In t Rs)
    by (apply (ranksHeld_In 3 t ranks); rewrite Et; left; reflexivity).
  specialize (A t). rewrite Et in *. specialize (A (or_introl eq_refl)).
  pose proof trips_check as C.
  rewrite forallb_forall in C. specialize (C t It).
  rewrite forallb_forall in C. specialize (C _ IK).
  rewrite tripsAgrees_eq, A, negb_true_orb in C. cbn [app].
  apply agrees_eq, C.
Qed.

Lemma analyzeTrips_result_witness :
  analyzeTrips (countDuplicatesBitwise [10; 10; 10; 4; 14])
  = Some (oneLess (Poker.ranksHeld 3 [10; 10; 10; 4; 14]
                   ++ Poker.ranksHeld 1 [10; 10; 10; 4; 14])).
Proof.
  apply (analyzeTrips_result [10; 10; 10; 4; 14]).
  - reflexivity.
  - split.
    + repeat (apply Forall_cons; [lia|]). apply Forall_nil.
    + intros r. rewrite !count_cons. change (count r []) with 0.
      repeat match goal with |- context [Z.eq_dec ?a r] =>
               destruct (Z.eq_dec a r) end; lia.
  - split; vm_compute; reflexivity.
Defined.

(** X17: on the accumulator of one pair [analyzePair] returns the rank of
    the pair and then the three kickers, highest first, each one lower
    than the cards. *)
Theorem analyzePair_result (ranks : list Z) :
  Datatypes.length ranks = 5%nat -> rankArray ranks ->
  Poker.onePair ranks ->
  analyzePair (countDuplicatesBitwise ranks)
  = Some (oneLess (Poker.ranksHeld 2 ranks ++ Poker.ranksHeld 1 ranks)).
Proof.
  intros L R [E2 [E3 E4]].
  destruct (shape_equations ranks L R) as [S _].
  assert (E1 : Poker.numHeld 1 ranks = Z.of_nat 3) by lia.
  rewrite (accumulator_of_held ranks R).
  pose proof (held_in_sublists 1 3 ranks E1) as IK.
  pose proof (fun r => held_apart 2 1 r ranks ltac:(lia)) as A.
  rewrite (numHeld_0 _ _ E3), (numHeld_0 _ _ E4).
  destruct (numHeld_1 _ _ E2) as [p Ep].
  assert (Ip : In p Rs)
    by (apply (ranksHeld_In 2 p ranks); rewrite Ep; left; reflexivity).
  specialize (A p). rewrite Ep in *. specialize (A (or_introl eq_refl)).
  pose proof pair_check as C.
  rewrite forallb_forall in C. specialize (C p Ip).
  rewrite forallb_forall in C. specialize (C _ IK).
  rewrite pairAgrees_eq, A, negb_true_orb in C. cbn [app].
  apply agrees_eq, C.
Qed.

Lemma analyzePair_result_witness :
  analyzePair (countDuplicatesBitwise [6; 6; 14; 13; 11])
  = Some (oneLess (Poker.ranksHeld 2 [6; 6; 14; 13; 11]
                   ++ Poker.ranksHeld 1 [6; 6; 14; 13; 11])).
Proof.
  apply (analyzePair_result [6; 6; 14; 13; 11]).
  - reflexivity.
  - split.
    + repeat (apply Forall_cons; [lia|]). apply Forall_nil.
    + intros r. rewrite !count_cons. change (count r []) with 0.
      repeat match goal with |- context [Z.eq_dec ?a r] =>
               destruct (Z.eq_dec a r) end; lia.
  - repeat split; vm_compute; reflexivity.
Defined.

(** X18: on the accumulator of two pairs [p1 > p2] with the kicker [k],
    [analyzeTwoPair] stops at the kicker or at the second pair, whichever
    the scan meets first: it returns the kicker alone when it is the
    highest rank, the higher pair and the kicker when it lies between the
    pairs, and both pairs with 0 for the kicker when it is the lowest
    (every rank one lower than the cards). *)
Theorem analyzeTwoPair_result (ranks : list Z) :
  Datatypes.length ranks = 5%nat -> rankArray ranks ->
  Poker.twoPairs ranks ->
  exists p1 p2 k,
    Poker.ranksHeld 2 ranks = [p1; p2] /\ p2 < p1
    /\ Poker.ranksHeld 1 ranks = [k]
    /\ analyzeTwoPair (countDuplicatesBitwise ranks)
       = Some (if p1 <? k then [k - 1]
               else if p2 <? k then [p1 - 1; k - 1]
               else [p1 - 1; p2 - 1; 0]).
Proof.
  intros L R E2. unfold Poker.twoPairs in E2.
  pose proof (numHeld_nonneg 1 ranks). pose proof (numHeld_nonneg 3 ranks).
  pose proof (numHeld_nonneg 4 ranks).
  destruct (shape_equations ranks L R) as [S _].
  assert (E1 : Poker.numHeld 1 ranks = 1) by lia.
  assert (E3 : Poker.numHeld 3 ranks = 0) by lia.
  assert (E4 : Poker.numHeld 4 ranks = 0) by lia.
  rewrite (accumulator_of_held ranks R).
  pose proof (held_in_sublists 2 2 ranks E2) as IP.
  pose proof (fun r => held_apart 1 2 r ranks ltac:(lia)) as A.
  pose proof (descending_held 2 ranks) as D.
  rewrite (numHeld_0 _ _ E3), (numHeld_0 _ _ E4).
  destruct (numHeld_1 _ _ E1) as [k Ek].
  destruct (numHeld_2 _ _ E2) as [p1 [p2 Ep]].
  assert (Ik : In k Rs)
    by (apply (ranksHeld_In 1 k ranks); rewrite Ek; left; reflexivity).
  specialize (A k). rewrite Ek, Ep in *. specialize (A (or_introl eq_refl)).
  exists p1, p2, k. split; [reflexivity|].
  split; [apply D; left; reflexivity|]. split; [reflexivity|].
  pose proof twoPair_check as C.
  rewrite forallb_forall in C. specialize (C k Ik).
  rewrite forallb_forall in C. specialize (C _ IP).
  rewrite twoPairAgrees_eq, A, negb_true_orb in C.
  apply agrees_eq, C.
Qed.

Lemma analyzeTwoPair_result_witness :
  exists p1 p2 k,
    Poker.ranksHeld 2 [8; 8; 11; 9; 9] = [p1; p2] /\ p2 < p1
    /\ Poker.ranksHeld 1 [8; 8; 11; 9; 9] = [k]
    /\ analyzeTwoPair (countDuplicatesBitwise [8; 8; 11; 9; 9])
       = Some (if p1 <? k then [k - 1]
               else if p2 <? k then [p1 - 1; k - 1]
               else [p1 - 1; p2 - 1; 0]).
Proof.
  apply (analyzeTwoPair_result [8; 8; 11; 9; 9]).
  - reflexivity.
  - exact rankArray_example.
  - vm_compute. reflexivity.
Defined.

(** ** The analysis by sorting *)

Lemma insert_perm (f : Z -> Z -> Z) (x : Z) (a : list Z) :
  Permutation (JS.insert f x a) (x :: a).
Proof.
  induction a as [|y r IH]; cbn; [reflexivity|].
  destruct (f x y <=? 0); [reflexivity|].
  rewrite IH. apply perm_swap.
Qed.

Lemma sort_perm (f : Z -> Z -> Z) (a : list Z) : Permutation (JS.sort f a) a.
Proof.
  induction a as [|x a IH]; cbn; [constructor|].
  rewrite insert_perm. constructor. exact IH.
Qed.

Lemma insert_sorted (x : Z) (a : list Z) :
  StronglySorted Z.ge a ->
  StronglySorted Z.ge (JS.insert (fun a b => b - a) x a).
Proof.
  induction 1 as [|y r S IH F]; cbn.
  - repeat constructor.
  - destruct (y - x <=? 0) eqn:E.
    + apply Z.leb_le in E. constructor; [constructor; assumption|].
      constructor; [lia|].
      eapply Forall_impl; [|exact F]. cbn. intros; lia.
    + apply Z.leb_gt in E. constructor; [exact IH|].
      rewrite (Forall_forall (Z.ge y)). intros z Hz.
      apply (Permutation_in _ (insert_perm _ x r)) in Hz.
      destruct Hz as [<-|Hz]; [lia|].
      rewrite Forall_forall in F. apply F, Hz.
Qed.

Lemma sort_sorted (a : list Z) :
  StronglySorted Z.ge (JS.sort (fun a b => b - a) a).
Proof.
  induction a as [|x a IH]; cbn; [constructor|].
  apply insert_sorted, IH.
Qed.

Lemma sorted_unique (l1 l2 : list Z) :
  StronglySorted Z.ge l1 -> StronglySorted Z.ge l2 -> Permutation l1 l2 ->
  l1 = l2.
Proof.
  intros S1. revert l2.
  induction S1 as [|a l1 S1 IH F1]; intros l2 S2 P.
  - apply Permutation_nil in P. symmetry. exact P.
  - destruct S2 as [|b l2 S2 F2].
    + symmetry in P. apply Permutation_nil in P. discriminate.
    + assert (a = b).
      { assert (Ia : In a (b :: l2))
          by (apply (Permutation_in _ P); left; reflexivity).
        assert (Ib : In b (a :: l1))
          by (apply (Permutation_in _ (Permutation_sym P)); left; reflexivity).
        rewrite Forall_forall in F1, F2.
        destruct Ia as [->|Ia]; [reflexivity|].
        destruct Ib as [->|Ib]; [reflexivity|].
        specialize (F1 _ Ib). specialize (F2 _ Ia). lia. }
      subst b. f_equal. apply IH; [exact S2|].
      apply Permutation_cons_inv in P. exact P.
Qed.

Section Runs.

Variable n : Z -> nat.

Lemma runs_In (V : list Z) (x : Z) : In x (sortedRuns n V) -> In x V.
Proof.
  unfold sortedRuns. rewrite in_flat_map. intros [r [I Ir]].
  apply repeat_spec in Ir. subst x. exact I.
Qed.

Lemma runs_sorted (V : list Z) :
  StronglySorted Z.gt V -> StronglySorted Z.ge (sortedRuns n V).
Proof.
  induction 1 as [|r V S IH F]; cbn; [constructor|].
  fold (sortedRuns n V).
  induction (n r) as [|m IHm]; cbn; [exact IH|].
  constructor; [exact IHm|].
  apply Forall_app. split.
  - rewrite Forall_forall. intros x Hx. apply repeat_spec in Hx. lia.
  - rewrite Forall_forall. intros x Hx. apply runs_In in Hx.
    rewrite Forall_forall in F. specialize (F _ Hx). lia.
Qed.

Lemma count_occ_repeat (r x : Z) (m : nat) :
  count_occ Z.eq_dec (repeat r m) x = if Z.eq_dec r x then m else 0%nat.
Proof.
  induction m as [|m IH]; cbn.
  - destruct (Z.eq_dec r x); reflexivity.
  - rewrite IH. destruct (Z.eq_dec r x); reflexivity.
Qed.

Lemma count_occ_runs_out (V : list Z) (x : Z) :
  ~ In x V -> count_occ Z.eq_dec (sortedRuns n V) x = 0%nat.
Proof.
  intros N. apply count_occ_not_In. intros I. apply N, runs_In, I.
Qed.

Lemma count_occ_runs_in (V : list Z) (x : Z) :
  NoDup V -> In x V -> count_occ Z.eq_dec (sortedRuns n V) x = n x.
Proof.
  induction 1 as [|r V N ND IH]; intros I; [contradiction|].
  cbn [sortedRuns flat_map]. fold (sortedRuns n V).
  rewrite count_occ_app, count_occ_repeat.
  destruct (Z.eq_dec r x) as [->|D].
  - rewrite (count_occ_runs_out V x N). lia.
  - destruct I as [E|I]; [contradiction|]. apply IH, I.
Qed.

End Runs.

Lemma sorted_gt_NoDup (V : list Z) : StronglySorted Z.gt V -> NoDup V.
Proof.
  induction 1 as [|r V S IH F]; constructor; [|exact IH].
  intros I. rewrite Forall_forall in F. specialize (F _ I). lia.
Qed.

(** The sorted array is the runs of its values, for any strictly
    descending list [V] that holds them. *)
Lemma sort_runs (V ranks : list Z) :
  StronglySorted Z.gt V -> (forall x, In x ranks -> In x V) ->
  JS.sort (fun a b => b - a) ranks = sortedRuns (count_occ Z.eq_dec ranks) V.
Proof.
  intros S I. apply sorted_unique.
  - apply sort_sorted.
  - apply runs_sorted, S.
  - rewrite sort_perm. apply (Permutation_count_occ Z.eq_dec). intros x.
    destruct (in_dec Z.eq_dec x V) as [Hx|N].
    + symmetry. apply count_occ_runs_in; [apply sorted_gt_NoDup, S|exact Hx].
    + rewrite (count_occ_runs_out _ V x N).
      apply count_occ_not_In. intros Hx. apply N, I, Hx.
Qed.

Section Loop.

Variable n : Z -> nat.

Lemma nextRank_None (l : list Z) : fold_left nextRank l None = None.
Proof. induction l as [|x l IH]; cbn; [reflexivity|exact IH]. Qed.

Lemma pushRuns_None (V : list Z) : pushRuns n None V = None.
Proof.
  induction V as [|r V IH]; cbn; [reflexivity|].
  destruct (n r); exact IH.
Qed.

Lemma nextRank_repeat (r : Z) (m c : nat) (w : PairUps.t) :
  fold_left nextRank (repeat r m) (Some (Queue.mk (Some r) c, w))
  = Some (Queue.mk (Some r) (c + m), w).
Proof.
  revert c. induction m as [|m IH]; intros c; cbn.
  - rewrite Nat.add_0_r. reflexivity.
  - rewrite Z.eqb_refl, IH. do 3 f_equal. lia.
Qed.

Lemma loop_runs (V : list Z) (q : Z) (c : nat) (w : PairUps.t) :
  NoDup (q :: V) ->
  finish (fold_left nextRank (sortedRuns n V) (Some (Queue.mk (Some q) c, w)))
  = pushRuns n (pushRun (Some w) q c) V.
Proof.
  revert q c w. induction V as [|r V IH]; intros q c w ND; [reflexivity|].
  cbn [sortedRuns flat_map pushRuns]. fold (sortedRuns n V).
  assert (NDq : NoDup (q :: V)).
  { inversion ND as [|? ? N1 N2]. inversion N2. constructor; [|assumption].
    intros I. apply N1. right. exact I. }
  assert (NDr : NoDup (r :: V)) by (inversion ND; assumption).
  assert (D : q <> r).
  { inversion ND as [|? ? N1 N2]. intros ->. apply N1. left. reflexivity. }
  destruct (n r) as [|m] eqn:E; [cbn; apply IH, NDq|].
  rewrite fold_left_app.
  cbn [repeat fold_left nextRank JS.strict_eqb Queue.rank].
  apply Z.eqb_neq in D. rewrite D.
  cbn [pushRun]. destruct (pushQueue (Queue.mk (Some q) c) w) as [w'|].
  - rewrite nextRank_repeat. rewrite (IH r _ w' NDr). reflexivity.
  - rewrite !nextRank_None, pushRuns_None. reflexivity.
Qed.

(** The whole loop, from the first entry on. *)
Lemma start_runs (V : list Z) (w : PairUps.t) :
  NoDup V -> sortedRuns n V <> [] ->
  finish (fold_left nextRank (tl (sortedRuns n V))
            (Some (Queue.mk (JS.index (sortedRuns n V) 0) 1, w)))
  = pushRuns n (Some w) V.
Proof.
  induction V as [|r V IH]; intros ND NE; [contradiction|].
  cbn [sortedRuns flat_map pushRuns] in *. fold (sortedRuns n V) in *.
  destruct (n r) as [|m] eqn:E.
  - cbn in *. apply IH; [inversion ND; assumption|exact NE].
  - cbn [repeat app tl JS.index nth_error].
    rewrite fold_left_app, nextRank_repeat.
    rewrite (loop_runs V r _ w ND). reflexivity.
Qed.

Lemma pushRuns_held (ranks V : list Z) (w : PairUps.t) :
  n = count_occ Z.eq_dec ranks ->
  (forall r, In r V -> (n r <= 4)%nat) ->
  pushRuns n (Some w) V
  = Some (PairUps.mk (PairUps.quads w ++ heldTimes ranks 4 V)
            (PairUps.trips w ++ heldTimes ranks 3 V)
            (PairUps.pairs w ++ heldTimes ranks 2 V)
            (PairUps.kickers w ++ heldTimes ranks 1 V)).
Proof.
  intros ->. revert w. induction V as [|r V IH]; intros w B.
  - unfold heldTimes. cbn. rewrite !app_nil_r. destruct w; reflexivity.
  - assert (Br := B r (or_introl eq_refl)).
    assert (BV : forall r, In r V -> (count_occ Z.eq_dec ranks r <= 4)%nat)
      by (intros x Hx; apply B; right; exact Hx).
    unfold heldTimes. cbn [pushRuns filter].
    destruct (count_occ Z.eq_dec ranks r) as [|[|[|[|[|m]]]]] eqn:E;
      [| | | | |lia]; destruct w as [wq wt wp wk];
      cbn; rewrite (IH _ BV); cbn; unfold heldTimes;
      rewrite <- ?app_assoc; reflexivity.
Qed.

Lemma pushRun_long (w : PairUps.t) (r : Z) (c : nat) :
  (5 <= c)%nat -> pushRun (Some w) r c = None.
Proof.
  intros B. do 5 (destruct c as [|c]; [lia|]).
  destruct w. cbn. destruct c; reflexivity.
Qed.

Lemma pushRun_short (w : PairUps.t) (r : Z) (c : nat) :
  (1 <= c <= 4)%nat -> exists w', pushRun (Some w) r c = Some w'.
Proof.
  intros B. destruct w.
  destruct c as [|[|[|[|[|c]]]]]; [lia| | | | |lia]; cbn; eexists; reflexivity.
Qed.

Lemma pushRuns_throws (V : list Z) (w : PairUps.t) :
  pushRuns n (Some w) V = None <-> exists r, In r V /\ (5 <= n r)%nat.
Proof.
  revert w. induction V as [|r V IH]; intros w.
  - cbn. split; [discriminate|]. intros [r [[] _]].
  - cbn [pushRuns].
    assert (T : forall w',
      pushRuns n (Some w') V = None ->
      exists x, In x (r :: V) /\ (5 <= n x)%nat).
    { intros w' H. apply IH in H. destruct H as [x [Hx Hn]].
      exists x. split; [right; exact Hx|exact Hn]. }
    assert (F : forall w', (n r <= 4)%nat ->
      (exists x, In x (r :: V) /\ (5 <= n x)%nat) ->
      pushRuns n (Some w') V = None).
    { intros w' B [x [[<-|Hx] Hn]]; [lia|].
      apply IH. exists x. split; assumption. }
    destruct (n r) as [|m] eqn:E.
    + split; [apply T|apply F; lia].
    + destruct (Nat.le_gt_cases (S m) 4) as [B|B].
      * destruct (pushRun_short w r (S m)) as [w' ->]; [lia|].
        split; [apply T|apply F; lia].
      * rewrite pushRun_long by lia. rewrite pushRuns_None.
        split; [|reflexivity].
        intros _. exists r. split; [left; reflexivity|lia].
Qed.

End Loop.

Lemma nodup_sorted (l : list Z) :
  StronglySorted Z.ge l -> StronglySorted Z.gt (nodup Z.eq_dec l).
Proof.
  induction 1 as [|a l S IH F]; cbn; [constructor|].
  destruct (in_dec Z.eq_dec a l) as [I|N]; [exact IH|].
  constructor; [exact IH|].
  rewrite Forall_forall in *. intros x Hx. apply nodup_In in Hx.
  specialize (F _ Hx).
  assert (a <> x) by (intros ->; apply N, Hx). lia.
Qed.

Lemma Rs_sorted : StronglySorted Z.gt Rs.
Proof. unfold Rs. repeat constructor; lia. Qed.

Lemma held_ranksHeld (ranks : list Z) (k : nat) :
  heldTimes ranks k Rs = map Some (Poker.ranksHeld (Z.of_nat k) ranks).
Proof.
  unfold heldTimes, Poker.ranksHeld, count. f_equal. apply filter_ext. intros r.
  destruct (Nat.eqb_spec (count_occ Z.eq_dec ranks r) k) as [->|D].
  - symmetry. apply Z.eqb_refl.
  - symmetry. apply Z.eqb_neq. lia.
Qed.

Lemma btCountToAnalysis_runs (V ranks : list Z) :
  StronglySorted Z.gt V -> (forall x, In x ranks -> In x V) -> ranks <> [] ->
  snd (btCountToAnalysis ranks)
  = pushRuns (count_occ Z.eq_dec ranks) (Some (PairUps.mk [] [] [] [])) V.
Proof.
  intros S I NE. unfold btCountToAnalysis. cbn [snd].
  rewrite (sort_runs V ranks S I).
  apply (start_runs (count_occ Z.eq_dec ranks) V).
  - apply sorted_gt_NoDup, S.
  - rewrite <- (sort_runs V ranks S I). intros E. apply NE.
    apply Permutation_nil. rewrite <- E. apply sort_perm.
Qed.

(** X19: the call sorts the array of its caller in place: afterwards it
    holds the same entries in descending order. *)
Theorem btCountToAnalysis_sorts_in_place (handRanks : list Z) :
  Permutation handRanks (fst (btCountToAnalysis handRanks))
  /\ StronglySorted Z.ge (fst (btCountToAnalysis handRanks)).
Proof.
  unfold btCountToAnalysis. cbn [fst]. split.
  - symmetry. apply sort_perm.
  - apply sort_sorted.
Qed.

(** X20: on a rank array that is not empty, with ranks from 2 to 14 and no
    rank more than four times, [btCountToAnalysis] returns the ranks held
    four times, three times, twice and once, each list in descending
    order. *)
Theorem btCountToAnalysis_ranks_held (ranks : list Z) :
  ranks <> [] -> rankArray ranks ->
  snd (btCountToAnalysis ranks)
  = Some (PairUps.mk (map Some (Poker.ranksHeld 4 ranks))
            (map Some (Poker.ranksHeld 3 ranks))
            (map Some (Poker.ranksHeld 2 ranks))
            (map Some (Poker.ranksHeld 1 ranks))).
Proof.
  intros NE [F B].
  rewrite (btCountToAnalysis_runs Rs ranks Rs_sorted); [|..|exact NE].
  - rewrite (pushRuns_held _ ranks Rs _ eq_refl).
    + cbn [app PairUps.quads PairUps.trips PairUps.pairs PairUps.kickers].
      rewrite !held_ranksHeld. reflexivity.
    + intros r _. specialize (B r). unfold count in B. lia.
  - intros x Hx. rewrite Forall_forall in F. apply In_Rs, F, Hx.
Qed.

Lemma btCountToAnalysis_ranks_held_witness :
  snd (btCountToAnalysis sevenRanks)
  = Some (PairUps.mk (map Some (Poker.ranksHeld 4 sevenRanks))
            (map Some (Poker.ranksHeld 3 sevenRanks))
            (map Some (Poker.ranksHeld 2 sevenRanks))
            (map Some (Poker.ranksHeld 1 sevenRanks))).
Proof.
  apply (btCountToAnalysis_ranks_held sevenRanks).
  - discriminate.
  - exact rankArray_sevenRanks.
Defined.

(** X21: for every array of integers, [btCountToAnalysis] throws exactly
    when some number occurs in it five times or more; the empty array does
    not throw. *)
Theorem btCountToAnalysis_throws_iff (handRanks : list Z) :
  snd (btCountToAnalysis handRanks) = None
  <-> exists r, 5 <= count r handRanks.
Proof.
  destruct (list_eq_dec Z.eq_dec handRanks []) as [->|NE].
  - cbn. split; [discriminate|]. intros [r B]. unfold count in B. cbn in B. lia.
  - set (V := nodup Z.eq_dec (JS.sort (fun a b => b - a) handRanks)).
    assert (I : forall x, In x handRanks -> In x V).
    { intros x Hx. apply nodup_In.
      apply (Permutation_in _ (Permutation_sym (sort_perm _ handRanks))), Hx. }
    rewrite (btCountToAnalysis_runs V handRanks).
    + rewrite pushRuns_throws. split.
      * intros [r [_ B]]. exists r. unfold count. lia.
      * intros [r B]. exists r. unfold count in B. split; [|lia].
        apply I. apply (count_occ_In Z.eq_dec). lia.
    + apply nodup_sorted, sort_sorted.
    + exact I.
    + exact NE.
Qed.

(** ** The display in binary *)

Lemma pos_bits_acc (p : positive) (acc : list ascii) :
  JS.pos_bits p acc = (JS.pos_bits p [] ++ acc)%list.
Proof.
  revert acc. induction p as [p IH|p IH|]; intros acc; cbn.
  - rewrite (IH ["1"%char]), (IH ("1"%char :: acc)), <- app_assoc. reflexivity.
  - rewrite (IH ["0"%char]), (IH ("0"%char :: acc)), <- app_assoc. reflexivity.
  - reflexivity.
Qed.

Lemma pos_bits_binary (p : positive) :
  JS.pos_bits p [] = binary (Pos.size_nat p) (Zpos p).
Proof.
  induction p as [p IH|p IH|].
  - cbn [JS.pos_bits Pos.size_nat binary]. rewrite pos_bits_acc, IH.
    replace (Z.pos p~1 / 2) with (Z.pos p)
      by (rewrite Pos2Z.inj_xI; apply (Z.div_unique _ 2 _ 1); lia).
    reflexivity.
  - cbn [JS.pos_bits Pos.size_nat binary]. rewrite pos_bits_acc, IH.
    replace (Z.pos p~0 / 2) with (Z.pos p)
      by (rewrite Pos2Z.inj_xO; apply (Z.div_unique _ 2 _ 0); lia).
    reflexivity.
  - reflexivity.
Qed.

Lemma size_nat_bound (p : positive) :
  2 ^ Z.of_nat (Pos.size_nat p) <= 2 * Zpos p.
Proof.
  induction p as [p IH|p IH|]; cbn [Pos.size_nat].
  - rewrite Nat2Z.inj_succ, Z.pow_succ_r by lia. lia.
  - rewrite Nat2Z.inj_succ, Z.pow_succ_r by lia. lia.
  - cbn. lia.
Qed.

Lemma binary_length (N : nat) (x : Z) : Datatypes.length (binary N x) = N.
Proof.
  revert x. induction N as [|k IH]; intros x; cbn; [reflexivity|].
  rewrite length_app, IH. cbn. lia.
Qed.

Lemma binary_zero (k : nat) : binary k 0 = repeat "0"%char k.
Proof.
  induction k as [|k IH]; [reflexivity|].
  cbn [binary]. change (0 / 2) with 0. rewrite IH.
  change [bitChar (Z.odd 0)] with (repeat "0"%char 1).
  rewrite <- repeat_app. f_equal. lia.
Qed.

Lemma binary_extend (k m : nat) (x : Z) :
  0 <= x < 2 ^ Z.of_nat m ->
  binary (k + m) x = (repeat "0"%char k ++ binary m x)%list.
Proof.
  revert x. induction m as [|m IH]; intros x B.
  - cbn in B. assert (x = 0) by lia. subst x.
    rewrite Nat.add_0_r, app_nil_r. apply binary_zero.
  - rewrite Nat.add_succ_r. cbn [binary]. rewrite IH, app_assoc; [reflexivity|].
    rewrite Nat2Z.inj_succ, Z.pow_succ_r in B by lia.
    split; [apply Z.div_pos; lia|].
    apply Z.div_lt_upper_bound; lia.
Qed.

Lemma padStart0_binary (N : nat) (x : Z) :
  (1 <= N)%nat -> 0 <= x < 2 ^ Z.of_nat N ->
  JS.padStart0 N (JS.toString2 x) = binary N x.
Proof.
  intros LN B. unfold JS.padStart0.
  destruct x as [|p|p]; [| |lia].
  - cbn [JS.toString2 Datatypes.length].
    rewrite binary_zero.
    change ["0"%char] with (repeat "0"%char 1).
    rewrite <- repeat_app. f_equal. lia.
  - cbn [JS.toString2]. rewrite pos_bits_binary, binary_length.
    pose proof (size_nat_bound p) as S.
    assert (LE : (Pos.size_nat p <= N)%nat).
    { apply Nat2Z.inj_le. apply Z.lt_succ_r.
      apply (Z.pow_lt_mono_r_iff 2); [lia|lia|].
      rewrite Z.pow_succ_r by lia. lia. }
    rewrite <- binary_extend; [f_equal; lia|].
    split; [lia|].
    clear. induction p as [p IH|p IH|]; cbn [Pos.size_nat].
    + rewrite Nat2Z.inj_succ, Z.pow_succ_r by lia. lia.
    + rewrite Nat2Z.inj_succ, Z.pow_succ_r by lia. lia.
    + cbn. lia.
Qed.

Lemma binary_nth (N i : nat) (x : Z) :
  (i < N)%nat ->
  nth_error (binary N x) i
  = Some (bitChar (Z.testbit x (Z.of_nat (N - 1 - i)))).
Proof.
  revert x. induction N as [|k IH]; intros x L; [lia|].
  cbn [binary].
  destruct (Nat.eq_dec i k) as [->|D].
  - rewrite nth_error_app2 by (rewrite binary_length; lia).
    rewrite binary_length, Nat.sub_diag.
    replace (S k - 1 - k)%nat with 0%nat by lia.
    cbn [nth_error Z.of_nat]. rewrite Z.bit0_odd. reflexivity.
  - rewrite nth_error_app1 by (rewrite binary_length; lia).
    rewrite IH by lia.
    replace (Z.of_nat (S k - 1 - i)) with (Z.succ (Z.of_nat (k - 1 - i)))
      by lia.
    rewrite Z.div2_bits by lia. reflexivity.
Qed.

Lemma bitChar_digit (b : bool) : JS.is_digit (bitChar b) = true.
Proof. destruct b; reflexivity. Qed.

Lemma binary_digits (N : nat) (x : Z) :
  Forall (fun c => JS.is_digit c = true) (binary N x).
Proof.
  revert x. induction N as [|k IH]; intros x; cbn; [constructor|].
  apply Forall_app. split; [apply IH|].
  constructor; [apply bitChar_digit|constructor].
Qed.

Lemma digit_not_space (c : ascii) :
  JS.is_digit c = true -> JS.is_space c = false.
Proof.
  unfold JS.is_digit, JS.is_space. cbv zeta.
  destruct (nat_of_ascii c =? 32)%nat eqn:E1;
  destruct (9 <=? nat_of_ascii c)%nat eqn:E2;
  destruct (nat_of_ascii c <=? 13)%nat eqn:E3;
  destruct (48 <=? nat_of_ascii c)%nat eqn:E4;
  destruct (nat_of_ascii c <=? 57)%nat eqn:E5; cbn; try reflexivity;
  try discriminate; intros _;
  repeat match goal with
  | H : (_ =? _)%nat = true |- _ => apply Nat.eqb_eq in H
  | H : (_ <=? _)%nat = true |- _ => apply Nat.leb_le in H
  | H : (_ <=? _)%nat = false |- _ => apply Nat.leb_gt in H
  end; lia.
Qed.

Lemma group4_spaced (n : nat) (s : list ascii) :
  Datatypes.length s = (4 * n)%nat ->
  Forall (fun c => JS.is_digit c = true) s ->
  JS.group4 s = spaced n s.
Proof.
  revert s. induction n as [|n IH]; intros s L F.
  - destruct s; [reflexivity|discriminate].
  - destruct s as [|a [|b [|c [|d rest]]]]; try (cbn in L; lia).
    pose proof (Forall_inv F) as Fa. apply Forall_inv_tail in F.
    pose proof (Forall_inv F) as Fb. apply Forall_inv_tail in F.
    pose proof (Forall_inv F) as Fc. apply Forall_inv_tail in F.
    pose proof (Forall_inv F) as Fd. apply Forall_inv_tail in F.
    cbv beta in Fa, Fb, Fc, Fd.
    cbn [JS.group4 spaced]. rewrite Fa, Fb, Fc, Fd. cbn [andb].
    rewrite IH; [reflexivity| |exact F]. cbn in L. lia.
Qed.

Lemma spaced_end (n : nat) (s : list ascii) :
  Datatypes.length s = (4 * S n)%nat ->
  Forall (fun c => JS.is_digit c = true) s ->
  exists body a d,
    spaced (S n) s = (a :: body ++ [d; " "%char])%list
    /\ JS.is_digit a = true /\ JS.is_digit d = true.
Proof.
  revert s. induction n as [|n IH]; intros s L F.
  - destruct s as [|a [|b [|c [|d [|e rest]]]]]; try (cbn in L; lia).
    exists [b; c], a, d. cbn.
    pose proof (Forall_inv F) as Fa. apply Forall_inv_tail in F.
    pose proof (Forall_inv F) as Fb. apply Forall_inv_tail in F.
    pose proof (Forall_inv F) as Fc. apply Forall_inv_tail in F.
    pose proof (Forall_inv F) as Fd. apply Forall_inv_tail in F.
    cbv beta in Fa, Fb, Fc, Fd.
    repeat split; assumption.
  - destruct s as [|a [|b [|c [|d rest]]]]; try (cbn in L; lia).
    pose proof (Forall_inv F) as Fa. apply Forall_inv_tail in F.
    pose proof (Forall_inv F) as Fb. apply Forall_inv_tail in F.
    pose proof (Forall_inv F) as Fc. apply Forall_inv_tail in F.
    pose proof (Forall_inv F) as Fd. apply Forall_inv_tail in F.
    cbv beta in Fa, Fb, Fc, Fd.
    destruct (IH rest) as [body [a' [d' [E [Da Dd]]]]];
      [cbn in L; lia|exact F|].
    exists (b :: c :: d :: " "%char :: a' :: body), a, d'.
    change (spaced (S (S n)) (a :: b :: c :: d :: rest))
      with (a :: b :: c :: d :: " "%char :: spaced (S n) rest).
    rewrite E. repeat split; assumption.
Qed.

Lemma stripOnce_end (body : list ascii) (a d : ascii) :
  JS.is_space a = false -> JS.is_space d = false ->
  JS.stripOnce (a :: body ++ [d; " "%char]) = (a :: body ++ [d])%list.
Proof.
  intros Sa Sd. unfold JS.stripOnce. rewrite Sa.
  change (a :: body ++ [d; " "%char])%list
    with ((a :: body) ++ [d; " "%char])%list.
  rewrite rev_app_distr. cbn [rev app JS.dropWhile].
  change (JS.is_space " ") with true. cbn iota. rewrite Sd.
  change (d :: rev (a :: body))%list with (rev ((a :: body) ++ [d])).
  rewrite <- (rev_app_distr (a :: body) [d]) at 1.
  rewrite rev_involutive. reflexivity.
Qed.

Lemma spaced_length (n : nat) (s : list ascii) :
  Datatypes.length s = (4 * n)%nat ->
  Datatypes.length (spaced n s) = (5 * n)%nat.
Proof.
  revert s. induction n as [|n IH]; intros s L.
  - destruct s; reflexivity.
  - destruct s as [|a [|b [|c [|d rest]]]]; try (cbn in L; lia).
    cbn [spaced Datatypes.length]. rewrite IH; [lia|]. cbn in L. lia.
Qed.

Lemma spaced_nth (n i j : nat) (s : list ascii) :
  Datatypes.length s = (4 * n)%nat -> (i < n)%nat -> (j < 4)%nat ->
  nth_error (spaced n s) (5 * i + j) = nth_error s (4 * i + j).
Proof.
  revert i s. induction n as [|n IH]; intros i s L Li Lj; [lia|].
  destruct s as [|a [|b [|c [|d rest]]]]; try (cbn in L; lia).
  cbn [spaced].
  destruct i as [|i].
  - destruct j as [|[|[|[|j]]]]; try lia; reflexivity.
  - replace (5 * S i + j)%nat with (S (S (S (S (S (5 * i + j)))))) by lia.
    replace (4 * S i + j)%nat with (S (S (S (S (4 * i + j))))) by lia.
    cbn [nth_error]. apply IH; [cbn in L; lia|lia|lia].
Qed.

Lemma spaced_blank (n i : nat) (s : list ascii) :
  Datatypes.length s = (4 * n)%nat -> (i < n)%nat ->
  nth_error (spaced n s) (5 * i + 4) = Some " "%char.
Proof.
  revert i s. induction n as [|n IH]; intros i s L Li; [lia|].
  destruct s as [|a [|b [|c [|d rest]]]]; try (cbn in L; lia).
  cbn [spaced].
  destruct i as [|i]; [reflexivity|].
  replace (5 * S i + 4)%nat with (S (S (S (S (S (5 * i + 4)))))) by lia.
  cbn [nth_error]. apply IH; [cbn in L; lia|lia].
Qed.

(** The display of a number that fits: the blank of [spaced] at the end is
    the one the last [replace] takes away. *)
Lemma displayBits_spaced (n : nat) (x : Z) :
  (1 <= n)%nat -> 0 <= x < 2 ^ Z.of_nat (4 * n) ->
  (displayBits (4 * n) x ++ [" "%char])%list = spaced n (binary (4 * n) x).
Proof.
  intros L B. unfold displayBits.
  rewrite padStart0_binary by (try lia; exact B).
  rewrite (group4_spaced n) by (apply binary_length || apply binary_digits).
  destruct n as [|n]; [lia|].
  destruct (spaced_end n (binary (4 * S n) x)) as [body [a [d [E [Da Dd]]]]];
    [apply binary_length|apply binary_digits|].
  rewrite E, stripOnce_end by (apply digit_not_space; assumption).
  cbn [app]. rewrite <- app_assoc. reflexivity.
Qed.

(** X22: the display of [0 <= x < 2^(4n)] on [4n] bits, [1 <= n]: [n] groups
    of four binary digits, the highest first, with one blank between two
    groups and none at the ends. *)
Theorem displayBits_groups (n : nat) (x : Z) :
  (1 <= n)%nat -> 0 <= x < 2 ^ Z.of_nat (4 * n) ->
  Datatypes.length (displayBits (4 * n) x) = (5 * n - 1)%nat
  /\ (forall i j, (i < n)%nat -> (j < 4)%nat ->
      nth_error (displayBits (4 * n) x) (5 * i + j)
      = Some (if Z.testbit x (Z.of_nat (4 * (n - 1 - i) + (3 - j)))
              then "1"%char else "0"%char))
  /\ (forall i, (i + 1 < n)%nat ->
      nth_error (displayBits (4 * n) x) (5 * i + 4) = Some " "%char).
Proof.
  intros L B. pose proof (displayBits_spaced n x L B) as E.
  assert (Len : Datatypes.length (displayBits (4 * n) x) = (5 * n - 1)%nat).
  { apply (f_equal (@Datatypes.length ascii)) in E.
    rewrite length_app, spaced_length in E by apply binary_length.
    cbn [Datatypes.length] in E. lia. }
  assert (N : forall k, (k < 5 * n - 1)%nat ->
    nth_error (displayBits (4 * n) x) k
    = nth_error (spaced n (binary (4 * n) x)) k).
  { intros k Lk. rewrite <- E. symmetry. apply nth_error_app1. lia. }
  split; [exact Len|]. split.
  - intros i j Li Lj. rewrite N by lia.
    rewrite spaced_nth by (try apply binary_length; lia).
    rewrite binary_nth by lia. unfold bitChar.
    replace (4 * n - 1 - (4 * i + j))%nat
      with (4 * (n - 1 - i) + (3 - j))%nat by lia.
    reflexivity.
  - intros i Li. rewrite N by lia.
    apply spaced_blank; [apply binary_length|lia].
Qed.

Lemma displayBits_groups_witness :
  Datatypes.length (displayBits (4 * 4) WHEEL_HASH) = (5 * 4 - 1)%nat
  /\ (forall i j, (i < 4)%nat -> (j < 4)%nat ->
      nth_error (displayBits (4 * 4) WHEEL_HASH) (5 * i + j)
      = Some (if Z.testbit WHEEL_HASH (Z.of_nat (4 * (4 - 1 - i) + (3 - j)))
              then "1"%char else "0"%char))
  /\ (forall i, (i + 1 < 4)%nat ->
      nth_error (displayBits (4 * 4) WHEEL_HASH) (5 * i + 4) = Some " "%char).
Proof.
  apply (displayBits_groups 4 WHEEL_HASH).
  - lia.
  - split; reflexivity || (intros H; discriminate H).
Defined.

(** ** The score of an analysis *)

(** X23: [analysisToInt] returns a score for the five categories with
    duplicated ranks, on every number (the scan of each analyzer ends), and
    throws for the five others, which have no analyzer. *)
Theorem analysisToInt_throws_iff (handRank : HandRank.t) (bitCount : Z) :
  analysisToInt handRank bitCount = None
  <-> In handRank
        [HandRank.highCard; HandRank.straight; HandRank.flush;
         HandRank.straightFlush; HandRank.royalFlush].
Proof.
  split.
  - intros E.
    destruct handRank; cbn [In]; auto 6;
      match goal with
      | |- context [?c = ?c] => auto 6
      | E : analysisToInt ?c _ = None |- _ =>
          destruct (analysisToInt_returns c bitCount) as [x X];
            [cbn [In]; auto 6|rewrite X in E; discriminate E]
      end.
  - cbn [In]. intros H. decompose [or] H; subst; try reflexivity.
    contradiction.
Qed.
